(** * VulnerableCode: GitLab and PostgreSQL importers, nearest-patched matching

    A shallow embedding of [vulnerabilities/importers/gitlab.py] and
    [vulnerabilities/importers/postgresql.py], together with the helpers
    they call, and the properties of the advisory pipeline proved over it.

    Python values are modelled as follows: [str] as the [string] of the
    bytes of its UTF-8 encoding, [list] as [list], [Optional[T]] as [option T], a [dict] whose iteration order is
    observed as an association list in insertion order, an exception as a
    [Raise] result, a generator as the list of the values it yields together
    with the exception that ended it, if any, and the attributes of [self]
    as an explicit state that is passed in and returned. *)

From Stdlib Require Import List String Ascii Bool Arith Lia Permutation Sorted.
Import ListNotations.
Local Open Scope string_scope.
Local Open Scope list_scope.
Local Open Scope nat_scope.

Set Implicit Arguments.

(** ** Python runtime *)

(** The exceptions the modelled code can meet. [OtherError] stands for
    whatever an external collaborator raises. *)
Inductive exn : Type :=
| IndexError
| KeyError
| TypeError
| AttributeError
| ValueError
| UnboundLocalError
| UnMergeablePackageError
| OtherError.

Inductive result (A : Type) : Type :=
| Return (a : A)
| Raise (e : exn).

Arguments Return {A} a.
Arguments Raise {A} e.

Definition bind {A B : Type} (r : result A) (k : A -> result B) : result B :=
  match r with
  | Return a => k a
  | Raise e => Raise e
  end.

Notation "x <- r ;; k" := (bind r (fun x => k))
  (at level 61, r at next level, right associativity).

(** [mapM f l] is the comprehension [[f(x) for x in l]] when [f] can raise. *)
Fixpoint mapM {A B : Type} (f : A -> result B) (l : list A) : result (list B) :=
  match l with
  | [] => Return []
  | x :: l' => y <- f x ;; ys <- mapM f l' ;; Return (y :: ys)
  end.

Module Py.

(** [s.split(sep)] for a one-character separator. *)
Fixpoint split (sep : ascii) (s : string) : list string :=
  match s with
  | EmptyString => [EmptyString]
  | String c r =>
      if Ascii.eqb c sep then EmptyString :: split sep r
      else match split sep r with
           | [] => [String c EmptyString]
           | h :: t => String c h :: t
           end
  end.

(** [sep.join(parts)] *)
Definition join (sep : string) (parts : list string) : string :=
  String.concat sep parts.

(** Truth value of a [str]: the empty string is false. *)
Definition truthy (s : string) : bool :=
  match s with EmptyString => false | _ => true end.

(** The white space of [str.isspace], each character in its UTF-8
    encoding: U+0009 to U+000D, U+001C to U+0020, U+0085, U+00A0, U+1680,
    U+2000 to U+200A, U+2028, U+2029, U+202F, U+205F and U+3000. *)
Definition whitespace : list string :=
  map (fun codes => string_of_list_ascii (map ascii_of_nat codes))
      [ [9]; [10]; [11]; [12]; [13]; [28]; [29]; [30]; [31]; [32];
        [194; 133]; [194; 160]; [225; 154; 128];
        [226; 128; 128]; [226; 128; 129]; [226; 128; 130]; [226; 128; 131];
        [226; 128; 132]; [226; 128; 133]; [226; 128; 134]; [226; 128; 135];
        [226; 128; 136]; [226; 128; 137]; [226; 128; 138];
        [226; 128; 168]; [226; 128; 169]; [226; 128; 175];
        [226; 129; 159]; [227; 128; 128] ].

(** The rest of [s] after [p], when [s] starts with [p]. *)
Fixpoint after_prefix (p s : string) : option string :=
  match p, s with
  | EmptyString, _ => Some s
  | String a p', String b s' =>
      if Ascii.eqb a b then after_prefix p' s' else None
  | String _ _, EmptyString => None
  end.

(** The rest of [s] after its first character, when that is one of
    [chars]. *)
Fixpoint after_char (chars : list string) (s : string) : option string :=
  match chars with
  | [] => None
  | c :: chars' =>
      match after_prefix c s with
      | Some r => Some r
      | None => after_char chars' s
      end
  end.

(** The characters of [chars] are dropped from the head of [s]; every
    round drops a byte at least, so [fuel] bytes are enough for a string
    of as many. *)
Fixpoint drop_chars (chars : list string) (fuel : nat) (s : string) : string :=
  match fuel with
  | O => s
  | S fuel' =>
      match after_char chars s with
      | Some r => drop_chars chars fuel' r
      | None => s
      end
  end.

Definition reverse (s : string) : string :=
  string_of_list_ascii (rev (list_ascii_of_string s)).

(** [s.lstrip()] *)
Definition lstrip (s : string) : string :=
  drop_chars whitespace (String.length s) s.

(** [s.rstrip()]: the white space is dropped from the end, read
    backwards. In UTF-8 the bytes of a character at the end of a string
    are that character. *)
Definition rstrip (s : string) : string :=
  reverse (drop_chars (map reverse whitespace) (String.length s) (reverse s)).

(** [s.strip()] *)
Definition strip (s : string) : string := rstrip (lstrip s).

Definition lower_ascii (c : ascii) : ascii :=
  let n := nat_of_ascii c in
  if Nat.leb 65 n && Nat.leb n 90 then ascii_of_nat (n + 32) else c.

(** [s.lower()] on its ASCII letters: the other characters are left as
    they are. The code looks for the ASCII word [windows] in the result,
    which no character outside ASCII helps to form: lowered, U+212A is a
    [k], and U+0130 is an [i] with a combining dot after it. *)
Fixpoint lower (s : string) : string :=
  match s with
  | EmptyString => EmptyString
  | String c r => String (lower_ascii c) (lower r)
  end.

(** A non-empty word of lower-case ASCII letters. *)
Definition lower_case_word (s : string) : bool :=
  truthy s &&
  forallb (fun c => let n := nat_of_ascii c in Nat.leb 97 n && Nat.leb n 122)
          (list_ascii_of_string s).

(** [s.startswith(p)] *)
Definition startswith (p s : string) : bool := String.prefix p s.

(** [p in s] for strings. *)
Fixpoint contains (p s : string) : bool :=
  String.prefix p s ||
  match s with
  | EmptyString => false
  | String _ r => contains p r
  end.

(** [d.get(k)] on a dictionary kept as an association list. *)
Fixpoint dict_get {K V : Type} (eqb : K -> K -> bool)
         (d : list (K * V)) (k : K) : option V :=
  match d with
  | [] => None
  | (k', v) :: d' => if eqb k k' then Some v else dict_get eqb d' k
  end.

(** [d[k] = v]: an existing key keeps its position, a new key goes last. *)
Fixpoint dict_set {K V : Type} (eqb : K -> K -> bool)
         (d : list (K * V)) (k : K) (v : V) : list (K * V) :=
  match d with
  | [] => [(k, v)]
  | (k', v') :: d' =>
      if eqb k k' then (k', v) :: d' else (k', v') :: dict_set eqb d' k v
  end.

End Py.

(** ** Package URLs *)

(** [packageurl.PackageURL]: a value of this record stands for a
    constructed package URL. *)
Record PackageURL : Type := mkPackageURL {
  purl_type : string;
  purl_namespace : option string;
  purl_name : string;
  purl_version : option string;
  purl_qualifiers : list (string * string);
  purl_subpath : option string
}.

Definition PackageURL_eq_dec (a b : PackageURL) : {a = b} + {a <> b}.
Proof.
  repeat decide equality.
Defined.

Definition purl_eqb (a b : PackageURL) : bool :=
  if PackageURL_eq_dec a b then true else false.

Definition opt_purl_eq_dec (a b : option PackageURL) : {a = b} + {a <> b}.
Proof. decide equality. apply PackageURL_eq_dec. Defined.

Definition opt_purl_eqb (a b : option PackageURL) : bool :=
  if opt_purl_eq_dec a b then true else false.

(** The package URL of the type, namespace, name and version given, as
    they are: [PackageURL(type=t, namespace=ns, name=n, version=v)] for
    fields that the constructor keeps, as [get_inferences] takes them from
    a constructed package URL and from the versions of a fetcher. *)
Definition PackageURL_of (t : string) (ns : option string) (n : string)
           (v : option string) : PackageURL :=
  mkPackageURL t ns n v [] None.

Definition version_of (p : PackageURL) : string :=
  match purl_version p with
  | Some v => v
  | None => EmptyString
  end.

(** ** External collaborators

    Libraries and services the importers call. Each is taken through the
    interface the code uses. *)

(** The library [packageurl]: the normalisation that the constructor of
    [PackageURL] applies to its arguments. It keeps a type that is a word
    of lower-case ASCII letters, and the package URL of no version has no
    version. *)
Class PackageURLs : Type := {
  normalize : string -> option string -> string -> option string ->
              list (string * string) -> option string -> PackageURL;
  normalize_type : forall t ns n v q s,
      Py.lower_case_word t = true -> purl_type (normalize t ns n v q s) = t;
  normalize_no_version : forall t ns n q s,
      purl_version (normalize t ns n None q s) = None
}.

(** [PackageURL(type=t, namespace=ns, name=n, version=v, qualifiers=q,
    subpath=s)]: the constructor raises [ValueError] when the type or the
    name is empty, and normalises its arguments otherwise. *)
Definition PackageURL_new `{PackageURLs} (t : string) (ns : option string)
           (n : string) (v : option string) (q : list (string * string))
           (s : option string) : result PackageURL :=
  if Py.truthy t && Py.truthy n then Return (normalize t ns n v q s)
  else Raise ValueError.

(** The ordering of version strings within one ecosystem, as the version
    classes of [univers] compare them: total and transitive. Two strings
    that denote the same version compare equal both ways. *)
Class VersionOrder : Type := {
  vleb : string -> string -> bool;
  vleb_total : forall a b, vleb a b = true \/ vleb b a = true;
  vleb_trans : forall a b c, vleb a b = true -> vleb b c = true -> vleb a c = true
}.

(** [a < b] *)
Definition vltb `{VersionOrder} (a b : string) : bool := negb (vleb b a).

(** [a == b] as versions *)
Definition veqb `{VersionOrder} (a b : string) : bool := vleb a b && vleb b a.

(** A range class of [univers]: [vrc.from_native] and [vrc.version_class],
    each of which raises on text it cannot parse. *)
Record RangeClass (VR V : Type) : Type := {
  from_native : string -> result VR;
  version_class : string -> result V
}.

(** [univers.version_range] and [univers.versions]. *)
Class Univers : Type := {
  VersionRange : Type;
  Version : Type;
  (** [version_class(s) in version_range] for a version string [s] *)
  range_contains : VersionRange -> string -> bool;
  (** the range that holds exactly one version *)
  single_version_range : Version -> VersionRange;
  from_gitlab_native : string -> string -> result VersionRange;
  RANGE_CLASS_BY_SCHEMES : string -> option (RangeClass VersionRange Version)
}.

(** [dateutil.parser.parse] followed by [pytz.utc.localize]. *)
Class Dates : Type := {
  datetime : Type;
  dateparser_parse : option string -> result datetime;
  utc_localize : datetime -> result datetime
}.

(** [vulnerabilities.package_managers]: the version fetchers. A fetcher is
    a mutable object: [get_until] returns the answer together with the
    fetcher as the call leaves it. *)
Class PackageManagers `{Dates} : Type := {
  VersionAPI : Type;
  (** [GoproxyVersionAPI()] *)
  GoproxyVersionAPI : VersionAPI;
  (** [VERSION_API_CLASSES_BY_PACKAGE_TYPE[t]()], [None] for a missing key *)
  VERSION_API_CLASSES_BY_PACKAGE_TYPE : string -> option VersionAPI;
  (** the attribute [module_name_by_package_name] of a Go fetcher *)
  module_name_by_package_name : VersionAPI -> list (string * string);
  get_api_package_name : PackageURL -> option string;
  (** [fetcher.get_until(package_name=n, until=d).valid_versions] *)
  get_until : VersionAPI -> string -> option datetime ->
              result (list string) * VersionAPI
}.

(** ** vulnerabilities.helpers *)

Module helpers.

(** [helpers.AffectedPackage], as the tests of the importers construct
    it: a vulnerable package with the package that patches it, if any. *)
Record AffectedPackage : Type := mkAffectedPackage {
  vulnerable_package : PackageURL;
  patched_package : option PackageURL
}.

Section Matcher.
Context `{VO : VersionOrder}.

(** Equal-version duplicates are removed: of several packages with the
    same version, the last one stays. *)
Fixpoint dedup_versions (l : list PackageURL) : list PackageURL :=
  match l with
  | [] => []
  | p :: l' =>
      if existsb (fun q => veqb (version_of p) (version_of q)) l'
      then dedup_versions l'
      else p :: dedup_versions l'
  end.

Fixpoint insert_by_version (p : PackageURL) (l : list PackageURL)
  : list PackageURL :=
  match l with
  | [] => [p]
  | q :: l' =>
      if vleb (version_of p) (version_of q) then p :: l
      else q :: insert_by_version p l'
  end.

(** A stable ascending sort by version. *)
Fixpoint sort_by_version (l : list PackageURL) : list PackageURL :=
  match l with
  | [] => []
  | p :: l' => insert_by_version p (sort_by_version l')
  end.

(** The binary search: the loop of [bisect.bisect_right], which narrows
    [lo, hi) until it is empty. Every round at least halves the interval,
    so [fuel >= hi - lo] rounds are enough. *)
Fixpoint bisect_right_loop (fuel : nat) (a : list PackageURL) (x : PackageURL)
         (lo hi : nat) : nat :=
  match fuel with
  | O => lo
  | S fuel' =>
      if lo <? hi then
        let mid := (lo + hi) / 2 in
        match nth_error a mid with
        | Some am =>
            if vltb (version_of x) (version_of am)
            then bisect_right_loop fuel' a x lo mid
            else bisect_right_loop fuel' a x (mid + 1) hi
        | None => lo
        end
      else lo
  end.

Definition bisect_right (a : list PackageURL) (x : PackageURL) : nat :=
  bisect_right_loop (List.length a) a x 0 (List.length a).

(** Modelled from the spec: [nearest_patched_package] of
    [vulnerabilities/helpers.py], which is not among the sources. The
    resolved packages are deduplicated by version and sorted ascending;
    each vulnerable package is paired with the entry the binary search
    finds, the smallest one with a strictly greater version, or with no
    package when the search ends past the last entry. *)
Definition nearest_patched_package
           (vulnerable_packages resolved_packages : list PackageURL)
  : list AffectedPackage :=
  let resolved := sort_by_version (dedup_versions resolved_packages) in
  map (fun v => mkAffectedPackage v (nth_error resolved (bisect_right resolved v)))
      vulnerable_packages.

End Matcher.

(** Modelled from the spec: [resolve_version_range] of
    [vulnerabilities/helpers.py], which is not among the sources. A version
    of the universe is affected when the range contains it and unaffected
    otherwise. The callers modelled here pass no ignorable versions. *)
Definition resolve_version_range `{Univers}
           (affected_version_range : VersionRange)
           (package_versions : list string) : list string * list string :=
  (filter (range_contains affected_version_range) package_versions,
   filter (fun v => negb (range_contains affected_version_range v))
          package_versions).

End helpers.

(** ** vulnerabilities.importer *)

Module importer.

(** The value of a severity: a score as text, or the list of values that
    [parse_qs] gives for one key. *)
Inductive severity_value : Type :=
| SevText (s : string)
| SevList (l : list string).

(** [VulnerabilitySeverity] and [Reference], with the fields the
    importers and their tests fill in. A scoring system is named by its
    key in [scoring_systems]. *)
Record VulnerabilitySeverity : Type := mkVulnerabilitySeverity {
  system : string;
  value : severity_value
}.

Record Reference : Type := mkReference {
  reference_id : string;
  url : string;
  severities : list VulnerabilitySeverity
}.

(** [importer.Advisory], the record the older importers build, with the
    fields their tests fill in. *)
Record Advisory : Type := mkAdvisory {
  vulnerability_id : string;
  adv_summary : string;
  adv_references : list Reference;
  adv_affected_packages : list helpers.AffectedPackage
}.

(** [Reference.from_url], which is not among the sources. *)
Class ReferenceAPI : Type := {
  Reference_from_url : string -> Reference
}.

(** Modelled from the spec: [AffectedPackage] and [AdvisoryData] of
    [vulnerabilities/importer.py], which is not among the sources, with
    the fields of the data model that the importers fill in. They are
    stated over the types of version ranges, of versions and of dates. *)
Section Records.
Variables VersionRange Version datetime : Type.

Record AffectedPackage : Type := mkAffectedPackage {
  package : PackageURL;
  affected_version_range : option VersionRange;
  fixed_version : option Version
}.

Record AdvisoryData : Type := mkAdvisoryData {
  aliases : option (list string);
  summary : string;
  references : list Reference;
  date_published : option datetime;
  affected_packages : list AffectedPackage
}.

End Records.

Section Data.
Context `{U : Univers}.

(** The identity of a package: its type, namespace and name. *)
Definition identity (p : PackageURL) : string * option string * string :=
  (purl_type p, purl_namespace p, purl_name p).

Definition identity_eq_dec (a b : string * option string * string)
  : {a = b} + {a <> b}.
Proof. repeat decide equality. Defined.

Definition same_identity (a b : PackageURL) : bool :=
  if identity_eq_dec (identity a) (identity b) then true else false.

(** The package without its version. *)
Definition strip_version (p : PackageURL) : PackageURL :=
  mkPackageURL (purl_type p) (purl_namespace p) (purl_name p) None
               (purl_qualifiers p) (purl_subpath p).

(** The ranges of one record: its explicit range, or, when it has none,
    the one-version range of its fixed version. *)
Definition ranges_of (pkg : AffectedPackage VersionRange Version)
  : list VersionRange :=
  match affected_version_range pkg, fixed_version pkg with
  | Some r, _ => [r]
  | None, Some v => [single_version_range v]
  | None, None => []
  end.

Definition fixed_versions_of (pkg : AffectedPackage VersionRange Version)
  : list Version :=
  match fixed_version pkg with
  | Some v => [v]
  | None => []
  end.

(** Modelled from the spec: [AffectedPackage.merge] of
    [vulnerabilities/importer.py], which is not among the sources. The
    records are collapsed into one identity, the list of their ranges and
    the list of their fixed versions; records of more than one identity
    raise [UnMergeablePackageError]. The spec leaves the empty list open:
    it has no identity, and the result is [None]. *)
Definition merge (pkgs : list (AffectedPackage VersionRange Version))
  : result (option (PackageURL * list VersionRange * list Version)) :=
  match pkgs with
  | [] => Return None
  | first :: others =>
      if forallb (fun pkg => same_identity (package first) (package pkg)) others
      then Return (Some (strip_version (package first),
                         flat_map ranges_of pkgs,
                         flat_map fixed_versions_of pkgs))
      else Raise UnMergeablePackageError
  end.

End Data.

End importer.

(** ** vulnerabilities.improver *)

Module improver.

Section Inference.
Context `{U : Univers} `{D : Dates}.

(** Modelled from the spec: [Inference] of [vulnerabilities/improver.py],
    which is not among the sources, with the fields of the data model. *)
Record Inference : Type := mkInference {
  inf_aliases : option (list string);
  confidence : nat;
  affected_purls : list PackageURL;
  fixed_purl : option PackageURL;
  inf_references : list importer.Reference
}.

(** Modelled from the spec: [Inference.from_advisory_data] of
    [vulnerabilities/improver.py], which is not among the sources. The
    inference takes the aliases and references of the advisory and the
    confidence, affected packages and fixed package it is given. *)
Definition from_advisory_data
           (advisory_data : importer.AdvisoryData VersionRange Version datetime)
           (confidence : nat) (affected_purls : list PackageURL)
           (fixed_purl : option PackageURL) : Inference :=
  mkInference (importer.aliases advisory_data) confidence affected_purls
              fixed_purl (importer.references advisory_data).

End Inference.

End improver.

(** ** vulnerabilities.importers.gitlab *)

Module gitlab.

Import importer improver.

Definition PURL_TYPE_BY_GITLAB_SCHEME : list (string * string) :=
  [ ("gem", "gem");
    ("go", "golang");
    ("maven", "maven");
    ("npm", "npm");
    ("nuget", "nuget");
    ("pypi", "pypi");
    ("packagist", "composer") ].

Definition GITLAB_SCHEME_BY_PURL_TYPE : list (string * string) :=
  map (fun kv => (snd kv, fst kv)) PURL_TYPE_BY_GITLAB_SCHEME.

(** [value is not None and value != ""], on the strings [split] gives *)
Definition not_empty (value : string) : bool := Py.truthy value.

(** [get_purl]: [parts[0]] raises [IndexError] on an empty list, the
    lookup of the scheme raises [KeyError] on a missing key, and the
    constructor raises [ValueError] for the scheme [go] that stands alone,
    whose name is empty. The last two lines, which log and return [None],
    are reached by a known scheme other than [go] that stands alone. *)
Definition get_purl `{PackageURLs} (package_slug : string)
  : result (option PackageURL) :=
  let parts := Py.split "/" package_slug in
  let parts := filter not_empty parts in
  match parts with
  | [] => Raise IndexError
  | gitlab_scheme :: rest =>
      match Py.dict_get String.eqb PURL_TYPE_BY_GITLAB_SCHEME gitlab_scheme with
      | None => Raise KeyError
      | Some purl_type =>
          if String.eqb gitlab_scheme "go" then
            let name := Py.join "/" rest in
            purl <- PackageURL_new purl_type None name None [] None ;;
            Return (Some purl)
          else if List.length parts =? 2 then
            let name := nth 1 parts "" in
            purl <- PackageURL_new purl_type None name None [] None ;;
            Return (Some purl)
          else if 3 <=? List.length parts then
            let name := last parts "" in
            let namespace := Py.join "/" (removelast rest) in
            purl <- PackageURL_new purl_type (Some namespace) name None [] None ;;
            Return (Some purl)
          else Return None
      end
  end.

(** The mapping that [yaml.safe_load] gives for an advisory file, by the
    keys [parse_yaml_file] reads; a missing key is [None]. *)
Record GitlabAdvisory : Type := mkGitlabAdvisory {
  identifiers : option (list string);
  title : option string;
  description : option string;
  urls : option (list string);
  pubdate : option string;
  fixed_versions : option (list string);
  affected_range : option string;
  package_slug : option string
}.

Definition gitlab_native_schemes : list string :=
  ["pypi"; "gem"; "npm"; "go"; "packagist"].

Section Importer.
Context `{PL : PackageURLs} `{U : Univers} `{D : Dates} `{R : ReferenceAPI}.

Definition extract_affected_packages
           (affected_version_range : option VersionRange)
           (fixed_versions : list Version) (purl : PackageURL)
  : list (AffectedPackage VersionRange Version) :=
  map (fun fixed_version =>
         mkAffectedPackage purl affected_version_range (Some fixed_version))
      fixed_versions.

(** The body of the [try] of [parse_yaml_file]. *)
Definition parse_affected_range (vrc : RangeClass VersionRange Version)
           (gitlab_scheme : string) (affected_range : option string)
  : result (option VersionRange) :=
  match affected_range with
  | Some text =>
      if Py.truthy text then
        if existsb (String.eqb gitlab_scheme) gitlab_native_schemes
        then r <- from_gitlab_native gitlab_scheme text ;; Return (Some r)
        else r <- from_native vrc text ;; Return (Some r)
      else Return None
  | None => Return None
  end.

(** The [try] with its [except Exception]: a failure is logged and the
    range stays [None]. *)
Definition affected_version_range_of (vrc : RangeClass VersionRange Version)
           (gitlab_scheme : string) (affected_range : option string)
  : option VersionRange :=
  match parse_affected_range vrc gitlab_scheme affected_range with
  | Return r => r
  | Raise _ => None
  end.

(** The loop over [fixed_versions or []]: a version that does not parse
    is logged and left out. *)
Definition parse_fixed_versions (vrc : RangeClass VersionRange Version)
           (fixed_versions : option (list string)) : list Version :=
  flat_map (fun fixed_version =>
              match version_class vrc fixed_version with
              | Return v => [v]
              | Raise _ => []
              end)
           (match fixed_versions with Some l => l | None => [] end).

(** The last [if] of [parse_yaml_file]: one record per parsed fixed
    version, or, when there is none, one record for the range if there is
    a range. *)
Definition affected_packages_of (affected_version_range : option VersionRange)
           (parsed_fixed_versions : list Version) (purl : PackageURL)
  : list (AffectedPackage VersionRange Version) :=
  match parsed_fixed_versions with
  | _ :: _ =>
      extract_affected_packages affected_version_range parsed_fixed_versions purl
  | [] =>
      match affected_version_range with
      | None => []
      | Some r => [mkAffectedPackage purl (Some r) None]
      end
  end.

(** [parse_yaml_file], from the loaded YAML value on: [None] as argument
    is a value that is not a mapping. *)
Definition parse_yaml_file (loaded : option GitlabAdvisory)
  : result (option (AdvisoryData VersionRange Version datetime)) :=
  match loaded with
  | None => Return None
  | Some gitlab_advisory =>
      let aliases := identifiers gitlab_advisory in
      summary <- match title gitlab_advisory, description gitlab_advisory with
                 | Some t, Some d => Return (Py.join ". " [t; d])
                 | _, _ => Raise TypeError
                 end ;;
      references <- match urls gitlab_advisory with
                    | Some us => Return (map Reference_from_url us)
                    | None => Raise TypeError
                    end ;;
      date_published <- dateparser_parse (pubdate gitlab_advisory) ;;
      date_published <- utc_localize date_published ;;
      purl <- match package_slug gitlab_advisory with
              | Some slug => get_purl slug
              | None => Raise AttributeError
              end ;;
      match purl with
      | None =>
          Return (Some (mkAdvisoryData aliases summary references
                                       (Some date_published) []))
      | Some purl =>
          match RANGE_CLASS_BY_SCHEMES (purl_type purl),
                Py.dict_get String.eqb GITLAB_SCHEME_BY_PURL_TYPE (purl_type purl)
          with
          | Some vrc, Some gitlab_scheme =>
              let affected_version_range :=
                affected_version_range_of vrc gitlab_scheme
                                          (affected_range gitlab_advisory) in
              let parsed_fixed_versions :=
                parse_fixed_versions vrc (fixed_versions gitlab_advisory) in
              let affected_packages :=
                affected_packages_of affected_version_range
                                     parsed_fixed_versions purl in
              Return (Some (mkAdvisoryData aliases summary references
                                           (Some date_published)
                                           affected_packages))
          | _, _ => Raise KeyError
          end
      end
  end.

End Importer.

(** A generator, run to its end: the values it yielded and the exception
    that ended it, if one did. *)
Record generator (A : Type) : Type := mkGenerator {
  yielded : list A;
  raised : option exn
}.

(** [GitLabBasicImprover]: its one attribute is the dictionary of the
    fetchers made so far. *)
Record GitLabBasicImprover (VersionAPI : Type) : Type := mkGitLabBasicImprover {
  versions_fetcher_by_purl : list (PackageURL * VersionAPI)
}.

Section Improver.
Context `{U : Univers} `{D : Dates} `{PM : @PackageManagers D} `{VO : VersionOrder}.


Definition set_fetcher (self : GitLabBasicImprover VersionAPI)
           (purl : PackageURL) (fetcher : VersionAPI)
  : GitLabBasicImprover VersionAPI :=
  mkGitLabBasicImprover
    (Py.dict_set purl_eqb (versions_fetcher_by_purl self) purl fetcher).

Definition get_package_versions (self : GitLabBasicImprover VersionAPI)
           (package_url : PackageURL) (until : option datetime)
  : result (list string) * GitLabBasicImprover VersionAPI :=
  match get_api_package_name package_url with
  | None => (Return [], self)
  | Some api_name =>
      if negb (Py.truthy api_name) then (Return [], self)
      else
        let made :=
          match Py.dict_get purl_eqb (versions_fetcher_by_purl self) package_url with
          | Some versions_fetcher => Return (versions_fetcher, self)
          | None =>
              match VERSION_API_CLASSES_BY_PACKAGE_TYPE (purl_type package_url) with
              | Some fresh => Return (fresh, set_fetcher self package_url fresh)
              | None => Raise KeyError
              end
          end in
        match made with
        | Raise e => (Raise e, self)
        | Return (versions_fetcher, self) =>
            let (valid_versions, versions_fetcher) :=
              get_until versions_fetcher api_name until in
            (valid_versions, set_fetcher self package_url versions_fetcher)
        end
  end.

(** The name under which the versions of the package are reported, and
    the improver as the lookup leaves it. For a Go package the cached
    fetcher, or a new one that is then cached, is asked for the module
    name it has recorded for the package name. *)
Definition resolve_pkg_name (self : GitLabBasicImprover VersionAPI)
           (purl : PackageURL) : string * GitLabBasicImprover VersionAPI :=
  let pkg_name := purl_name purl in
  if String.eqb (purl_type purl) "golang" then
    let (versions_fetcher, self) :=
      match Py.dict_get purl_eqb (versions_fetcher_by_purl self) purl with
      | Some versions_fetcher => (versions_fetcher, self)
      | None => (GoproxyVersionAPI, set_fetcher self purl GoproxyVersionAPI)
      end in
    (match Py.dict_get String.eqb (module_name_by_package_name versions_fetcher)
                       pkg_name with
     | Some module_name => module_name
     | None => pkg_name
     end, self)
  else (pkg_name, self).

(** [d.setdefault(k, []).append(v)], as the loop over the matcher's pairs
    does it. *)
Fixpoint dict_append (d : list (option PackageURL * list PackageURL))
         (k : option PackageURL) (v : PackageURL)
  : list (option PackageURL * list PackageURL) :=
  match d with
  | [] => [(k, [v])]
  | (k', vs) :: d' =>
      if opt_purl_eqb k k' then (k', vs ++ [v]) :: d'
      else (k', vs) :: dict_append d' k v
  end.

Definition unique_patched_packages_with_affected_packages
           (affected_packages : list helpers.AffectedPackage)
  : list (option PackageURL * list PackageURL) :=
  fold_left (fun d package =>
               dict_append d (helpers.patched_package package)
                           (helpers.vulnerable_package package))
            affected_packages [].

(** One round of the loop over the affected version ranges: the
    inferences it yields. *)
Definition inferences_of_range
           (advisory_data : AdvisoryData VersionRange Version datetime)
           (pkg_type : string) (pkg_namespace : option string)
           (pkg_name : string) (valid_versions : list string)
           (affected_version_range : VersionRange) : list Inference :=
  let (aff_vers, unaff_vers) :=
    helpers.resolve_version_range affected_version_range valid_versions in
  let affected_purls :=
    map (fun version => PackageURL_of pkg_type pkg_namespace pkg_name (Some version))
        aff_vers in
  let unaffected_purls :=
    map (fun version => PackageURL_of pkg_type pkg_namespace pkg_name (Some version))
        unaff_vers in
  let affected_packages :=
    helpers.nearest_patched_package affected_purls unaffected_purls in
  map (fun item => from_advisory_data advisory_data 100 (snd item) (fst item))
      (unique_patched_packages_with_affected_packages affected_packages).

(** [get_inferences], iterated to its end. *)
Definition get_inferences (self : GitLabBasicImprover VersionAPI)
           (advisory_data : AdvisoryData VersionRange Version datetime)
  : generator Inference * GitLabBasicImprover VersionAPI :=
  match affected_packages advisory_data with
  | [] => (mkGenerator [] None, self)
  | _ :: _ =>
      match merge (affected_packages advisory_data) with
      | Raise UnMergeablePackageError => (mkGenerator [] None, self)
      | Raise e => (mkGenerator [] (Some e), self)
      | Return None => (mkGenerator [] (Some TypeError), self)
      | Return (Some (purl, affected_version_ranges, _)) =>
          let pkg_type := purl_type purl in
          let pkg_namespace := purl_namespace purl in
          let (pkg_name, self) := resolve_pkg_name self purl in
          match get_package_versions self purl (date_published advisory_data) with
          | (Raise e, self) => (mkGenerator [] (Some e), self)
          | (Return valid_versions, self) =>
              (mkGenerator
                 (flat_map (inferences_of_range advisory_data pkg_type
                                                pkg_namespace pkg_name
                                                valid_versions)
                           affected_version_ranges)
                 None, self)
          end
      end
  end.

End Improver.

(** The checkout of the advisory repository: [fetch_via_vcs(url).dest_dir],
    which raises when the clone fails; [os.path.join]; [os.walk], as the
    list of the directories below a directory, each with its files; and
    the reading of a file, [open] followed by [yaml.safe_load], either of
    which can raise. A loaded value that is not a mapping is [None]. *)
Class Checkout : Type := {
  fetch_via_vcs : string -> result string;
  os_path_join : string -> string -> string;
  os_walk : string -> list (string * list string);
  yaml_safe_load : string -> result (option GitlabAdvisory)
}.

(** What ends the generator of the importer: a clone that failed, or an
    exception that came out of a file. *)
Inductive import_error : Type :=
| ForkError (url : string)
| FileError (e : exn).

Definition gitlab_url : string :=
  "git+https://gitlab.com/gitlab-org/advisories-community/".

Definition ecosystems : list string :=
  ["nuget"; "maven"; "gem"; "npm"; "go"; "packagist"; "pypi"].

Section Repository.
Context `{PL : PackageURLs} `{U : Univers} `{D : Dates} `{R : ReferenceAPI}
        `{C : Checkout}.

Definition fork_and_get_dir (url : string) : result string :=
  fetch_via_vcs url.

(** [get_files]: every file below the directory, in the order of the
    walk. *)
Definition get_files (dir : string) : list string :=
  flat_map (fun entry => map (os_path_join (fst entry)) (snd entry))
           (os_walk dir).

(** [parse_yaml_file] with its first two lines, which read the file. *)
Definition parse_yaml_file_at (file : string)
  : result (option (AdvisoryData VersionRange Version datetime)) :=
  loaded <- yaml_safe_load file ;; parse_yaml_file loaded.

(** The two loops of [advisory_data] over the files: the values yielded
    until a file raises. *)
Fixpoint yield_files (files : list string)
  : list (option (AdvisoryData VersionRange Version datetime)) * option exn :=
  match files with
  | [] => ([], None)
  | file :: files' =>
      match parse_yaml_file_at file with
      | Raise e => ([], Some e)
      | Return item =>
          let (items, raised) := yield_files files' in (item :: items, raised)
      end
  end.

(** The files [advisory_data] goes through: those of the directories of
    the ecosystems, in the order of the list. *)
Definition advisory_files (fork_directory : string) : list string :=
  flat_map (fun ecosystem => get_files (os_path_join fork_directory ecosystem))
           ecosystems.

(** [GitLabAPIImporter.advisory_data], iterated to its end: the values it
    yields and what ended it, if it did not end by itself. *)
Definition advisory_data
  : list (option (AdvisoryData VersionRange Version datetime))
    * option import_error :=
  match fork_and_get_dir gitlab_url with
  | Raise _ => ([], Some (ForkError gitlab_url))
  | Return fork_directory =>
      let (items, raised) := yield_files (advisory_files fork_directory) in
      (items, option_map FileError raised)
  end.

End Repository.

End gitlab.

(** ** vulnerabilities.importers.postgresql *)

Module postgresql.

Import importer.

Definition BASE_URL : string := "https://www.postgresql.org/".

(** The page as [BeautifulSoup] presents it to [to_advisories]: an [a]
    element with its [href] attribute, if it has one, and its text; a [td]
    cell with its text, the texts of its [nobr] elements and its [a]
    elements; a row as the list of its cells; a table as the list of the
    rows of its body. *)
Record Anchor : Type := mkAnchor {
  href : option string;
  a_text : string
}.

Record Cell : Type := mkCell {
  cell_text : string;
  nobr : list string;
  anchors : list Anchor
}.

Definition Row : Type := list Cell.
Definition Table : Type := list Row.

(** [urllib.parse]: [urljoin], and the value of the [vector] key of the
    query of a link, [None] when the query has no such key. *)
Class UrlLib : Type := {
  urljoin : string -> string -> string;
  query_vector : string -> option (list string)
}.

(** The local variables of [to_advisories] that one round of a loop may
    leave unassigned and that keep their value from one round to the next;
    [None] is a variable that has not been bound yet. *)
Record Locals : Type := mkLocals {
  cve_id : option string;
  severities : option (list VulnerabilitySeverity)
}.

Section Importer.
Context `{PL : PackageURLs} `{VO : VersionOrder} `{UL : UrlLib}.

(** [PackageURL(type="generic", name="postgresql",
    version=version.strip(), qualifiers=pkg_qualifiers)]: the type and
    the name are there, so the constructor does not raise. *)
Definition postgresql_purl (pkg_qualifiers : list (string * string))
           (version : string) : PackageURL :=
  normalize "generic" None "postgresql" (Some (Py.strip version))
            pkg_qualifiers None.

(** The severities of a link that starts with a slash, once it is made
    absolute. *)
Definition link_severities (link : string) (vector_link_tag : option Anchor)
  : result (list VulnerabilitySeverity) :=
  match vector_link_tag with
  | Some tag =>
      if Py.contains "support/security/CVE" link then
        match href tag with
        | None => Raise KeyError
        | Some target =>
            match query_vector target with
            | None => Raise KeyError
            | Some cvss3_vector =>
                let cvss3_base_score := a_text tag in
                Return [ mkVulnerabilitySeverity "cvssv3" (SevText cvss3_base_score);
                         mkVulnerabilitySeverity "cvssv3_vector" (SevList cvss3_vector) ]
            end
        end
      else Return []
  | None => Return []
  end.

(** The loop over the links of the reference column. [severities] is
    assigned only for a link that starts with a slash; the reference of
    any other link takes the value the variable has from before. *)
Fixpoint references_of (a_tags : list Anchor) (vector_link_tag : option Anchor)
         (severities : option (list VulnerabilitySeverity))
  : result (list Reference * option (list VulnerabilitySeverity)) :=
  match a_tags with
  | [] => Return ([], severities)
  | a_tag :: a_tags' =>
      match href a_tag with
      | None => Raise KeyError
      | Some link =>
          step <- (if Py.startswith "/" link then
                     let link := urljoin BASE_URL link in
                     sevs <- link_severities link vector_link_tag ;;
                     Return (link, Some sevs)
                   else Return (link, severities)) ;;
          match snd step with
          | None => Raise UnboundLocalError
          | Some sevs =>
              rest <- references_of a_tags' vector_link_tag (snd step) ;;
              Return (mkReference "" (fst step) sevs :: fst rest, snd rest)
          end
      end
  end.

(** One round of the loop over the rows: the advisory of the row and the
    local variables as the round leaves them. *)
Definition advisory_of_row (locals : Locals) (row : Row)
  : result (Advisory * Locals) :=
  match row with
  | [ref_col; affected_col; fixed_col; severity_score_col; desc_col] =>
      let summary := cell_text desc_col in
      let pkg_qualifiers :=
        if Py.contains "windows" (Py.lower summary)
        then [("os", "windows")] else [] in
      let affected_packages :=
        map (postgresql_purl pkg_qualifiers)
            (Py.split "," (cell_text affected_col)) in
      let fixed_packages :=
        map (postgresql_purl pkg_qualifiers)
            (filter Py.truthy (Py.split "," (cell_text fixed_col))) in
      let cve_id :=
        match nobr ref_col with
        | first :: _ => Some first
        | [] => cve_id locals
        end in
      let vector_link_tag := hd_error (anchors severity_score_col) in
      refs <- references_of (anchors ref_col) vector_link_tag (severities locals) ;;
      match cve_id with
      | None => Raise UnboundLocalError
      | Some id =>
          Return (mkAdvisory id summary (fst refs)
                             (helpers.nearest_patched_package affected_packages
                                                              fixed_packages),
                  mkLocals cve_id (snd refs))
      end
  | _ => Raise ValueError
  end.

Fixpoint advisories_of_rows (locals : Locals) (rows : list Row)
  : result (list Advisory) :=
  match rows with
  | [] => Return []
  | row :: rows' =>
      step <- advisory_of_row locals row ;;
      rest <- advisories_of_rows (snd step) rows' ;;
      Return (fst step :: rest)
  end.

(** [to_advisories], from the parsed page on: the argument is the list of
    the tables of the page. *)
Definition to_advisories (tables : list Table) : result (list Advisory) :=
  match tables with
  | [] => Raise IndexError
  | table :: _ => advisories_of_rows (mkLocals None None) table
  end.

End Importer.

(** A page as the crawl reads it: its tables, for [to_advisories], and
    the [a] elements that the selector of [find_advisory_urls] matches. *)
Record Page : Type := mkPage {
  page_tables : list Table;
  page_links : list Anchor
}.

(** The network and the run time: [requests.get(url).content], parsed,
    which raises when the request fails; and the order in which a [for]
    loop goes through a set, which is some order of its elements. *)
Class Web : Type := {
  requests_get : string -> result Page;
  set_order : list string -> list string;
  set_order_perm : forall l, Permutation (set_order l) l
}.

(** Sets of URLs, kept as lists without repetition. *)
Definition set_mem (x : string) (s : list string) : bool :=
  existsb (String.eqb x) s.

(** [s.add(x)] *)
Definition set_add (s : list string) (x : string) : list string :=
  if set_mem x s then s else s ++ [x].

(** [s.update(xs)] *)
Definition set_update (s xs : list string) : list string :=
  fold_left set_add xs s.

(** [a - b] *)
Definition set_diff (a b : list string) : list string :=
  filter (fun x => negb (set_mem x b)) a.

(** [a == b] *)
Definition set_eqb (a b : list string) : bool :=
  forallb (fun x => set_mem x b) a && forallb (fun x => set_mem x a) b.

Definition root_url : string := "https://www.postgresql.org/support/security/".

(** The variables of [updated_advisories], and with them the URLs
    requested so far, in the order of the requests. *)
Record Crawl : Type := mkCrawl {
  advisories : list Advisory;
  known_urls : list string;
  visited_urls : list string;
  requested : list string
}.

Section Crawler.
Context `{PL : PackageURLs} `{VO : VersionOrder} `{UL : UrlLib} `{W : Web}.

(** [find_advisory_urls]: the set of the targets of the links, made
    absolute. A link without [href] raises [KeyError]. *)
Definition find_advisory_urls (page_data : Page) : result (list string) :=
  targets <- mapM (fun a_tag =>
                     match href a_tag with
                     | Some target => Return (urljoin BASE_URL target)
                     | None => Raise KeyError
                     end)
                  (page_links page_data) ;;
  Return (set_update [] targets).

(** The body of the [for] loop of [updated_advisories]. *)
Definition visit (state : Crawl) (url : string) : result Crawl :=
  data <- requests_get url ;;
  found <- to_advisories (page_tables data) ;;
  links <- find_advisory_urls data ;;
  Return (mkCrawl (advisories state ++ found)
                  (set_update (known_urls state) links)
                  (set_add (visited_urls state) url)
                  (requested state ++ [url])).

(** The [for] loop over the URLs not visited yet. *)
Fixpoint visit_all (state : Crawl) (urls : list string) : result Crawl :=
  match urls with
  | [] => Return state
  | url :: urls' => state' <- visit state url ;; visit_all state' urls'
  end.

(** The [while True] loop, for at most [fuel] rounds; [None] when the
    rounds are used up before the loop breaks. *)
Fixpoint crawl (fuel : nat) (state : Crawl) : option (result Crawl) :=
  match fuel with
  | O => None
  | S fuel' =>
      let unvisited_urls := set_diff (known_urls state) (visited_urls state) in
      match visit_all state (set_order unvisited_urls) with
      | Raise e => Some (Raise e)
      | Return state' =>
          if set_eqb (known_urls state') (visited_urls state')
          then Some (Return state')
          else crawl fuel' state'
      end
  end.

(** [PostgreSQLImporter.updated_advisories] up to its last line: the crawl
    from the root page. Its advisories are what the method hands to
    [batch_advisories]. *)
Definition updated_advisories (fuel : nat) : option (result Crawl) :=
  crawl fuel (mkCrawl [] [root_url] [] []).

End Crawler.

End postgresql.

(** ** A concrete ecosystem

    One instance of every collaborator, small enough to run: versions are
    dotted numbers compared component by component, a range is a list of
    comparisons that must all hold, and the Go fetcher records, as the Go
    proxy does, the module in which it found a package. The scenarios and
    the concrete runs below are evaluated in it. *)

Module scenario.

(** The normalisation of [packageurl] on ASCII text. The type is stripped
    and put in lower case. The namespace and the name lose the white
    space and the slashes around them and are put in lower case for the
    types that the library compares without case; the name of a [pypi]
    package has [-] for [_]. An empty namespace or version is none. The
    qualifiers and the subpath are kept as they are given. *)
Definition caseless_types : list string :=
  ["bitbucket"; "github"; "pypi"; "gitlab"].

(** [s.strip("/")] *)
Definition strip_slashes (s : string) : string :=
  let s := Py.drop_chars ["/"] (String.length s) s in
  Py.reverse (Py.drop_chars ["/"] (String.length s) (Py.reverse s)).

(** [s.replace("_", "-")] *)
Fixpoint dashed (s : string) : string :=
  match s with
  | EmptyString => EmptyString
  | String c r => String (if Ascii.eqb c "_" then "-"%char else c) (dashed r)
  end.

Definition normalize_name (t n : string) : string :=
  let n := strip_slashes (Py.strip n) in
  let n := if existsb (String.eqb t) caseless_types then Py.lower n else n in
  if String.eqb t "pypi" then dashed n else n.

Definition normalize_namespace (t : string) (ns : option string)
  : option string :=
  match ns with
  | None => None
  | Some ns =>
      let ns := strip_slashes (Py.strip ns) in
      let ns := if existsb (String.eqb t) caseless_types then Py.lower ns
                else ns in
      let segments :=
        filter (fun seg => Py.truthy (Py.strip seg)) (Py.split "/" ns) in
      let ns := Py.join "/" segments in
      if Py.truthy ns then Some ns else None
  end.

Definition normalize_version (v : option string) : option string :=
  match v with
  | None => None
  | Some v => let v := Py.strip v in if Py.truthy v then Some v else None
  end.

Definition normalize_fields (t : string) (ns : option string) (n : string)
           (v : option string) (q : list (string * string))
           (s : option string) : PackageURL :=
  let t := Py.lower (Py.strip t) in
  mkPackageURL t (normalize_namespace t ns) (normalize_name t n)
               (normalize_version v) q s.

Definition letter (c : ascii) : bool :=
  let n := nat_of_ascii c in Nat.leb 97 n && Nat.leb n 122.

Lemma after_space_letter (c : ascii) (r : string) :
  letter c = true ->
  Py.after_char Py.whitespace (String c r) = None /\
  Py.after_char (map Py.reverse Py.whitespace) (String c r) = None.
Proof.
  destruct c as [[] [] [] [] [] [] [] []]; intros H;
    try (vm_compute in H; discriminate H); split; reflexivity.
Qed.

Lemma drop_chars_none (chars : list string) (fuel : nat) (s : string) :
  Py.after_char chars s = None -> Py.drop_chars chars fuel s = s.
Proof. intros H. destruct fuel; simpl; [reflexivity|]. now rewrite H. Qed.

Lemma lower_letters (s : string) :
  forallb letter (list_ascii_of_string s) = true -> Py.lower s = s.
Proof.
  induction s as [|c s IH]; simpl; [reflexivity|].
  intros H. apply andb_prop in H as [Hc Hs]. rewrite (IH Hs). f_equal.
  unfold letter in Hc. unfold Py.lower_ascii.
  apply andb_prop in Hc as [Hlo _]. apply Nat.leb_le in Hlo.
  destruct (Nat.leb (nat_of_ascii c) 90) eqn:Hhi.
  - apply Nat.leb_le in Hhi. lia.
  - now rewrite andb_false_r.
Qed.

Lemma reverse_reverse (s : string) : Py.reverse (Py.reverse s) = s.
Proof.
  unfold Py.reverse.
  now rewrite list_ascii_of_string_of_list_ascii, rev_involutive,
    string_of_list_ascii_of_string.
Qed.

Lemma strip_letters (s : string) :
  forallb letter (list_ascii_of_string s) = true -> Py.strip s = s.
Proof.
  intros H. unfold Py.strip.
  assert (Hl : Py.lstrip s = s).
  { unfold Py.lstrip. apply drop_chars_none.
    destruct s as [|c r]; [reflexivity|]. simpl in H.
    apply andb_prop in H as [Hc _].
    exact (proj1 (after_space_letter c r Hc)). }
  rewrite Hl. unfold Py.rstrip.
  rewrite drop_chars_none; [apply reverse_reverse|].
  unfold Py.reverse.
  assert (Hrev : forallb letter (rev (list_ascii_of_string s)) = true).
  { apply forallb_forall. intros c Hc. apply in_rev in Hc.
    revert c Hc. now apply forallb_forall. }
  destruct (rev (list_ascii_of_string s)) as [|c l]; [reflexivity|].
  simpl in Hrev. apply andb_prop in Hrev as [Hc _].
  exact (proj2 (after_space_letter c (string_of_list_ascii l) Hc)).
Qed.

Lemma normalize_fields_type t ns n v q s :
  Py.lower_case_word t = true -> purl_type (normalize_fields t ns n v q s) = t.
Proof.
  unfold Py.lower_case_word. intros H. apply andb_prop in H as [_ H].
  unfold normalize_fields. cbn [purl_type].
  change (forallb letter (list_ascii_of_string t) = true) in H.
  rewrite (strip_letters _ H). now apply lower_letters.
Qed.

#[export] Instance purls : PackageURLs := {|
  normalize := normalize_fields;
  normalize_type := normalize_fields_type;
  normalize_no_version := fun t ns n q s => eq_refl
|}.

Definition digit_of (c : ascii) : option nat :=
  let n := nat_of_ascii c in
  if Nat.leb 48 n && Nat.leb n 57 then Some (n - 48) else None.

(** The number spelled by the digits of a component; other characters
    are passed over. *)
Fixpoint number_of (acc : nat) (s : string) : nat :=
  match s with
  | EmptyString => acc
  | String c r =>
      match digit_of c with
      | Some d => number_of (10 * acc + d) r
      | None => number_of acc r
      end
  end.

Definition components (s : string) : list nat :=
  map (number_of 0) (Py.split "." s).

Fixpoint lex_leb (a b : list nat) : bool :=
  match a, b with
  | [], _ => true
  | _ :: _, [] => false
  | x :: a', y :: b' =>
      if x <? y then true else if y <? x then false else lex_leb a' b'
  end.

Definition dotted_leb (a b : string) : bool :=
  lex_leb (components a) (components b).

Lemma lex_leb_total (a b : list nat) : lex_leb a b = true \/ lex_leb b a = true.
Proof.
  revert b; induction a as [|x a IH]; intros [|y b]; simpl; auto.
  destruct (x <? y) eqn:Hxy; auto.
  destruct (y <? x) eqn:Hyx; auto.
Qed.

Lemma lex_leb_trans (a b c : list nat) :
  lex_leb a b = true -> lex_leb b c = true -> lex_leb a c = true.
Proof.
  revert b c; induction a as [|x a IH]; intros [|y b] [|z c]; simpl; auto;
    try discriminate.
  destruct (x <? y) eqn:Hxy, (y <? x) eqn:Hyx, (y <? z) eqn:Hyz,
           (z <? y) eqn:Hzy, (x <? z) eqn:Hxz, (z <? x) eqn:Hzx;
    try discriminate; auto;
    repeat match goal with
           | H : (_ <? _) = true |- _ => apply Nat.ltb_lt in H
           | H : (_ <? _) = false |- _ => apply Nat.ltb_ge in H
           end; try lia.
  apply IH.
Qed.

#[export] Instance dotted_order : VersionOrder := {|
  vleb := dotted_leb;
  vleb_total := fun a b => lex_leb_total (components a) (components b);
  vleb_trans := fun a b c => lex_leb_trans (components a) (components b)
                                           (components c)
|}.

Inductive comparator : Type := LT | LE | GT | GE | EQ.

Definition satisfies (v : string) (c : comparator * string) : bool :=
  match fst c with
  | LT => vltb v (snd c)
  | LE => vleb v (snd c)
  | GT => vltb (snd c) v
  | GE => vleb (snd c) v
  | EQ => veqb v (snd c)
  end.

Definition drop (n : nat) (s : string) : string :=
  String.substring n (String.length s - n) s.

(** One comparison: an operator and a version, such as [<1.0.2]. Text
    without an operator does not parse. *)
Definition parse_constraint (s : string) : result (comparator * string) :=
  let s := Py.strip s in
  if String.prefix "<=" s then Return (LE, drop 2 s)
  else if String.prefix ">=" s then Return (GE, drop 2 s)
  else if String.prefix "<" s then Return (LT, drop 1 s)
  else if String.prefix ">" s then Return (GT, drop 1 s)
  else if String.prefix "=" s then Return (EQ, drop 1 s)
  else Raise ValueError.

Definition parse_range (s : string) : result (list (comparator * string)) :=
  mapM parse_constraint (Py.split "," s).

(** A version parses when it has a digit. *)
Definition parse_version (s : string) : result string :=
  if existsb (fun c => match digit_of c with Some _ => true | None => false end)
             (list_ascii_of_string s)
  then Return s else Raise ValueError.

Definition range_class : RangeClass (list (comparator * string)) string :=
  {| from_native := parse_range; version_class := parse_version |}.

#[export] Instance univers : Univers := {|
  VersionRange := list (comparator * string);
  Version := string;
  range_contains := fun r v => forallb (satisfies v) r;
  single_version_range := fun v => [(EQ, v)];
  from_gitlab_native := fun _ s => parse_range s;
  RANGE_CLASS_BY_SCHEMES := fun t =>
    if existsb (String.eqb t) (map snd gitlab.PURL_TYPE_BY_GITLAB_SCHEME)
    then Some range_class else None
|}.

#[export] Instance dates : Dates := {|
  datetime := string;
  dateparser_parse := fun o =>
    match o with Some s => Return s | None => Raise TypeError end;
  utc_localize := fun d => Return d
|}.

#[export] Instance reference_api : importer.ReferenceAPI := {|
  importer.Reference_from_url := fun u => importer.mkReference "" u []
|}.

(** The module of a Go package: its first three path segments. *)
Definition module_of (package_name : string) : string :=
  Py.join "/" (firstn 3 (Py.split "/" package_name)).

Definition released (package_name : string) : list string :=
  if String.eqb package_name "unpublished" then []
  else ["1.0.0"; "1.0.1"; "1.0.2"].

(** A fetcher is the module names it has recorded. Fetching the versions
    of a package records the module of the package. *)
#[export] Instance package_managers : PackageManagers := {|
  VersionAPI := list (string * string);
  GoproxyVersionAPI := [];
  VERSION_API_CLASSES_BY_PACKAGE_TYPE := fun t =>
    if existsb (String.eqb t) (map snd gitlab.PURL_TYPE_BY_GITLAB_SCHEME)
    then Some [] else None;
  module_name_by_package_name := fun f => f;
  get_api_package_name := fun p =>
    match purl_namespace p with
    | Some ns => Some (Py.join "/" [ns; purl_name p])
    | None => Some (purl_name p)
    end;
  get_until := fun f n _ =>
    (Return (released n), Py.dict_set String.eqb f n (module_of n))
|}.

Definition find_vector (s : string) : option (list string) :=
  match String.index 0 "vector=" s with
  | Some i => Some [drop (i + 7) s]
  | None => None
  end.

#[export] Instance url_lib : postgresql.UrlLib := {|
  postgresql.urljoin := fun base link => String.append base (drop 1 link);
  postgresql.query_vector := find_vector
|}.

(** The advisory file of the docstring of [parse_yaml_file]. *)
Definition sample_file : gitlab.GitlabAdvisory :=
  gitlab.mkGitlabAdvisory
    (Some ["GMS-2018-26"])
    (Some "Incorrect header injection check")
    (Some "amphp/http isn't properly protected against HTTP header injection.")
    (Some ["https://github.com/amphp/http/pull/4"])
    (Some "2018-03-15")
    (Some ["v1.0.1"])
    (Some "<1.0.1")
    (Some "packagist/amphp/http").

(** The same file with another range or another package slug. *)
Definition sample_with_range (range : option string) : gitlab.GitlabAdvisory :=
  gitlab.mkGitlabAdvisory
    (gitlab.identifiers sample_file) (gitlab.title sample_file)
    (gitlab.description sample_file) (gitlab.urls sample_file)
    (gitlab.pubdate sample_file) (gitlab.fixed_versions sample_file)
    range (gitlab.package_slug sample_file).

Definition sample_with_slug (slug : string) : gitlab.GitlabAdvisory :=
  gitlab.mkGitlabAdvisory
    (gitlab.identifiers sample_file) (gitlab.title sample_file)
    (gitlab.description sample_file) (gitlab.urls sample_file)
    (gitlab.pubdate sample_file) (gitlab.fixed_versions sample_file)
    (gitlab.affected_range sample_file) (Some slug).

(** An advisory of one package with the given affected ranges. *)
Definition advisory_of (purl : PackageURL)
           (ranges : list (list (comparator * string))) : importer.AdvisoryData VersionRange Version datetime :=
  importer.mkAdvisoryData
    (Some ["GMS-2018-26"]) "Incorrect header injection check"
    [importer.mkReference "" "https://github.com/amphp/http/pull/4" []]
    (Some "2018-03-15")
    (map (fun r => importer.mkAffectedPackage purl (Some r) None) ranges).

Definition amphp_http : PackageURL :=
  PackageURL_of "composer" (Some "amphp") "http" None.

(** The scenario of the spec: of the versions 1.0.0, 1.0.1 and 1.0.2, the
    range [<1.0.2] holds the first two. *)
Definition one_range_advisory : importer.AdvisoryData VersionRange Version datetime :=
  advisory_of amphp_http [[(LT, "1.0.2")]].

(** Two ranges of one package that share the version 1.0.0. *)
Definition two_range_advisory : importer.AdvisoryData VersionRange Version datetime :=
  advisory_of amphp_http [[(LT, "1.0.1")]; [(LT, "1.0.2")]].

(** A range that holds every released version: none of them is fixed. *)
Definition unfixed_advisory : importer.AdvisoryData VersionRange Version datetime :=
  advisory_of amphp_http [[(GE, "1.0.0")]].

(** A package without a released version. *)
Definition unpublished_advisory : importer.AdvisoryData VersionRange Version datetime :=
  advisory_of (PackageURL_of "pypi" None "unpublished" None) [[(LT, "1.0.2")]].

(** Records of two packages, [foo] and [bar], in one advisory. *)
Definition foo_bar_advisory : importer.AdvisoryData VersionRange Version datetime :=
  importer.mkAdvisoryData
    (Some ["GMS-2018-26"]) "Incorrect header injection check" []
    (Some "2018-03-15")
    [ importer.mkAffectedPackage (PackageURL_of "pypi" None "foo" None)
                                 (Some [(LT, "1.0.2")]) None;
      importer.mkAffectedPackage (PackageURL_of "pypi" None "bar" None)
                                 (Some [(LT, "1.0.2")]) None ].

(** A Go package that lies below the root of its module. *)
Definition go_advisory : importer.AdvisoryData VersionRange Version datetime :=
  advisory_of (PackageURL_of "golang" None "github.com/foo/bar/sub" None)
              [[(LT, "1.0.2")]].

(** An improver that has made no fetcher yet. *)
Definition new_improver : gitlab.GitLabBasicImprover VersionAPI :=
  gitlab.mkGitLabBasicImprover [].

(** Two rows of a PostgreSQL security page: one with its CVE id in a
    [nobr] element, and one, as the last row of the page of release 8.1,
    without. *)
Definition text_cell (text : string) : postgresql.Cell :=
  postgresql.mkCell text [] [].

Definition row_with_id : postgresql.Row :=
  [ postgresql.mkCell "CVE-2019-10164" ["CVE-2019-10164"]
      [postgresql.mkAnchor (Some "/support/security/CVE-2019-10164/")
                           "CVE-2019-10164"];
    text_cell "11, 10";
    text_cell "11.4, 10.9";
    postgresql.mkCell "7.5" []
      [postgresql.mkAnchor
         (Some "https://nvd.nist.gov/vuln-metrics/cvss/v3-calculator?vector=AV:N/AC:L")
         "7.5"];
    text_cell "Stack-based buffer overflow via setting a password" ].

Definition row_without_id : postgresql.Row :=
  [ text_cell ""; text_cell "8.1"; text_cell "8.1.22"; text_cell "";
    text_cell "Windows only: a local user can gain privileges" ].

(** A checkout with one file for NuGet and two for npm, the first of
    which has a slug of an unknown scheme. *)
Definition checkout_files (dir : string) : list (string * list string) :=
  if String.eqb dir "/checkout/nuget" then [(dir, ["a.yml"])]
  else if String.eqb dir "/checkout/npm" then [(dir, ["b.yml"; "c.yml"])]
  else [].

Definition checkout_file (file : string)
  : result (option gitlab.GitlabAdvisory) :=
  if String.eqb file "/checkout/nuget/a.yml"
  then Return (Some (sample_with_slug "nuget/NuGet.Core"))
  else if String.eqb file "/checkout/npm/b.yml"
  then Return (Some (sample_with_slug "conan/foo"))
  else if String.eqb file "/checkout/npm/c.yml"
  then Return (Some (sample_with_slug "npm/lodash"))
  else Raise OtherError.

#[export] Instance checkout : gitlab.Checkout := {|
  gitlab.fetch_via_vcs := fun _ => Return "/checkout";
  gitlab.os_path_join := fun a b => Py.join "/" [a; b];
  gitlab.os_walk := checkout_files;
  gitlab.yaml_safe_load := checkout_file
|}.

(** A site of two pages that link to each other. A loop over a set goes
    through it from its last element to its first. *)
Definition release_url : string :=
  "https://www.postgresql.org/support/security/11/".

Definition site_page (url : string) : result postgresql.Page :=
  if String.eqb url postgresql.root_url
  then Return (postgresql.mkPage
                 [[row_with_id]]
                 [postgresql.mkAnchor (Some "/support/security/11/") "11";
                  postgresql.mkAnchor (Some "/support/security/") "all"])
  else if String.eqb url release_url
  then Return (postgresql.mkPage
                 [[row_with_id; row_without_id]]
                 [postgresql.mkAnchor (Some "/support/security/") "all"])
  else Raise OtherError.

Lemma rev_perm (l : list string) : Permutation (rev l) l.
Proof. symmetry. apply Permutation_rev. Qed.

#[export] Instance web : postgresql.Web := {|
  postgresql.requests_get := site_page;
  postgresql.set_order := @rev string;
  postgresql.set_order_perm := rev_perm
|}.

End scenario.

(** * Properties *)

(** ** The nearest-patched matcher *)

Section MatcherFacts.
Context `{VO : VersionOrder}.

Definition version_le (a b : PackageURL) : Prop :=
  vleb (version_of a) (version_of b) = true.

Lemma vleb_refl (a : string) : vleb a a = true.
Proof. destruct (vleb_total a a); assumption. Qed.

Lemma vltb_false_iff (a b : string) : vltb a b = false <-> vleb b a = true.
Proof. unfold vltb. destruct (vleb b a); simpl; split; congruence. Qed.

Lemma vltb_true_iff (a b : string) : vltb a b = true <-> vleb b a = false.
Proof. unfold vltb. destruct (vleb b a); simpl; split; congruence. Qed.

(** [a < b <= c] gives [a < c]. *)
Lemma vltb_vleb_trans (a b c : string) :
  vltb a b = true -> vleb b c = true -> vltb a c = true.
Proof.
  rewrite !vltb_true_iff. intros Hba Hbc.
  destruct (vleb c a) eqn:Hca; [|reflexivity].
  rewrite (vleb_trans _ _ _ Hbc Hca) in Hba. discriminate.
Qed.

Lemma veqb_true_iff (a b : string) :
  veqb a b = true <-> vleb a b = true /\ vleb b a = true.
Proof. unfold veqb. apply andb_true_iff. Qed.

Lemma insert_by_version_perm (p : PackageURL) (l : list PackageURL) :
  Permutation (helpers.insert_by_version p l) (p :: l).
Proof.
  induction l as [|q l IH]; simpl.
  - reflexivity.
  - destruct (vleb (version_of p) (version_of q)).
    + reflexivity.
    + rewrite IH. apply perm_swap.
Qed.

Lemma sort_by_version_perm (l : list PackageURL) :
  Permutation (helpers.sort_by_version l) l.
Proof.
  induction l as [|p l IH]; simpl.
  - reflexivity.
  - rewrite insert_by_version_perm. now constructor.
Qed.

Lemma insert_by_version_sorted (p : PackageURL) (l : list PackageURL) :
  StronglySorted version_le l ->
  StronglySorted version_le (helpers.insert_by_version p l).
Proof.
  induction 1 as [|q l Hl IH Hq]; simpl.
  - repeat constructor.
  - destruct (vleb (version_of p) (version_of q)) eqn:Hpq.
    + constructor.
      * now constructor.
      * constructor; [exact Hpq|].
        eapply Forall_impl; [|exact Hq].
        intros r Hr. unfold version_le in *. eapply vleb_trans; eassumption.
    + constructor; [exact IH|].
      eapply Permutation_Forall.
      * symmetry. apply insert_by_version_perm.
      * constructor; [|exact Hq].
        unfold version_le. destruct (vleb_total (version_of p) (version_of q));
          congruence.
Qed.

Lemma sort_by_version_sorted (l : list PackageURL) :
  StronglySorted version_le (helpers.sort_by_version l).
Proof.
  induction l as [|p l IH]; simpl.
  - constructor.
  - now apply insert_by_version_sorted.
Qed.

(** In a sorted list the entry at a smaller index has the smaller version. *)
Lemma sorted_nth_le (l : list PackageURL) :
  StronglySorted version_le l ->
  forall i j a b, i <= j ->
    nth_error l i = Some a -> nth_error l j = Some b -> version_le a b.
Proof.
  induction 1 as [|q l Hl IH Hq]; intros i j a b Hij Ha Hb.
  - destruct i; discriminate.
  - destruct i as [|i], j as [|j]; simpl in *.
    + injection Ha as <-. injection Hb as <-. apply vleb_refl.
    + injection Ha as <-. rewrite Forall_forall in Hq.
      apply Hq. eapply nth_error_In; eassumption.
    + lia.
    + eapply IH; [|eassumption|eassumption]. lia.
Qed.

Lemma dedup_versions_incl (l : list PackageURL) (p : PackageURL) :
  In p (helpers.dedup_versions l) -> In p l.
Proof.
  induction l as [|q l IH]; simpl; [tauto|].
  destruct (existsb _ l); simpl; intuition.
Qed.

(** Every package keeps a representative of its version. *)
Lemma dedup_versions_complete (l : list PackageURL) :
  forall r, In r l ->
  exists q, In q (helpers.dedup_versions l) /\
            veqb (version_of r) (version_of q) = true.
Proof.
  induction l as [|p l IH]; simpl; [tauto|].
  intros r [->|Hr].
  - destruct (existsb _ l) eqn:Hex.
    + apply existsb_exists in Hex as (q' & Hq' & Heq).
      destruct (IH _ Hq') as (q & Hq & Heq').
      exists q. split; [exact Hq|].
      apply veqb_true_iff in Heq as [H1 H2].
      apply veqb_true_iff in Heq' as [H3 H4].
      apply veqb_true_iff. split; eapply vleb_trans; eassumption.
    + exists r. split; [now left|].
      apply veqb_true_iff. split; apply vleb_refl.
  - destruct (IH _ Hr) as (q & Hq & Heq).
    exists q. split; [|exact Heq].
    destruct (existsb _ l); simpl; auto.
Qed.

(** After the removal no two entries have the same version. *)
Lemma dedup_versions_distinct (l : list PackageURL) :
  ForallOrdPairs (fun a b => veqb (version_of a) (version_of b) = false)
                 (helpers.dedup_versions l).
Proof.
  induction l as [|p l IH]; simpl; [constructor|].
  destruct (existsb _ l) eqn:Hex; [exact IH|].
  constructor; [|exact IH].
  apply Forall_forall. intros q Hq.
  apply dedup_versions_incl in Hq.
  destruct (veqb (version_of p) (version_of q)) eqn:Heq; [|reflexivity].
  assert (existsb (fun q => veqb (version_of p) (version_of q)) l = true)
    by (apply existsb_exists; eauto).
  congruence.
Qed.

(** The binary search on a sorted list. While it runs, every entry below
    [lo] is at most [x] and every entry from [hi] on is above [x]; it ends
    at the index that separates the two. *)
Lemma bisect_right_loop_spec (a : list PackageURL) (x : PackageURL) :
  StronglySorted version_le a ->
  forall fuel lo hi,
    hi - lo <= fuel -> lo <= hi -> hi <= List.length a ->
    (forall j am, j < lo -> nth_error a j = Some am ->
                  vltb (version_of x) (version_of am) = false) ->
    (forall j am, hi <= j -> nth_error a j = Some am ->
                  vltb (version_of x) (version_of am) = true) ->
    let i := helpers.bisect_right_loop fuel a x lo hi in
    (forall j am, j < i -> nth_error a j = Some am ->
                  vltb (version_of x) (version_of am) = false) /\
    (forall j am, i <= j -> nth_error a j = Some am ->
                  vltb (version_of x) (version_of am) = true).
Proof.
  intros Hsorted.
  induction fuel as [|fuel IH]; intros lo hi Hfuel Hlo Hhi Hbelow Habove;
    cbn [helpers.bisect_right_loop]; cbv zeta.
  - assert (lo = hi) by lia. subst hi. split; assumption.
  - destruct (lo <? hi) eqn:Hlt.
    2:{ apply Nat.ltb_ge in Hlt. assert (lo = hi) by lia. subst hi.
        split; assumption. }
    apply Nat.ltb_lt in Hlt.
    assert (Hmid : lo <= (lo + hi) / 2 < hi).
    { split.
      - apply Nat.div_le_lower_bound; lia.
      - apply Nat.Div0.div_lt_upper_bound; lia. }
    destruct (nth_error a ((lo + hi) / 2)) as [am|] eqn:Ham.
    2:{ apply nth_error_None in Ham. lia. }
    destruct (vltb (version_of x) (version_of am)) eqn:Hcmp.
    + apply IH; try lia; [exact Hbelow|].
      intros j aj Hj Haj.
      eapply vltb_vleb_trans; [exact Hcmp|].
      eapply (sorted_nth_le Hsorted); [exact Hj|exact Ham|exact Haj].
    + apply IH; try lia; [|exact Habove].
      intros j aj Hj Haj.
      apply vltb_false_iff. apply vltb_false_iff in Hcmp.
      eapply vleb_trans; [|exact Hcmp].
      eapply (sorted_nth_le Hsorted); [|exact Haj|exact Ham]. lia.
Qed.

Lemma bisect_right_spec (a : list PackageURL) (x : PackageURL) :
  StronglySorted version_le a ->
  (forall j am, j < helpers.bisect_right a x -> nth_error a j = Some am ->
                vltb (version_of x) (version_of am) = false) /\
  (forall j am, helpers.bisect_right a x <= j -> nth_error a j = Some am ->
                vltb (version_of x) (version_of am) = true).
Proof.
  intros Hsorted. unfold helpers.bisect_right.
  apply bisect_right_loop_spec; try assumption; try lia.
  - intros j am Hj Ham.
    assert (Hsome : nth_error a j <> None) by congruence.
    apply nth_error_Some in Hsome. lia.
Qed.

(** What the matcher pairs a vulnerable package [v] with, given the
    resolved packages [R]: a package of [R] above [v] that no package of
    [R] above [v] is below, or nothing when no package of [R] is above
    [v]. *)
Definition nearest_fix (R : list PackageURL) (v : PackageURL)
           (patched : option PackageURL) : Prop :=
  match patched with
  | Some p =>
      In p R /\
      vltb (version_of v) (version_of p) = true /\
      forall r, In r R -> vltb (version_of v) (version_of r) = true ->
                vleb (version_of p) (version_of r) = true
  | None =>
      forall r, In r R -> vltb (version_of v) (version_of r) = false
  end.

Lemma nearest_fix_found (R : list PackageURL) (v : PackageURL) :
  let resolved := helpers.sort_by_version (helpers.dedup_versions R) in
  nearest_fix R v (nth_error resolved (helpers.bisect_right resolved v)).
Proof.
  intros resolved.
  assert (Hsorted : StronglySorted version_le resolved)
    by apply sort_by_version_sorted.
  destruct (bisect_right_spec v Hsorted) as [Hbelow Habove].
  assert (Hrepr : forall r, In r R ->
            exists j q, nth_error resolved j = Some q /\
                        veqb (version_of r) (version_of q) = true).
  { intros r Hr.
    destruct (dedup_versions_complete _ _ Hr) as (q & Hq & Heq).
    assert (Hq' : In q resolved).
    { eapply Permutation_in; [symmetry; apply sort_by_version_perm|exact Hq]. }
    apply In_nth_error in Hq' as [j Hj]. eauto. }
  destruct (nth_error resolved (helpers.bisect_right resolved v)) as [p|] eqn:Hp;
    simpl.
  - split; [|split].
    + apply dedup_versions_incl.
      eapply Permutation_in; [apply sort_by_version_perm|].
      eapply nth_error_In; exact Hp.
    + eapply Habove; [|exact Hp]. lia.
    + intros r Hr Hvr.
      destruct (Hrepr r Hr) as (j & q & Hj & Heq).
      apply veqb_true_iff in Heq as [Hrq Hqr].
      assert (Hvq : vltb (version_of v) (version_of q) = true)
        by (eapply vltb_vleb_trans; eassumption).
      destruct (Nat.lt_ge_cases j (helpers.bisect_right resolved v)) as [Hlt|Hge].
      * rewrite (Hbelow _ _ Hlt Hj) in Hvq. discriminate.
      * eapply vleb_trans; [|exact Hqr].
        eapply (sorted_nth_le Hsorted); [exact Hge|exact Hp|exact Hj].
  - intros r Hr.
    destruct (Hrepr r Hr) as (j & q & Hj & Heq).
    apply veqb_true_iff in Heq as [Hrq Hqr].
    apply nth_error_None in Hp.
    assert (Hjlen : j < List.length resolved).
    { apply nth_error_Some. congruence. }
    assert (Hvq : vltb (version_of v) (version_of q) = false).
    { eapply Hbelow; [|exact Hj]. lia. }
    apply vltb_false_iff. apply vltb_false_iff in Hvq.
    eapply vleb_trans; eassumption.
Qed.

(** C1. For all lists V of vulnerable packages and R of resolved packages,
    [nearest_patched_package] returns one pair per element of V, in the
    order of V. The package paired with a vulnerable package is an element
    of R with a strictly greater version that is minimal among the
    elements of R with a strictly greater version; a vulnerable package
    that no element of R exceeds is paired with no package, and so is
    every vulnerable package when R is empty. *)
Theorem nearest_patched_package_minimal_fix (V R : list PackageURL) :
  map helpers.vulnerable_package (helpers.nearest_patched_package V R) = V /\
  List.length (helpers.nearest_patched_package V R) = List.length V /\
  Forall (fun pair => nearest_fix R (helpers.vulnerable_package pair)
                                  (helpers.patched_package pair))
         (helpers.nearest_patched_package V R) /\
  (R = [] ->
   Forall (fun pair => helpers.patched_package pair = None)
          (helpers.nearest_patched_package V R)).
Proof.
  unfold helpers.nearest_patched_package.
  split; [|split; [|split]].
  - rewrite map_map. simpl. apply map_id.
  - apply length_map.
  - apply Forall_forall. intros pair Hpair.
    apply in_map_iff in Hpair as (v & <- & _). simpl.
    apply nearest_fix_found.
  - intros ->. apply Forall_forall. intros pair Hpair.
    apply in_map_iff in Hpair as (v & <- & _). simpl.
    destruct (helpers.bisect_right [] v); reflexivity.
Qed.

End MatcherFacts.

(** The matcher on the scenarios of the tests: a resolved version above
    all vulnerable ones patches each of them, the nearest of several
    resolved versions is chosen, and without a resolved version above it
    a vulnerable version has no patch. *)
Section MatcherScenarios.
Existing Instance scenario.dotted_order.

Example nearest_patched_package_tomcat :
  let tomcat := PackageURL_of "maven" (Some "apache") "tomcat" in
  map (fun pair => (version_of (helpers.vulnerable_package pair),
                    option_map version_of (helpers.patched_package pair)))
      (helpers.nearest_patched_package
         [tomcat (Some "8.0.0.M1"); tomcat (Some "9.0.0.M1"); tomcat (Some "9.0.0.M2")]
         [tomcat (Some "10.0.0"); tomcat (Some "9.0.0.M3"); tomcat (Some "9.0.0.M3")])
  = [("8.0.0.M1", Some "9.0.0.M3"); ("9.0.0.M1", Some "9.0.0.M3");
     ("9.0.0.M2", Some "9.0.0.M3")].
Proof. vm_compute. reflexivity. Qed.

Example nearest_patched_package_no_fix :
  let bash := PackageURL_of "rpm" (Some "redhat") "bash" in
  map helpers.patched_package
      (helpers.nearest_patched_package
         [bash (Some "4.1.2"); bash (Some "4.2.46")] [bash (Some "4.2.0")])
  = [Some (bash (Some "4.2.0")); None].
Proof. vm_compute. reflexivity. Qed.

End MatcherScenarios.

(** ** Grouping by patched package *)

Lemma opt_purl_eqb_eq (a b : option PackageURL) :
  opt_purl_eqb a b = true <-> a = b.
Proof.
  unfold opt_purl_eqb. destruct (opt_purl_eq_dec a b); split; congruence.
Qed.

Lemma opt_purl_eqb_neq (a b : option PackageURL) :
  opt_purl_eqb a b = false <-> a <> b.
Proof.
  unfold opt_purl_eqb. destruct (opt_purl_eq_dec a b); split; congruence.
Qed.

(** The vulnerable packages that the pairs map to the key [k], in the
    order of the pairs. *)
Definition vulnerable_of_fix (pairs : list helpers.AffectedPackage)
           (k : option PackageURL) : list PackageURL :=
  map helpers.vulnerable_package
      (filter (fun pair => opt_purl_eqb (helpers.patched_package pair) k) pairs).

(** The dictionary [d] is the grouping of the pairs [pre]: its keys are
    distinct, they are the patched packages of the pairs, and the entry of
    a key holds the vulnerable packages mapped to it. *)
Definition groups_of (pre : list helpers.AffectedPackage)
           (d : list (option PackageURL * list PackageURL)) : Prop :=
  NoDup (map fst d) /\
  (forall k, In k (map fst d) <-> In k (map helpers.patched_package pre)) /\
  (forall k vs, In (k, vs) d -> vs = vulnerable_of_fix pre k).

Section Grouping.

Lemma dict_append_keys (d : list (option PackageURL * list PackageURL)) k v :
  map fst (gitlab.dict_append d k v) =
  if in_dec opt_purl_eq_dec k (map fst d) then map fst d else map fst d ++ [k].
Proof.
  induction d as [|[k' vs] d IH]; simpl; [reflexivity|].
  destruct (opt_purl_eqb k k') eqn:Hk.
  - apply opt_purl_eqb_eq in Hk. subst k'.
    destruct (opt_purl_eq_dec k k); [reflexivity|congruence].
  - apply opt_purl_eqb_neq in Hk. simpl. rewrite IH.
    destruct (opt_purl_eq_dec k' k); [congruence|].
    destruct (in_dec opt_purl_eq_dec k (map fst d)); reflexivity.
Qed.

(** An entry of the dictionary after [dict_append d k v]: an entry of
    another key is as before, and the entry of [k] is the old one with
    [v] at its end, or [[v]] for a new key. *)
Lemma dict_append_entry (d : list (option PackageURL * list PackageURL)) k v k' vs' :
  NoDup (map fst d) ->
  In (k', vs') (gitlab.dict_append d k v) ->
  (k' <> k /\ In (k', vs') d) \/
  (k' = k /\ ((~ In k (map fst d) /\ vs' = [v]) \/
              exists vs, In (k, vs) d /\ vs' = vs ++ [v])).
Proof.
  induction d as [|[k0 vs0] d IH]; simpl; intros Hnd.
  - intros [H|[]]. injection H as <- <-. right. split; [reflexivity|].
    left. split; [tauto|reflexivity].
  - inversion Hnd as [|? ? Hk0 Hnd']; subst.
    destruct (opt_purl_eqb k k0) eqn:Hk.
    + apply opt_purl_eqb_eq in Hk. subst k0.
      intros [H|H].
      * injection H as <- <-. right. split; [reflexivity|].
        right. exists vs0. split; [now left|reflexivity].
      * left. split; [|now right].
        intros ->. apply Hk0. apply (in_map fst) in H. exact H.
    + apply opt_purl_eqb_neq in Hk.
      intros [H|H].
      * injection H as <- <-. left. split; [congruence|now left].
      * destruct (IH Hnd' H) as [[Hne Hin]|[-> [[Hnew ->]|(vs & Hin & ->)]]].
        -- left. split; [exact Hne|now right].
        -- right. split; [reflexivity|]. left. split; [|reflexivity].
           intros [Heq|Hin]; [congruence|tauto].
        -- right. split; [reflexivity|]. right. exists vs.
           split; [now right|reflexivity].
Qed.

Lemma vulnerable_of_fix_snoc pre p k :
  vulnerable_of_fix (pre ++ [p]) k =
  vulnerable_of_fix pre k ++
  (if opt_purl_eqb (helpers.patched_package p) k
   then [helpers.vulnerable_package p] else []).
Proof.
  unfold vulnerable_of_fix. rewrite filter_app, map_app. simpl.
  destruct (opt_purl_eqb (helpers.patched_package p) k); reflexivity.
Qed.

Lemma vulnerable_of_fix_absent pre k :
  ~ In k (map helpers.patched_package pre) -> vulnerable_of_fix pre k = [].
Proof.
  unfold vulnerable_of_fix. induction pre as [|p pre IH]; simpl; [reflexivity|].
  intros Hk.
  destruct (opt_purl_eqb (helpers.patched_package p) k) eqn:Hp.
  - apply opt_purl_eqb_eq in Hp. tauto.
  - apply IH. tauto.
Qed.

Lemma groups_of_step pre d p :
  groups_of pre d ->
  groups_of (pre ++ [p])
            (gitlab.dict_append d (helpers.patched_package p)
                                (helpers.vulnerable_package p)).
Proof.
  intros (Hnd & Hkeys & Hent).
  split; [|split].
  - rewrite dict_append_keys.
    destruct (in_dec _ _ _) as [Hin|Hnin]; [exact Hnd|].
    eapply Permutation_NoDup; [apply Permutation_cons_append|].
    now constructor.
  - intros k. rewrite dict_append_keys, map_app, in_app_iff. simpl.
    destruct (in_dec _ _ _) as [Hin|Hnin].
    + rewrite Hkeys. split; [tauto|].
      intros [H|[<-|[]]]; [exact H|]. now apply Hkeys.
    + rewrite in_app_iff, Hkeys. simpl. tauto.
  - intros k vs Hin. rewrite vulnerable_of_fix_snoc.
    destruct (@dict_append_entry _ _ _ _ _ Hnd Hin)
      as [[Hne Hold]|[-> [[Hnew ->]|(vs0 & Hold & ->)]]].
    + destruct (opt_purl_eqb (helpers.patched_package p) k) eqn:Hp.
      * apply opt_purl_eqb_eq in Hp. congruence.
      * rewrite app_nil_r. now apply Hent.
    + rewrite vulnerable_of_fix_absent by (now rewrite <- Hkeys).
      destruct (opt_purl_eqb _ _) eqn:Hp; [reflexivity|].
      apply opt_purl_eqb_neq in Hp. congruence.
    + rewrite <- (Hent _ _ Hold).
      destruct (opt_purl_eqb _ _) eqn:Hp; [reflexivity|].
      apply opt_purl_eqb_neq in Hp. congruence.
Qed.

Lemma groups_of_fold pkgs : forall pre d,
  groups_of pre d ->
  groups_of (pre ++ pkgs)
            (fold_left (fun d package =>
                          gitlab.dict_append d (helpers.patched_package package)
                                             (helpers.vulnerable_package package))
                       pkgs d).
Proof.
  induction pkgs as [|p pkgs IH]; intros pre d Hinv; simpl.
  - now rewrite app_nil_r.
  - replace (pre ++ p :: pkgs) with ((pre ++ [p]) ++ pkgs)
      by (rewrite <- app_assoc; reflexivity).
    apply IH. now apply groups_of_step.
Qed.

(** The dictionary built from the matcher's pairs is their grouping. *)
Lemma unique_patched_packages_groups (pairs : list helpers.AffectedPackage) :
  groups_of pairs (gitlab.unique_patched_packages_with_affected_packages pairs).
Proof.
  unfold gitlab.unique_patched_packages_with_affected_packages.
  apply (groups_of_fold pairs (pre := []) (d := [])).
  split; [constructor|]. split; [reflexivity|]. intros k vs [].
Qed.

End Grouping.

(** ** The GitLab improver *)

Section ImproverFacts.
Context `{U : Univers} `{D : Dates} `{PM : @PackageManagers D} `{VO : VersionOrder}.

Import importer improver gitlab.

(** The pairs the matcher returns in the round of one range. *)
Definition matcher_pairs (pkg_type : string) (pkg_namespace : option string)
           (pkg_name : string) (valid_versions : list string)
           (affected_version_range : VersionRange)
  : list helpers.AffectedPackage :=
  helpers.nearest_patched_package
    (map (fun version => PackageURL_of pkg_type pkg_namespace pkg_name (Some version))
         (fst (helpers.resolve_version_range affected_version_range valid_versions)))
    (map (fun version => PackageURL_of pkg_type pkg_namespace pkg_name (Some version))
         (snd (helpers.resolve_version_range affected_version_range valid_versions))).

(** The inferences [infs] are the grouping of the pairs by patched
    package: one inference per distinct patched package, [None] included,
    which lists all the vulnerable packages paired with it; and every
    vulnerable package is listed by exactly one of the inferences. *)
Definition grouped_by_fix (pairs : list helpers.AffectedPackage)
           (infs : list Inference) : Prop :=
  NoDup (map fixed_purl infs) /\
  (forall k, In k (map fixed_purl infs) <->
             In k (map helpers.patched_package pairs)) /\
  (forall inf, In inf infs ->
               affected_purls inf = vulnerable_of_fix pairs (fixed_purl inf)) /\
  (forall pair, In pair pairs ->
     exists inf, In inf infs /\
                 In (helpers.vulnerable_package pair) (affected_purls inf) /\
                 forall inf', In inf' infs ->
                              In (helpers.vulnerable_package pair) (affected_purls inf') ->
                              inf' = inf).

Lemma inferences_of_range_unfold advisory_data pkg_type pkg_namespace pkg_name
      valid_versions affected_version_range :
  inferences_of_range advisory_data pkg_type pkg_namespace pkg_name
                      valid_versions affected_version_range =
  map (fun item => from_advisory_data advisory_data 100 (snd item) (fst item))
      (unique_patched_packages_with_affected_packages
         (matcher_pairs pkg_type pkg_namespace pkg_name valid_versions
                        affected_version_range)).
Proof. reflexivity. Qed.

(** The matcher gives a vulnerable package one patched package. *)
Lemma nearest_patched_package_functional V R pair pair' :
  In pair (helpers.nearest_patched_package V R) ->
  In pair' (helpers.nearest_patched_package V R) ->
  helpers.vulnerable_package pair = helpers.vulnerable_package pair' ->
  helpers.patched_package pair = helpers.patched_package pair'.
Proof.
  unfold helpers.nearest_patched_package.
  intros H1 H2.
  apply in_map_iff in H1 as (v & <- & _).
  apply in_map_iff in H2 as (v' & <- & _).
  simpl. intros ->. reflexivity.
Qed.

Lemma in_vulnerable_of_fix pairs k v :
  In v (vulnerable_of_fix pairs k) <->
  exists pair, In pair pairs /\ helpers.patched_package pair = k /\
               helpers.vulnerable_package pair = v.
Proof.
  unfold vulnerable_of_fix. rewrite in_map_iff. split.
  - intros (pair & Hv & Hin). apply filter_In in Hin as [Hin Hk].
    apply opt_purl_eqb_eq in Hk. eauto.
  - intros (pair & Hin & Hk & Hv). exists pair. split; [exact Hv|].
    apply filter_In. split; [exact Hin|]. now apply opt_purl_eqb_eq.
Qed.

Lemma inferences_of_range_grouped advisory_data pkg_type pkg_namespace pkg_name
      valid_versions affected_version_range :
  grouped_by_fix
    (matcher_pairs pkg_type pkg_namespace pkg_name valid_versions
                   affected_version_range)
    (inferences_of_range advisory_data pkg_type pkg_namespace pkg_name
                         valid_versions affected_version_range).
Proof.
  rewrite inferences_of_range_unfold.
  set (pairs := matcher_pairs _ _ _ _ _).
  destruct (unique_patched_packages_groups pairs) as (Hnd & Hkeys & Hent).
  set (d := unique_patched_packages_with_affected_packages pairs) in *.
  assert (Hfix : map fixed_purl
                     (map (fun item => from_advisory_data advisory_data 100
                                                          (snd item) (fst item)) d)
                 = map fst d).
  { rewrite map_map. reflexivity. }
  assert (Hinf : forall inf,
            In inf (map (fun item => from_advisory_data advisory_data 100
                                                        (snd item) (fst item)) d) ->
            affected_purls inf = vulnerable_of_fix pairs (fixed_purl inf)).
  { intros inf Hin. apply in_map_iff in Hin as ([k vs] & <- & Hin).
    simpl. now apply Hent. }
  split; [|split; [|split]].
  - rewrite Hfix. exact Hnd.
  - intros k. rewrite Hfix. apply Hkeys.
  - exact Hinf.
  - intros pair Hpair.
    assert (Hk : In (helpers.patched_package pair) (map fst d)).
    { apply Hkeys. now apply in_map. }
    apply in_map_iff in Hk as ([k vs] & Hkeq & Hin). simpl in Hkeq. subst k.
    exists (from_advisory_data advisory_data 100 vs (helpers.patched_package pair)).
    assert (Hthis : In (from_advisory_data advisory_data 100 vs
                                           (helpers.patched_package pair))
                       (map (fun item => from_advisory_data advisory_data 100
                                                            (snd item) (fst item)) d)).
    { apply in_map_iff. exists (helpers.patched_package pair, vs). now split. }
    split; [exact Hthis|]. split.
    + rewrite (Hinf _ Hthis). simpl. apply in_vulnerable_of_fix.
      exists pair. now repeat split.
    + intros inf' Hin' Hv.
      rewrite (Hinf _ Hin') in Hv.
      apply in_vulnerable_of_fix in Hv as (pair' & Hpair' & Hk' & Hv').
      assert (Hsame : fixed_purl inf' = helpers.patched_package pair).
      { rewrite <- Hk'.
        eapply nearest_patched_package_functional; eassumption. }
      apply in_map_iff in Hin' as ([k' vs'] & <- & Hin'). simpl in Hsame. subst k'.
      f_equal.
      rewrite (Hent _ _ Hin'), (Hent _ _ Hin). reflexivity.
Qed.

(** What [get_inferences] does once the merge and the lookup of the
    versions have succeeded: the rounds of the ranges, one after the
    other. *)
Lemma get_inferences_yields self advisory_data purl ranges fixed
      valid_versions self' :
  affected_packages advisory_data <> [] ->
  merge (affected_packages advisory_data) = Return (Some (purl, ranges, fixed)) ->
  get_package_versions (snd (resolve_pkg_name self purl)) purl
                       (date_published advisory_data)
  = (Return valid_versions, self') ->
  get_inferences self advisory_data =
  (mkGenerator
     (flat_map (inferences_of_range advisory_data (purl_type purl)
                                    (purl_namespace purl)
                                    (fst (resolve_pkg_name self purl))
                                    valid_versions)
               ranges)
     None, self').
Proof.
  intros Hne Hmerge Hlookup. unfold get_inferences.
  destruct (affected_packages advisory_data) as [|a l] eqn:Hpk; [congruence|].
  rewrite Hmerge.
  destruct (resolve_pkg_name self purl) as [pkg_name self1]. simpl in *.
  rewrite Hlookup. reflexivity.
Qed.

End ImproverFacts.

Section ImproverClaims.
Context `{U : Univers} `{D : Dates} `{PM : @PackageManagers D} `{VO : VersionOrder}.

Import importer improver gitlab.

Lemma same_identity_eq (a b : PackageURL) :
  same_identity a b = true <-> identity a = identity b.
Proof.
  unfold same_identity.
  destruct (identity_eq_dec (identity a) (identity b)); split; congruence.
Qed.

Lemma merge_raises_unmergeable (pkgs : list (AffectedPackage VersionRange Version))
      (e : exn) :
  merge pkgs = Raise e -> e = UnMergeablePackageError.
Proof.
  unfold merge. destruct pkgs as [|first others]; [discriminate|].
  destruct (forallb _ others); [discriminate|]. congruence.
Qed.

Lemma merge_none (pkgs : list (AffectedPackage VersionRange Version)) :
  merge pkgs = Return None -> pkgs = [].
Proof.
  unfold merge. destruct pkgs as [|first others]; [reflexivity|].
  destruct (forallb _ others); discriminate.
Qed.

(** Records of one identity merge. *)
Lemma merge_one_identity (first : AffectedPackage VersionRange Version)
      (others : list (AffectedPackage VersionRange Version)) :
  (forall pkg, In pkg others -> identity (package pkg) = identity (package first)) ->
  exists purl ranges fixed,
    merge (first :: others) = Return (Some (purl, ranges, fixed)).
Proof.
  intros Hsame. unfold merge.
  replace (forallb _ others) with true; [eauto|].
  symmetry. apply forallb_forall. intros pkg Hpkg.
  apply same_identity_eq. symmetry. now apply Hsame.
Qed.

(** Records of two identities do not merge. *)
Lemma merge_two_identities (pkgs : list (AffectedPackage VersionRange Version))
      (a b : AffectedPackage VersionRange Version) :
  In a pkgs -> In b pkgs -> identity (package a) <> identity (package b) ->
  merge pkgs = Raise UnMergeablePackageError.
Proof.
  intros Ha Hb Hab. unfold merge.
  destruct pkgs as [|first others]; [destruct Ha|].
  destruct (forallb _ others) eqn:Hall; [|reflexivity].
  exfalso. apply Hab.
  assert (Hfirst : forall pkg, In pkg (first :: others) ->
                               identity (package first) = identity (package pkg)).
  { intros pkg [<-|Hin]; [reflexivity|].
    rewrite forallb_forall in Hall. apply same_identity_eq. now apply Hall. }
  rewrite <- (Hfirst a Ha), <- (Hfirst b Hb). reflexivity.
Qed.

Lemma inferences_of_range_no_versions advisory_data pkg_type pkg_namespace
      pkg_name affected_version_range :
  inferences_of_range advisory_data pkg_type pkg_namespace pkg_name []
                      affected_version_range = [].
Proof. reflexivity. Qed.

Lemma resolve_pkg_name_other self purl :
  purl_type purl <> "golang" ->
  resolve_pkg_name self purl = (purl_name purl, self).
Proof.
  intros Hne. unfold resolve_pkg_name.
  destruct (String.eqb_spec (purl_type purl) "golang"); [contradiction|reflexivity].
Qed.

(** C2 (amended). For every advisory that [get_inferences] processes and
    each affected version range of the merged advisory, the matcher's
    pairs of that range are grouped by patched package, with [None] as a
    key for the versions without a fix: in the round of the range one
    inference is yielded per distinct patched package, it lists all the
    vulnerable versions the range maps to that package, and every
    vulnerable version of the range is listed by exactly one inference of
    the round. The inferences of the advisory are those of its ranges, one
    round after the other. *)
Theorem get_inferences_groups_each_range self advisory_data purl ranges fixed
        valid_versions self' :
  merge (affected_packages advisory_data) = Return (Some (purl, ranges, fixed)) ->
  get_package_versions (snd (resolve_pkg_name self purl)) purl
                       (date_published advisory_data)
  = (Return valid_versions, self') ->
  let pkg_name := fst (resolve_pkg_name self purl) in
  yielded (fst (get_inferences self advisory_data)) =
  flat_map (inferences_of_range advisory_data (purl_type purl)
                                (purl_namespace purl) pkg_name valid_versions)
           ranges /\
  forall range, In range ranges ->
    grouped_by_fix
      (matcher_pairs (purl_type purl) (purl_namespace purl) pkg_name
                     valid_versions range)
      (inferences_of_range advisory_data (purl_type purl) (purl_namespace purl)
                           pkg_name valid_versions range).
Proof.
  intros Hmerge Hlookup pkg_name. split.
  - erewrite get_inferences_yields; [reflexivity| |exact Hmerge|exact Hlookup].
    intros Hnil. rewrite Hnil in Hmerge. discriminate.
  - intros range _. apply inferences_of_range_grouped.
Qed.

(** C3. For every advisory whose affected packages have more than one
    identity, [merge] raises [UnMergeablePackageError], and
    [get_inferences] yields no inference, raises nothing and leaves the
    improver as it was. *)
Theorem get_inferences_skips_unmergeable self advisory_data a b :
  In a (affected_packages advisory_data) ->
  In b (affected_packages advisory_data) ->
  identity (package a) <> identity (package b) ->
  merge (affected_packages advisory_data) = Raise UnMergeablePackageError /\
  get_inferences self advisory_data = (mkGenerator [] None, self).
Proof.
  intros Ha Hb Hab.
  assert (Hmerge := merge_two_identities _ _ _ Ha Hb Hab).
  split; [exact Hmerge|].
  unfold get_inferences. rewrite Hmerge.
  destruct (affected_packages advisory_data); reflexivity.
Qed.

(** C5. For every advisory for which the lookup of the versions returns
    the empty list, [get_inferences] yields no inference and raises
    nothing; the empty universe resolves to two empty lists for every
    range. *)
Theorem get_inferences_empty_universe self advisory_data :
  (forall purl ranges fixed,
      merge (affected_packages advisory_data) = Return (Some (purl, ranges, fixed)) ->
      fst (get_package_versions (snd (resolve_pkg_name self purl)) purl
                                (date_published advisory_data)) = Return []) ->
  fst (get_inferences self advisory_data) = mkGenerator [] None /\
  forall range, helpers.resolve_version_range range [] = ([], []).
Proof.
  intros Hlookup. split; [|reflexivity].
  unfold get_inferences.
  destruct (affected_packages advisory_data) as [|first others] eqn:Hpk;
    [reflexivity|].
  destruct (merge (first :: others)) as [[[[purl ranges] fixed]|]|e] eqn:Hmerge.
  - specialize (Hlookup _ _ _ eq_refl).
    destruct (resolve_pkg_name self purl) as [pkg_name self1]. simpl in Hlookup.
    destruct (get_package_versions self1 purl (date_published advisory_data))
      as [versions self2].
    simpl in Hlookup. subst versions. cbn [fst]. f_equal.
    clear Hmerge.
    induction ranges as [|range ranges IH]; [reflexivity|]. cbn [flat_map].
    rewrite inferences_of_range_no_versions. exact IH.
  - apply merge_none in Hmerge. discriminate.
  - rewrite (merge_raises_unmergeable _ Hmerge). reflexivity.
Qed.

(** C6. Every inference that [get_inferences] yields has confidence 100. *)
Theorem get_inferences_confidence self advisory_data :
  Forall (fun inf => confidence inf = 100)
         (yielded (fst (get_inferences self advisory_data))).
Proof.
  unfold get_inferences.
  destruct (affected_packages advisory_data) as [|first others];
    [constructor|].
  destruct (merge (first :: others)) as [[[[purl ranges] fixed]|]|e];
    [|constructor|destruct e; constructor].
  destruct (resolve_pkg_name self purl) as [pkg_name self1].
  destruct (get_package_versions self1 purl (date_published advisory_data))
    as [[versions|e] self2]; [|constructor].
  simpl. apply Forall_flat_map. apply Forall_forall. intros range _.
  apply Forall_forall. intros inf Hinf.
  unfold inferences_of_range in Hinf.
  destruct (helpers.resolve_version_range range versions) as [aff unaff].
  apply in_map_iff in Hinf as (item & <- & _). reflexivity.
Qed.

(** C8 (amended). Two runs of [get_inferences] on the same advisory with
    the same version universe yield the same sequence of inferences when
    the package is not a Go package, or when the Go fetcher cached in the
    improver gives the same module name for the package in both runs. *)
Theorem get_inferences_deterministic self1 self2 advisory_data :
  (forall purl ranges fixed,
      merge (affected_packages advisory_data) = Return (Some (purl, ranges, fixed)) ->
      fst (get_package_versions (snd (resolve_pkg_name self1 purl)) purl
                                (date_published advisory_data)) =
      fst (get_package_versions (snd (resolve_pkg_name self2 purl)) purl
                                (date_published advisory_data))) ->
  (forall purl ranges fixed,
      merge (affected_packages advisory_data) = Return (Some (purl, ranges, fixed)) ->
      purl_type purl = "golang" ->
      fst (resolve_pkg_name self1 purl) = fst (resolve_pkg_name self2 purl)) ->
  fst (get_inferences self1 advisory_data) = fst (get_inferences self2 advisory_data).
Proof.
  intros Huniverse Hname. unfold get_inferences.
  destruct (affected_packages advisory_data) as [|first others] eqn:Hpk;
    [reflexivity|].
  destruct (merge (first :: others)) as [[[[purl ranges] fixed]|]|e] eqn:Hmerge;
    [|reflexivity|destruct e; reflexivity].
  specialize (Huniverse _ _ _ eq_refl). specialize (Hname _ _ _ eq_refl).
  assert (Hsame : fst (resolve_pkg_name self1 purl) = fst (resolve_pkg_name self2 purl)).
  { destruct (string_dec (purl_type purl) "golang") as [Hgo|Hgo];
      [now apply Hname|].
    now rewrite !resolve_pkg_name_other. }
  destruct (resolve_pkg_name self1 purl) as [name1 s1].
  destruct (resolve_pkg_name self2 purl) as [name2 s2].
  simpl in *. subst name2.
  destruct (get_package_versions s1 purl (date_published advisory_data))
    as [r1 t1].
  destruct (get_package_versions s2 purl (date_published advisory_data))
    as [r2 t2].
  simpl in Huniverse. subst r2. destruct r1; reflexivity.
Qed.

End ImproverClaims.

(** ** The improver on the scenarios *)

Section ImproverScenarios.
Existing Instance scenario.dotted_order.
Existing Instance scenario.univers.
Existing Instance scenario.dates.
Existing Instance scenario.package_managers.

Import importer improver gitlab scenario.

Definition released_versions : list string := ["1.0.0"; "1.0.1"; "1.0.2"].

Definition amphp_version (v : string) : PackageURL :=
  PackageURL_of "composer" (Some "amphp") "http" (Some v).

(** The scenario of the spec: the range [<1.0.2] over the versions 1.0.0,
    1.0.1 and 1.0.2 gives one inference, which lists the two affected
    versions under the fix 1.0.2. *)
Example get_inferences_one_range :
  fst (get_inferences new_improver one_range_advisory) =
  mkGenerator
    [ from_advisory_data one_range_advisory 100
                         [amphp_version "1.0.0"; amphp_version "1.0.1"]
                         (Some (amphp_version "1.0.2")) ]
    None.
Proof. vm_compute. reflexivity. Qed.

(** The scenario of the spec without a resolved version: one inference,
    whose fixed package is [None]. *)
Example get_inferences_no_fix :
  fst (get_inferences new_improver unfixed_advisory) =
  mkGenerator
    [ from_advisory_data unfixed_advisory 100
                         [amphp_version "1.0.0"; amphp_version "1.0.1";
                          amphp_version "1.0.2"]
                         None ]
    None.
Proof. vm_compute. reflexivity. Qed.

Lemma get_inferences_groups_each_range_witness :
  yielded (fst (get_inferences new_improver one_range_advisory)) =
  flat_map (inferences_of_range one_range_advisory "composer" (Some "amphp")
                                "http" released_versions)
           [[(LT, "1.0.2")]] /\
  forall range, In range [[(LT, "1.0.2")]] ->
    grouped_by_fix
      (matcher_pairs "composer" (Some "amphp") "http" released_versions range)
      (inferences_of_range one_range_advisory "composer" (Some "amphp") "http"
                           released_versions range).
Proof.
  apply (@get_inferences_groups_each_range univers dates package_managers dotted_order
           new_improver one_range_advisory amphp_http [[(LT, "1.0.2")]] []
           released_versions
           (snd (get_package_versions new_improver amphp_http (Some "2018-03-15"))));
    vm_compute; reflexivity.
Defined.

(** The advisory with two ranges: the version 1.0.0 lies in both, and the
    inference of each range lists it. So a vulnerable version can appear
    in more than one inference of an advisory. *)
Lemma two_ranges_list_a_version_twice :
  let infs := yielded (fst (get_inferences new_improver two_range_advisory)) in
  infs = [ from_advisory_data two_range_advisory 100
                              [amphp_version "1.0.0"]
                              (Some (amphp_version "1.0.1"));
           from_advisory_data two_range_advisory 100
                              [amphp_version "1.0.0"; amphp_version "1.0.1"]
                              (Some (amphp_version "1.0.2")) ] /\
  ~ (forall v i j a b,
        nth_error infs i = Some a -> nth_error infs j = Some b ->
        In v (affected_purls a) -> In v (affected_purls b) -> i = j).
Proof.
  split; [vm_compute; reflexivity|].
  intros Hone.
  specialize (Hone (amphp_version "1.0.0") 0 1 _ _ eq_refl eq_refl).
  assert (H01 : 0 = 1); [|discriminate H01].
  apply Hone; vm_compute; auto.
Qed.

Lemma get_inferences_skips_unmergeable_witness :
  merge (affected_packages foo_bar_advisory) = Raise UnMergeablePackageError /\
  get_inferences new_improver foo_bar_advisory =
  (mkGenerator [] None, new_improver).
Proof.
  eapply (@get_inferences_skips_unmergeable univers dates package_managers dotted_order
            new_improver foo_bar_advisory).
  - left. reflexivity.
  - right. left. reflexivity.
  - discriminate.
Defined.

Lemma get_inferences_empty_universe_witness :
  fst (get_inferences new_improver unpublished_advisory) = mkGenerator [] None /\
  forall range, helpers.resolve_version_range range [] = ([], []).
Proof.
  apply (@get_inferences_empty_universe univers dates package_managers dotted_order
           new_improver unpublished_advisory).
  intros purl ranges fixed Hmerge.
  injection Hmerge as <- _ _. reflexivity.
Defined.

(** Every inference of the scenarios has confidence 100, and there are
    such inferences. *)
Example get_inferences_confidence_two_ranges :
  map confidence (yielded (fst (get_inferences new_improver two_range_advisory)))
  = [100; 100].
Proof. vm_compute. reflexivity. Qed.

Lemma get_inferences_deterministic_witness :
  fst (get_inferences new_improver one_range_advisory) =
  fst (get_inferences (snd (get_inferences new_improver one_range_advisory))
                      one_range_advisory).
Proof.
  apply (@get_inferences_deterministic univers dates package_managers dotted_order
           new_improver
           (snd (get_inferences new_improver one_range_advisory))
           one_range_advisory).
  - intros purl ranges fixed Hmerge.
    injection Hmerge as <- _ _. reflexivity.
  - intros purl ranges fixed Hmerge Hgo.
    injection Hmerge as <- _ _. discriminate Hgo.
Defined.

(** A Go package below the root of its module, improved twice by one
    improver. The lookup of the versions gives the same versions both
    times. The first run makes the Go fetcher, which knows no module yet,
    and reports the versions under the name of the package; the lookup then
    leaves the module of the package recorded in the cached fetcher, and
    the second run reports the versions under the name of the module. *)
Lemma go_module_name_changes_between_runs :
  let purl := PackageURL_of "golang" None "github.com/foo/bar/sub" None in
  let first := get_inferences new_improver go_advisory in
  let second := get_inferences (snd first) go_advisory in
  fst (get_package_versions (snd (resolve_pkg_name new_improver purl)) purl
                            (date_published go_advisory))
  = Return released_versions /\
  fst (get_package_versions (snd (resolve_pkg_name (snd first) purl)) purl
                            (date_published go_advisory))
  = Return released_versions /\
  map (fun inf => map purl_name (affected_purls inf)) (yielded (fst first))
  = [["github.com/foo/bar/sub"; "github.com/foo/bar/sub"]] /\
  map (fun inf => map purl_name (affected_purls inf)) (yielded (fst second))
  = [["github.com/foo/bar"; "github.com/foo/bar"]] /\
  fst first <> fst second.
Proof.
  repeat split; try (vm_compute; reflexivity).
  intros Heq.
  assert (Hnames : map (fun inf => map purl_name (affected_purls inf))
                       (yielded (fst (get_inferences new_improver go_advisory)))
                   = map (fun inf => map purl_name (affected_purls inf))
                         (yielded (fst (get_inferences
                                          (snd (get_inferences new_improver go_advisory))
                                          go_advisory))))
    by (rewrite <- Heq; reflexivity).
  vm_compute in Hnames. discriminate Hnames.
Qed.

End ImproverScenarios.

(** ** The GitLab importer *)

Section ImporterClaims.
Context `{PL : PackageURLs} `{U : Univers} `{D : Dates}
        `{R : importer.ReferenceAPI}.

Import importer gitlab.

(** The parser the [try] of [parse_yaml_file] calls for a scheme:
    [from_gitlab_native] for the schemes GitLab writes natively,
    [vrc.from_native] for the others. *)
Definition range_parser (vrc : RangeClass VersionRange Version)
           (gitlab_scheme text : string) : result VersionRange :=
  if existsb (String.eqb gitlab_scheme) gitlab_native_schemes
  then from_gitlab_native gitlab_scheme text
  else from_native vrc text.

(** The payload of a record: its range and its fixed version. *)
Definition has_range (pkg : AffectedPackage VersionRange Version) : bool :=
  match affected_version_range pkg with Some _ => true | None => false end.

Definition has_fixed_version (pkg : AffectedPackage VersionRange Version) : bool :=
  match fixed_version pkg with Some _ => true | None => false end.

Definition exactly_one_payload (pkg : AffectedPackage VersionRange Version) : bool :=
  xorb (has_range pkg) (has_fixed_version pkg).

Definition some_payload (pkg : AffectedPackage VersionRange Version) : bool :=
  has_range pkg || has_fixed_version pkg.

Lemma get_purl_no_segment (package_slug : string) :
  filter not_empty (Py.split "/" package_slug) = [] ->
  get_purl package_slug = Raise IndexError.
Proof. unfold get_purl. intros ->. reflexivity. Qed.

Lemma get_purl_unknown_scheme (package_slug scheme : string) (rest : list string) :
  filter not_empty (Py.split "/" package_slug) = scheme :: rest ->
  Py.dict_get String.eqb PURL_TYPE_BY_GITLAB_SCHEME scheme = None ->
  get_purl package_slug = Raise KeyError.
Proof. unfold get_purl. intros -> ->. reflexivity. Qed.

(** An exception of [get_purl] leaves [parse_yaml_file] as it is. *)
Lemma parse_yaml_file_get_purl_raises g t d us dt dt' slug e :
  title g = Some t -> description g = Some d -> urls g = Some us ->
  dateparser_parse (pubdate g) = Return dt -> utc_localize dt = Return dt' ->
  package_slug g = Some slug -> get_purl slug = Raise e ->
  parse_yaml_file (Some g) = Raise e.
Proof.
  intros Ht Hd Hus Hdt Hdt' Hslug Hpurl.
  unfold parse_yaml_file, bind. rewrite Ht, Hd, Hus, Hdt, Hdt', Hslug, Hpurl.
  reflexivity.
Qed.

Lemma extract_affected_packages_payload range fixed purl :
  Forall (fun pkg => package pkg = purl /\ affected_version_range pkg = range /\
                     has_fixed_version pkg = true)
         (extract_affected_packages range fixed purl).
Proof.
  unfold extract_affected_packages. apply Forall_forall. intros pkg Hin.
  apply in_map_iff in Hin as (v & <- & _). repeat split.
Qed.

Lemma affected_packages_of_payload range fixed purl :
  Forall (fun pkg => some_payload pkg = true)
         (affected_packages_of range fixed purl).
Proof.
  unfold affected_packages_of. destruct fixed as [|v fixed].
  - destruct range; repeat constructor.
  - eapply Forall_impl; [|apply extract_affected_packages_payload].
    intros pkg (_ & _ & Hfixed). unfold some_payload. rewrite Hfixed.
    apply orb_true_r.
Qed.

(** The affected packages of an advisory that [parse_yaml_file] returns:
    none, or those of the last [if]. *)
Lemma parse_yaml_file_affected_packages loaded adv :
  parse_yaml_file loaded = Return (Some adv) ->
  affected_packages adv = [] \/
  exists range fixed purl,
    affected_packages adv = affected_packages_of range fixed purl.
Proof.
  unfold parse_yaml_file, bind.
  destruct loaded as [g|]; [|discriminate].
  destruct (title g); [|discriminate].
  destruct (description g); [|discriminate].
  destruct (urls g); [|discriminate].
  destruct (dateparser_parse (pubdate g)) as [dt|]; [|discriminate].
  destruct (utc_localize dt) as [dt'|]; [|discriminate].
  destruct (package_slug g) as [slug|]; [|discriminate].
  destruct (get_purl slug) as [[purl|]|]; [| |discriminate].
  - destruct (RANGE_CLASS_BY_SCHEMES (purl_type purl)) as [vrc|]; [|discriminate].
    destruct (Py.dict_get String.eqb GITLAB_SCHEME_BY_PURL_TYPE (purl_type purl))
      as [scheme|]; [|discriminate].
    intros H. injection H as <-. right. simpl. eauto.
  - intros H. injection H as <-. left. reflexivity.
Qed.

(** The versions that parse are the listed versions that [version_class]
    accepts, in the order of the list. *)
Lemma parse_fixed_versions_parsed vrc fixes :
  map Return (parse_fixed_versions vrc fixes) =
  filter (fun r => match r with Return _ => true | Raise _ => false end)
         (map (version_class vrc)
              (match fixes with Some l => l | None => [] end)).
Proof.
  unfold parse_fixed_versions.
  induction (match fixes with Some l => l | None => [] end) as [|x l IH];
    [reflexivity|].
  simpl. destruct (version_class vrc x); simpl; [f_equal|]; exact IH.
Qed.

(** C4. For every advisory file whose range expression makes the range
    parser raise, [parse_yaml_file] does not raise: it returns an advisory
    whose affected packages carry no range, one for each listed fixed
    version that [version_class] accepts, in the order of the file, and
    none when it accepts none. *)
Theorem parse_yaml_file_range_failure g t d us dt dt' slug purl vrc scheme text e :
  title g = Some t -> description g = Some d -> urls g = Some us ->
  dateparser_parse (pubdate g) = Return dt -> utc_localize dt = Return dt' ->
  package_slug g = Some slug -> get_purl slug = Return (Some purl) ->
  RANGE_CLASS_BY_SCHEMES (purl_type purl) = Some vrc ->
  Py.dict_get String.eqb GITLAB_SCHEME_BY_PURL_TYPE (purl_type purl) = Some scheme ->
  affected_range g = Some text -> Py.truthy text = true ->
  range_parser vrc scheme text = Raise e ->
  affected_version_range_of vrc scheme (affected_range g) = None /\
  exists parsed,
    map Return parsed =
    filter (fun r => match r with Return _ => true | Raise _ => false end)
           (map (version_class vrc)
                (match fixed_versions g with Some l => l | None => [] end)) /\
    parse_yaml_file (Some g) =
    Return (Some (mkAdvisoryData
                    (identifiers g) (Py.join ". " [t; d])
                    (map Reference_from_url us) (Some dt')
                    (map (fun v => mkAffectedPackage purl None (Some v))
                         parsed))).
Proof.
  intros Ht Hd Hus Hdt Hdt' Hslug Hpurl Hvrc Hscheme Hrange Htext Hraise.
  assert (Hnone : affected_version_range_of vrc scheme (affected_range g) = None).
  { unfold affected_version_range_of, parse_affected_range.
    rewrite Hrange, Htext. unfold range_parser in Hraise.
    destruct (existsb (String.eqb scheme) gitlab_native_schemes);
      rewrite Hraise; reflexivity. }
  split; [exact Hnone|].
  exists (parse_fixed_versions vrc (fixed_versions g)).
  split; [apply parse_fixed_versions_parsed|].
  unfold parse_yaml_file, bind.
  rewrite Ht, Hd, Hus, Hdt, Hdt', Hslug, Hpurl, Hvrc, Hscheme, Hnone.
  unfold affected_packages_of, extract_affected_packages.
  destruct (parse_fixed_versions vrc (fixed_versions g)); reflexivity.
Qed.

(** A listed version that parses is among the parsed versions. *)
Lemma parse_fixed_versions_in vrc fixes fixed v :
  In fixed fixes -> version_class vrc fixed = Return v ->
  In v (parse_fixed_versions vrc (Some fixes)).
Proof.
  intros Hin Hv. unfold parse_fixed_versions. apply in_flat_map.
  exists fixed. split; [exact Hin|]. rewrite Hv. now left.
Qed.

(** C7 (amended). Every record of affected package in an advisory that
    [parse_yaml_file] returns has at least one of its two payload fields
    populated, the range or the fixed version. When the range of the file
    parses and one of its fixed versions parses, the advisory has records
    and every one of them has both: the range of the file and a fixed
    version. *)
Theorem parse_yaml_file_some_payload loaded adv :
  parse_yaml_file loaded = Return (Some adv) ->
  Forall (fun pkg => some_payload pkg = true) (affected_packages adv) /\
  (forall g slug purl vrc scheme text range fixes fixed v,
      loaded = Some g ->
      package_slug g = Some slug -> get_purl slug = Return (Some purl) ->
      RANGE_CLASS_BY_SCHEMES (purl_type purl) = Some vrc ->
      Py.dict_get String.eqb GITLAB_SCHEME_BY_PURL_TYPE (purl_type purl)
      = Some scheme ->
      affected_range g = Some text -> Py.truthy text = true ->
      range_parser vrc scheme text = Return range ->
      fixed_versions g = Some fixes -> In fixed fixes ->
      version_class vrc fixed = Return v ->
      affected_packages adv <> [] /\
      Forall (fun pkg => affected_version_range pkg = Some range /\
                         has_fixed_version pkg = true)
             (affected_packages adv)).
Proof.
  intros Hparse. split.
  { destruct (parse_yaml_file_affected_packages _ Hparse)
      as [->|(range & fixed & purl & ->)].
    - constructor.
    - apply affected_packages_of_payload. }
  intros g slug purl vrc scheme text range fixes fixed v -> Hslug Hpurl Hvrc
         Hscheme Hrange Htext Hparsed Hfixes Hin Hv.
  assert (Hsome : affected_version_range_of vrc scheme (affected_range g)
                  = Some range).
  { unfold affected_version_range_of, parse_affected_range.
    rewrite Hrange, Htext. unfold range_parser in Hparsed.
    destruct (existsb (String.eqb scheme) gitlab_native_schemes);
      rewrite Hparsed; reflexivity. }
  assert (Hv' := parse_fixed_versions_in vrc fixes fixed Hin Hv).
  rewrite <- Hfixes in Hv'.
  revert Hparse. unfold parse_yaml_file, bind.
  destruct (title g); [|discriminate].
  destruct (description g); [|discriminate].
  destruct (urls g); [|discriminate].
  destruct (dateparser_parse (pubdate g)) as [dt|]; [|discriminate].
  destruct (utc_localize dt) as [dt'|]; [|discriminate].
  rewrite Hslug, Hpurl, Hvrc, Hscheme, Hsome.
  intros H. injection H as <-. cbn [affected_packages].
  unfold affected_packages_of.
  destruct (parse_fixed_versions vrc (fixed_versions g)) as [|v0 parsed];
    [destruct Hv'|].
  split; [discriminate|].
  eapply Forall_impl; [|apply extract_affected_packages_payload].
  intros pkg (_ & Hr & Hf). split; assumption.
Qed.

End ImporterClaims.

Section ImporterScenarios.
Existing Instance scenario.purls.
Existing Instance scenario.univers.
Existing Instance scenario.dates.
Existing Instance scenario.reference_api.

Import importer gitlab scenario.

(** The advisory of the sample file. *)
Definition sample_advisory (pkgs : list (AffectedPackage VersionRange Version))
  : AdvisoryData VersionRange Version datetime :=
  mkAdvisoryData
    (Some ["GMS-2018-26"])
    "Incorrect header injection check. amphp/http isn't properly protected against HTTP header injection."
    [mkReference "" "https://github.com/amphp/http/pull/4" []]
    (Some "2018-03-15")
    pkgs.

Section AnyPackageURLs.
Context `{PL : PackageURLs}.

(** C9. [get_purl] raises on a package slug whose first segment is not a
    GitLab scheme and on a slug without a segment, and [parse_yaml_file]
    raises with it; [None] is what a lone scheme gives. *)
Theorem get_purl_raises_on_unparsable_slug :
  get_purl "conan/foo" = Raise KeyError /\
  get_purl "" = Raise IndexError /\
  get_purl "///" = Raise IndexError /\
  get_purl "npm" = Return None /\
  parse_yaml_file (Some (sample_with_slug "conan/foo")) = Raise KeyError /\
  parse_yaml_file (Some (sample_with_slug "")) = Raise IndexError /\
  parse_yaml_file (Some (sample_with_slug "npm")) = Return (Some (sample_advisory [])).
Proof. repeat split; vm_compute; reflexivity. Qed.

End AnyPackageURLs.

(** A range without an operator does not parse: the advisory of the file
    keeps the fixed version and has no range. *)
Example parse_yaml_file_unparsable_range :
  parse_yaml_file (Some (sample_with_range (Some "1.0.1"))) =
  Return (Some (sample_advisory [mkAffectedPackage amphp_http None (Some "v1.0.1")])).
Proof. vm_compute. reflexivity. Qed.

Lemma parse_yaml_file_range_failure_witness :
  let g := sample_with_range (Some "1.0.1") in
  affected_version_range_of range_class "packagist" (affected_range g) = None /\
  exists parsed,
    map Return parsed =
    filter (fun r => match r with Return _ => true | Raise _ => false end)
           (map (version_class range_class)
                (match fixed_versions g with Some l => l | None => [] end)) /\
    parse_yaml_file (Some g) =
    Return (Some (mkAdvisoryData
                    (identifiers g)
                    (Py.join ". "
                       ["Incorrect header injection check";
                        "amphp/http isn't properly protected against HTTP header injection."])
                    (map Reference_from_url ["https://github.com/amphp/http/pull/4"])
                    (Some "2018-03-15")
                    (map (fun v => mkAffectedPackage amphp_http None (Some v))
                         parsed))).
Proof.
  intros g.
  apply (@parse_yaml_file_range_failure purls univers dates reference_api g
           "Incorrect header injection check"
           "amphp/http isn't properly protected against HTTP header injection."
           ["https://github.com/amphp/http/pull/4"]
           "2018-03-15" "2018-03-15" "packagist/amphp/http" amphp_http
           range_class "packagist" "1.0.1" ValueError);
    reflexivity.
Defined.

(** The sample file has a range and a fixed version, and the record built
    from it has both. *)
Lemma sample_file_populates_both_fields :
  parse_yaml_file (Some sample_file) =
  Return (Some (sample_advisory
                  [mkAffectedPackage amphp_http (Some [(LT, "1.0.1")])
                                     (Some "v1.0.1")])) /\
  ~ Forall (fun pkg => exactly_one_payload pkg = true)
           (affected_packages
              (sample_advisory
                 [mkAffectedPackage amphp_http (Some [(LT, "1.0.1")])
                                    (Some "v1.0.1")])).
Proof.
  split; [vm_compute; reflexivity|].
  intros Hall. inversion Hall as [|pkg pkgs Hone _]. discriminate Hone.
Qed.

Lemma parse_yaml_file_some_payload_witness :
  let adv := sample_advisory
               [mkAffectedPackage amphp_http (Some [(LT, "1.0.1")])
                                  (Some "v1.0.1")] in
  Forall (fun pkg => some_payload pkg = true) (affected_packages adv) /\
  affected_packages adv <> [] /\
  Forall (fun pkg => affected_version_range pkg = Some [(LT, "1.0.1")] /\
                     has_fixed_version pkg = true)
         (affected_packages adv).
Proof.
  intros adv.
  destruct (@parse_yaml_file_some_payload purls univers dates reference_api
              (Some sample_file) adv) as [Hsome Hboth];
    [vm_compute; reflexivity|].
  split; [exact Hsome|].
  apply (Hboth sample_file "packagist/amphp/http" amphp_http range_class
               "packagist" "<1.0.1" [(LT, "1.0.1")] ["v1.0.1"] "v1.0.1"
               "v1.0.1");
    try reflexivity.
  now left.
Defined.

End ImporterScenarios.

(** ** The PostgreSQL importer *)

(** The text of the first [nobr] element of the reference column of a
    row, if the column has one. *)
Definition first_nobr (row : postgresql.Row) : option string :=
  match row with
  | ref_col :: _ => hd_error (postgresql.nobr ref_col)
  | [] => None
  end.

(** The id of the most recent of the preceding rows that has one: that of
    the later rows if one of them has an id, else that of the row. *)
Fixpoint most_recent_cve_id (preceding : list postgresql.Row) : option string :=
  match preceding with
  | [] => None
  | row :: later =>
      match most_recent_cve_id later with
      | Some id => Some id
      | None => first_nobr row
      end
  end.

(** The value of [cve_id] after the rows [preceding], when it was [cur]
    before them. *)
Definition carried_cve_id (cur : option string) (preceding : list postgresql.Row)
  : option string :=
  match most_recent_cve_id preceding with
  | Some id => Some id
  | None => cur
  end.

Section PostgresqlClaims.
Context `{PL : PackageURLs} `{VO : VersionOrder} `{UL : postgresql.UrlLib}.

Import importer postgresql.






(** A row with five cells whose links are in order gives an advisory when
    it has an id of its own or one carried from before. *)
Lemma advisory_of_row_returns locals c1 c2 c3 c4 c5 refs id :
  references_of (anchors c1) (hd_error (anchors c4)) (severities locals)
  = Return refs ->
  carried_cve_id (cve_id locals) [[c1; c2; c3; c4; c5]] = Some id ->
  exists adv,
    advisory_of_row locals [c1; c2; c3; c4; c5]
    = Return (adv, mkLocals (Some id) (snd refs)) /\
    vulnerability_id adv = id.
Proof.
  intros Hrefs Hid. unfold advisory_of_row, bind. rewrite Hrefs.
  unfold carried_cve_id in Hid. simpl in Hid.
  destruct (nobr c1) as [|first others]; simpl in *.
  - rewrite Hid. eexists. split; reflexivity.
  - injection Hid as ->. eexists. split; reflexivity.
Qed.


End PostgresqlClaims.

Section PostgresqlScenarios.
Existing Instance scenario.purls.
Existing Instance scenario.dotted_order.
Existing Instance scenario.url_lib.

Import importer postgresql scenario.

(** A row without an id after a row with one: both advisories carry the
    id of the first row. *)
Example to_advisories_carried_id :
  option_map (map vulnerability_id)
             (match to_advisories [[row_with_id; row_without_id]] with
              | Return advs => Some advs
              | Raise _ => None
              end)
  = Some ["CVE-2019-10164"; "CVE-2019-10164"].
Proof. vm_compute. reflexivity. Qed.

(** A row without an id at the head of the page: no advisory is returned,
    not even that of the row with an id that follows. *)
Example to_advisories_unbound_id :
  to_advisories [[row_without_id; row_with_id]] = Raise UnboundLocalError.
Proof. vm_compute. reflexivity. Qed.


End PostgresqlScenarios.

(** * Further properties *)

(** ** Package slugs *)

Section SlugFacts.
Context `{PL : PackageURLs}.

Import gitlab.

(** The table of the schemes read backwards gives the scheme back. *)
Lemma scheme_of_purl_type (scheme purl_type : string) :
  Py.dict_get String.eqb PURL_TYPE_BY_GITLAB_SCHEME scheme = Some purl_type ->
  Py.dict_get String.eqb GITLAB_SCHEME_BY_PURL_TYPE purl_type = Some scheme.
Proof.
  unfold PURL_TYPE_BY_GITLAB_SCHEME, GITLAB_SCHEME_BY_PURL_TYPE.
  cbn [Py.dict_get map fst snd].
  repeat match goal with
         | |- context [if String.eqb scheme ?k then _ else _] =>
             destruct (String.eqb_spec scheme k) as [->|_];
             [intros H; injection H as <-; reflexivity|]
         end.
  discriminate.
Qed.

Lemma string_append_assoc (a b c : string) :
  String.append (String.append a b) c = String.append a (String.append b c).
Proof. induction a as [|ch a IH]; simpl; [reflexivity|]. now rewrite IH. Qed.

Lemma concat_snoc (sep : string) (l : list string) (x : string) :
  l <> [] ->
  String.concat sep (l ++ [x]) =
  String.append (String.concat sep l) (String.append sep x).
Proof.
  induction l as [|a l IH]; [congruence|]. intros _.
  destruct l as [|b l].
  - simpl. reflexivity.
  - change ((a :: b :: l) ++ [x]) with (a :: ((b :: l) ++ [x])).
    cbn [String.concat app].
    cbn [String.concat app] in IH. rewrite IH by discriminate.
    rewrite !string_append_assoc. reflexivity.
Qed.

Lemma removelast_last (l : list string) (d : string) :
  l <> [] -> removelast l ++ [last l d] = l.
Proof. intros H. symmetry. now apply app_removelast_last. Qed.

(** The types of the table are words of lower-case letters. *)
Lemma purl_type_lower_case (scheme purl_type : string) :
  Py.dict_get String.eqb PURL_TYPE_BY_GITLAB_SCHEME scheme = Some purl_type ->
  Py.lower_case_word purl_type = true.
Proof.
  unfold PURL_TYPE_BY_GITLAB_SCHEME. cbn [Py.dict_get].
  repeat match goal with
         | |- context [if String.eqb scheme ?k then _ else _] =>
             destruct (String.eqb scheme k);
             [intros H; injection H as <-; reflexivity|]
         end.
  discriminate.
Qed.

Lemma lower_case_word_truthy (s : string) :
  Py.lower_case_word s = true -> Py.truthy s = true.
Proof. unfold Py.lower_case_word. intros H. now apply andb_prop in H. Qed.

(** The constructor returns for a type and a name that are not empty,
    and what it returns is the normalisation of its arguments. *)
Lemma PackageURL_new_returns t ns n v q s purl :
  PackageURL_new t ns n v q s = Return purl ->
  Py.truthy n = true /\ purl = normalize t ns n v q s.
Proof.
  unfold PackageURL_new.
  destruct (Py.truthy t); [|discriminate].
  destruct (Py.truthy n); [|discriminate].
  intros H. injection H as <-. split; reflexivity.
Qed.

Lemma PackageURL_new_named t ns n v q s :
  Py.truthy t = true -> Py.truthy n = true ->
  PackageURL_new t ns n v q s = Return (normalize t ns n v q s).
Proof. unfold PackageURL_new. now intros -> ->. Qed.

(** The namespace and the name that [get_purl] gives to the constructor,
    joined by a slash. *)
Definition path_of (namespace : option string) (name : string) : string :=
  match namespace with
  | Some ns => Py.join "/" [ns; name]
  | None => name
  end.

(** What [get_purl] gives to the constructor when it returns a package
    URL. *)
Lemma get_purl_arguments (package_slug : string) (purl : PackageURL) :
  get_purl package_slug = Return (Some purl) ->
  exists scheme rest purl_type namespace name,
    filter not_empty (Py.split "/" package_slug) = scheme :: rest /\
    Py.dict_get String.eqb PURL_TYPE_BY_GITLAB_SCHEME scheme = Some purl_type /\
    purl = normalize purl_type namespace name None [] None /\
    name <> "" /\
    path_of namespace name = Py.join "/" rest.
Proof.
  unfold get_purl.
  destruct (filter not_empty (Py.split "/" package_slug)) as [|scheme rest] eqn:Hparts;
    [discriminate|].
  destruct (Py.dict_get String.eqb PURL_TYPE_BY_GITLAB_SCHEME scheme)
    as [t|] eqn:Htype; [|discriminate].
  assert (Hname : forall n, Py.truthy n = true -> n <> "").
  { intros n Hn ->. discriminate Hn. }
  unfold bind. intros Hpurl. exists scheme, rest, t.
  destruct (String.eqb scheme "go").
  { destruct (PackageURL_new t None (Py.join "/" rest) None [] None)
      as [p|] eqn:Hnew; [|discriminate].
    injection Hpurl as <-.
    destruct (PackageURL_new_returns _ _ _ _ _ _ Hnew) as [Hn ->].
    exists None, (Py.join "/" rest).
    split; [reflexivity|]. split; [exact Htype|]. split; [reflexivity|].
    split; [now apply Hname|reflexivity]. }
  destruct (List.length (scheme :: rest) =? 2) eqn:Htwo.
  { destruct (PackageURL_new t None (nth 1 (scheme :: rest) "") None [] None)
      as [p|] eqn:Hnew; [|discriminate].
    injection Hpurl as <-.
    destruct (PackageURL_new_returns _ _ _ _ _ _ Hnew) as [Hn ->].
    apply Nat.eqb_eq in Htwo.
    destruct rest as [|name [|x rest]]; try discriminate.
    exists None, name.
    split; [reflexivity|]. split; [exact Htype|]. split; [reflexivity|].
    split; [now apply Hname|reflexivity]. }
  destruct (3 <=? List.length (scheme :: rest)) eqn:Hmore; [|discriminate].
  destruct (PackageURL_new t (Some (Py.join "/" (removelast rest)))
                           (last (scheme :: rest) "") None [] None)
    as [p|] eqn:Hnew; [|discriminate].
  injection Hpurl as <-.
  destruct (PackageURL_new_returns _ _ _ _ _ _ Hnew) as [Hn ->].
  apply Nat.leb_le in Hmore.
  assert (Hrest : rest <> []) by (destruct rest; [simpl in Hmore; lia|discriminate]).
  assert (Hlast : last (scheme :: rest) "" = last rest "").
  { destruct rest; [congruence|reflexivity]. }
  rewrite Hlast in *.
  exists (Some (Py.join "/" (removelast rest))), (last rest "").
  split; [reflexivity|]. split; [exact Htype|]. split; [reflexivity|].
  split; [now apply Hname|].
  assert (Hfront : removelast rest <> []).
  { destruct rest as [|a [|b rest]]; simpl in *; try lia; discriminate. }
  unfold path_of.
  rewrite <- (removelast_last "" Hrest) at 3.
  unfold Py.join. rewrite (concat_snoc "/" _ Hfront). reflexivity.
Qed.

(** X1. Whenever [get_purl] returns a package URL, the slug has a first
    segment that is a GitLab scheme, the type of the URL is the type of
    that scheme, and the scheme is found back from the type, so that the
    lookup [GITLAB_SCHEME_BY_PURL_TYPE[purl.type]] of [parse_yaml_file]
    succeeds and gives the scheme of the slug. *)
Theorem get_purl_scheme_round_trip (package_slug : string) (purl : PackageURL) :
  get_purl package_slug = Return (Some purl) ->
  exists scheme rest,
    filter not_empty (Py.split "/" package_slug) = scheme :: rest /\
    Py.dict_get String.eqb PURL_TYPE_BY_GITLAB_SCHEME scheme = Some (purl_type purl) /\
    Py.dict_get String.eqb GITLAB_SCHEME_BY_PURL_TYPE (purl_type purl) = Some scheme.
Proof.
  intros Hpurl.
  destruct (get_purl_arguments _ Hpurl)
    as (scheme & rest & t & ns & name & Hparts & Htype & -> & _).
  exists scheme, rest.
  rewrite (@normalize_type _ t ns name None [] None
             (@purl_type_lower_case scheme t Htype)).
  repeat split; [exact Hparts|exact Htype|]. now apply scheme_of_purl_type.
Qed.

(** X2. Whenever [get_purl] returns a package URL, it is the one that the
    constructor builds from the type of the scheme and from a namespace
    and a name which, joined by slashes, are the segments of the slug
    after the scheme, all of them and in order. The name is not empty,
    and no version, qualifiers or subpath are given to the constructor. *)
Theorem get_purl_keeps_segments (package_slug : string) (purl : PackageURL) :
  get_purl package_slug = Return (Some purl) ->
  exists scheme rest purl_type namespace name,
    filter not_empty (Py.split "/" package_slug) = scheme :: rest /\
    Py.dict_get String.eqb PURL_TYPE_BY_GITLAB_SCHEME scheme = Some purl_type /\
    purl = normalize purl_type namespace name None [] None /\
    name <> "" /\
    path_of namespace name = Py.join "/" rest.
Proof. apply get_purl_arguments. Qed.

Lemma concat_truthy (sep first : string) (others : list string) :
  Py.truthy first = true -> Py.truthy (String.concat sep (first :: others)) = true.
Proof.
  destruct first as [|c first]; [discriminate|]. intros _.
  destruct others; reflexivity.
Qed.

Lemma last_truthy (l : list string) (d : string) :
  l <> [] -> Forall (fun x => Py.truthy x = true) l -> Py.truthy (last l d) = true.
Proof.
  induction l as [|a l IH]; [congruence|]. intros _ Hall.
  inversion Hall as [|? ? Ha Hl]; subst.
  destruct l as [|b l]; [exact Ha|]. apply IH; [discriminate|exact Hl].
Qed.

(** X23. The outcome of [get_purl] by the shape of the slug: it raises
    [IndexError] for a slug without a non-empty segment, [KeyError] for a
    first segment that is not a GitLab scheme and [ValueError] for the
    scheme [go] alone; it returns [None] for another scheme alone, and a
    package URL for a scheme that other segments follow. *)
Theorem get_purl_outcome (package_slug : string) :
  match filter not_empty (Py.split "/" package_slug) with
  | [] => get_purl package_slug = Raise IndexError
  | scheme :: rest =>
      match Py.dict_get String.eqb PURL_TYPE_BY_GITLAB_SCHEME scheme with
      | None => get_purl package_slug = Raise KeyError
      | Some _ =>
          match rest with
          | [] => get_purl package_slug =
                  if String.eqb scheme "go" then Raise ValueError
                  else Return None
          | _ :: _ => exists purl, get_purl package_slug = Return (Some purl)
          end
      end
  end.
Proof.
  unfold get_purl.
  assert (Hall : Forall (fun x => Py.truthy x = true)
                        (filter not_empty (Py.split "/" package_slug))).
  { apply Forall_forall. intros x Hx. now apply filter_In in Hx. }
  destruct (filter not_empty (Py.split "/" package_slug)) as [|scheme rest];
    [reflexivity|].
  destruct (Py.dict_get String.eqb PURL_TYPE_BY_GITLAB_SCHEME scheme)
    as [t|] eqn:Htype; [|reflexivity].
  assert (Ht := @lower_case_word_truthy t (@purl_type_lower_case scheme t Htype)).
  inversion Hall as [|? ? _ Hrest]; subst.
  destruct rest as [|name rest].
  - destruct (String.eqb scheme "go"); [|reflexivity].
    unfold PackageURL_new. rewrite Ht. reflexivity.
  - inversion Hrest as [|? ? Hname Hrest']; subst.
    destruct (String.eqb scheme "go").
    { rewrite PackageURL_new_named;
        [eexists; reflexivity|exact Ht|now apply concat_truthy]. }
    destruct rest as [|x rest].
    + cbn [List.length Nat.eqb nth].
      rewrite PackageURL_new_named by assumption. eexists; reflexivity.
    + cbn [List.length Nat.eqb Nat.leb].
      rewrite PackageURL_new_named;
        [eexists; reflexivity|exact Ht|].
      change (last (scheme :: name :: x :: rest) "")
        with (last (name :: x :: rest) "").
      apply last_truthy; [discriminate|exact Hrest].
Qed.

End SlugFacts.

Section SlugScenarios.
Existing Instance scenario.purls.

Import gitlab.

Lemma get_purl_scheme_round_trip_witness :
  exists scheme rest,
    filter not_empty (Py.split "/" "nuget/github/user/abc/NuGet.Core")
    = scheme :: rest /\
    Py.dict_get String.eqb PURL_TYPE_BY_GITLAB_SCHEME scheme = Some "nuget" /\
    Py.dict_get String.eqb GITLAB_SCHEME_BY_PURL_TYPE "nuget" = Some scheme.
Proof.
  apply (@get_purl_scheme_round_trip scenario.purls
           "nuget/github/user/abc/NuGet.Core"
           (PackageURL_of "nuget" (Some "github/user/abc") "NuGet.Core" None)).
  reflexivity.
Defined.

Lemma get_purl_keeps_segments_witness :
  exists scheme rest purl_type namespace name,
    filter not_empty (Py.split "/" "//nuget/github//user/abc/NuGet.Core/")
    = scheme :: rest /\
    Py.dict_get String.eqb PURL_TYPE_BY_GITLAB_SCHEME scheme = Some purl_type /\
    PackageURL_of "nuget" (Some "github/user/abc") "NuGet.Core" None
    = normalize purl_type namespace name None [] None /\
    name <> "" /\
    path_of namespace name = Py.join "/" rest.
Proof.
  apply (@get_purl_keeps_segments scenario.purls
           "//nuget/github//user/abc/NuGet.Core/"
           (PackageURL_of "nuget" (Some "github/user/abc") "NuGet.Core" None)).
  reflexivity.
Defined.

(** The constructor at work: the name of a [pypi] package is put in lower
    case with [-] for [_], and the scheme [go] alone has no name to give. *)
Example get_purl_normalises :
  get_purl "pypi/Django_Foo" =
  Return (Some (PackageURL_of "pypi" None "django-foo" None)) /\
  get_purl "go" = Raise ValueError.
Proof. split; reflexivity. Qed.

End SlugScenarios.

(** ** Advisory files *)

Section ImporterExtras.
Context `{PL : PackageURLs} `{U : Univers} `{D : Dates}
        `{R : importer.ReferenceAPI}.

Import importer gitlab.

(** The file [g] with another range and other fixed versions. *)
Definition with_range_and_fixes (g : GitlabAdvisory) (range : option string)
           (fixes : option (list string)) : GitlabAdvisory :=
  mkGitlabAdvisory (identifiers g) (title g) (description g) (urls g)
                   (pubdate g) fixes range (package_slug g).

(** What an advisory says besides its affected packages. *)
Definition header (adv : AdvisoryData VersionRange Version datetime)
  : option (list string) * string * list Reference * option datetime :=
  (aliases adv, summary adv, references adv, date_published adv).

(** The outcome of [parse_yaml_file] without the affected packages. *)
Definition header_of
           (outcome : result (option (AdvisoryData VersionRange Version datetime)))
  : result (option (option (list string) * string * list Reference
                    * option datetime)) :=
  match outcome with
  | Return (Some adv) => Return (Some (header adv))
  | Return None => Return None
  | Raise e => Raise e
  end.

(** The fixed versions the records carry, in the order of the records. *)
Definition fixed_versions_of_records
           (pkgs : list (AffectedPackage VersionRange Version)) : list Version :=
  flat_map (fun pkg => match fixed_version pkg with
                       | Some v => [v]
                       | None => []
                       end) pkgs.

(** An advisory that [parse_yaml_file] returns for a file: its header
    comes from the keys of the file, and its affected packages are none
    for a slug of one scheme alone, and otherwise those of the last [if]
    for the URL of the slug. *)
Lemma parse_yaml_file_inv g adv :
  parse_yaml_file (Some g) = Return (Some adv) ->
  exists t d us dt dt' slug,
    title g = Some t /\ description g = Some d /\ urls g = Some us /\
    dateparser_parse (pubdate g) = Return dt /\ utc_localize dt = Return dt' /\
    package_slug g = Some slug /\
    header adv = (identifiers g, Py.join ". " [t; d],
                  map Reference_from_url us, Some dt') /\
    ((get_purl slug = Return None /\ affected_packages adv = []) \/
     exists purl vrc scheme,
       get_purl slug = Return (Some purl) /\
       RANGE_CLASS_BY_SCHEMES (purl_type purl) = Some vrc /\
       Py.dict_get String.eqb GITLAB_SCHEME_BY_PURL_TYPE (purl_type purl)
       = Some scheme /\
       affected_packages adv =
       affected_packages_of
         (affected_version_range_of vrc scheme (affected_range g))
         (parse_fixed_versions vrc (fixed_versions g)) purl).
Proof.
  unfold parse_yaml_file, bind.
  destruct (title g) as [t|]; [|discriminate].
  destruct (description g) as [d|]; [|discriminate].
  destruct (urls g) as [us|]; [|discriminate].
  destruct (dateparser_parse (pubdate g)) as [dt|]; [|discriminate].
  destruct (utc_localize dt) as [dt'|] eqn:Hloc; [|discriminate].
  destruct (package_slug g) as [slug|]; [|discriminate].
  destruct (get_purl slug) as [[purl|]|] eqn:Hpurl; [| |discriminate].
  - destruct (RANGE_CLASS_BY_SCHEMES (purl_type purl)) as [vrc|] eqn:Hvrc;
      [|discriminate].
    destruct (Py.dict_get String.eqb GITLAB_SCHEME_BY_PURL_TYPE (purl_type purl))
      as [scheme|] eqn:Hscheme; [|discriminate].
    intros H. injection H as <-.
    exists t, d, us, dt, dt', slug. repeat (split; [first [reflexivity|assumption]|]).
    right. exists purl, vrc, scheme.
    repeat (split; [first [reflexivity|assumption]|]). reflexivity.
  - intros H. injection H as <-.
    exists t, d, us, dt, dt', slug. repeat (split; [first [reflexivity|assumption]|]).
    left. now split.
Qed.

Lemma affected_packages_of_uniform range fixed purl pkg :
  In pkg (affected_packages_of range fixed purl) ->
  package pkg = purl /\ affected_version_range pkg = range.
Proof.
  unfold affected_packages_of. destruct fixed as [|v fixed].
  - destruct range as [r|]; [|intros []].
    intros [<-|[]]. now split.
  - intros Hin.
    assert (H := extract_affected_packages_payload range (v :: fixed) purl).
    rewrite Forall_forall in H. destruct (H _ Hin) as (Hp & Hr & _). now split.
Qed.

Lemma affected_packages_of_fixed_versions range fixed purl :
  fixed_versions_of_records (affected_packages_of range fixed purl) = fixed.
Proof.
  unfold affected_packages_of, fixed_versions_of_records.
  destruct fixed as [|v fixed].
  - destruct range; reflexivity.
  - unfold extract_affected_packages.
    induction (v :: fixed) as [|x l IH]; [reflexivity|].
    simpl. f_equal. exact IH.
Qed.

(** X3. All the records of affected package of an advisory that
    [parse_yaml_file] returns for a file are records of one package, the
    one [get_purl] gives for the slug of the file, and carry one and the
    same range. *)
Theorem parse_yaml_file_uniform_records g adv :
  parse_yaml_file (Some g) = Return (Some adv) ->
  exists slug,
    package_slug g = Some slug /\
    (forall pkg, In pkg (affected_packages adv) ->
                 get_purl slug = Return (Some (package pkg))) /\
    (forall pkg pkg', In pkg (affected_packages adv) ->
                      In pkg' (affected_packages adv) ->
                      affected_version_range pkg = affected_version_range pkg').
Proof.
  intros Hparse.
  destruct (parse_yaml_file_inv _ Hparse)
    as (t & d & us & dt & dt' & slug & _ & _ & _ & _ & _ & Hslug & _ & Hpkgs).
  exists slug. split; [exact Hslug|].
  destruct Hpkgs as [[_ ->]|(purl & vrc & scheme & Hpurl & _ & _ & ->)].
  - split; [intros pkg []|intros pkg pkg' []].
  - split.
    + intros pkg Hin.
      destruct (affected_packages_of_uniform _ _ _ _ Hin) as [-> _]. exact Hpurl.
    + intros pkg pkg' Hin Hin'.
      destruct (affected_packages_of_uniform _ _ _ _ Hin) as [_ ->].
      destruct (affected_packages_of_uniform _ _ _ _ Hin') as [_ ->].
      reflexivity.
Qed.

(** X4. The fixed versions that the records of a returned advisory carry
    are the listed fixed versions that [version_class] accepts, each once
    and in the order of the list: a version that does not parse is left
    out and none is added. This holds of every advisory returned for a
    slug with a package URL; the advisory of a slug without one has no
    records. *)
Theorem parse_yaml_file_fixed_versions g adv :
  parse_yaml_file (Some g) = Return (Some adv) ->
  exists slug,
    package_slug g = Some slug /\
    match get_purl slug with
    | Return (Some purl) =>
        exists vrc : RangeClass VersionRange Version,
          RANGE_CLASS_BY_SCHEMES (purl_type purl) = Some vrc /\
          map Return (fixed_versions_of_records (affected_packages adv)) =
          filter (fun r => match r with Return _ => true | Raise _ => false end)
                 (map (version_class vrc)
                      (match fixed_versions g with Some l => l | None => [] end))
    | Return None => affected_packages adv = []
    | Raise _ => False
    end.
Proof.
  intros Hparse.
  destruct (parse_yaml_file_inv _ Hparse)
    as (t & d & us & dt & dt' & slug & _ & _ & _ & _ & _ & Hslug & _ & Hpkgs).
  exists slug. split; [exact Hslug|].
  destruct Hpkgs as [[-> ->]|(purl & vrc & scheme & -> & Hvrc & _ & ->)];
    [reflexivity|].
  exists vrc. split; [exact Hvrc|].
  rewrite affected_packages_of_fixed_versions.
  apply parse_fixed_versions_parsed.
Qed.

(** X5. An empty range string and an empty list of fixed versions are
    read as missing keys: [parse_yaml_file] gives the same outcome. *)
Theorem parse_yaml_file_empty_is_absent g range fixes :
  parse_yaml_file (Some (with_range_and_fixes g (Some "") fixes)) =
  parse_yaml_file (Some (with_range_and_fixes g None fixes)) /\
  parse_yaml_file (Some (with_range_and_fixes g range (Some []))) =
  parse_yaml_file (Some (with_range_and_fixes g range None)).
Proof.
  split; unfold parse_yaml_file, with_range_and_fixes, bind;
    cbn [identifiers title description urls pubdate fixed_versions
         affected_range package_slug];
    destruct (title g); try reflexivity;
    destruct (description g); try reflexivity;
    destruct (urls g); try reflexivity;
    destruct (dateparser_parse (pubdate g)) as [dt|]; try reflexivity;
    destruct (utc_localize dt); try reflexivity;
    destruct (package_slug g) as [slug|]; try reflexivity;
    destruct (get_purl slug) as [[purl|]|]; try reflexivity;
    destruct (RANGE_CLASS_BY_SCHEMES (purl_type purl)); try reflexivity;
    destruct (Py.dict_get String.eqb GITLAB_SCHEME_BY_PURL_TYPE (purl_type purl));
    reflexivity.
Qed.

(** X6. Whether [parse_yaml_file] raises, which exception it raises and
    whether it returns [None], as well as the aliases, summary, references
    and date of the advisory it returns, do not depend on the range and
    the fixed versions of the file: no range and no fixed version, parsable
    or not, makes it raise. *)
Theorem parse_yaml_file_header_independent g range fixes range' fixes' :
  header_of (parse_yaml_file (Some (with_range_and_fixes g range fixes))) =
  header_of (parse_yaml_file (Some (with_range_and_fixes g range' fixes'))).
Proof.
  unfold parse_yaml_file, with_range_and_fixes, bind;
    cbn [identifiers title description urls pubdate fixed_versions
         affected_range package_slug].
  destruct (title g); try reflexivity;
    destruct (description g); try reflexivity;
    destruct (urls g); try reflexivity;
    destruct (dateparser_parse (pubdate g)) as [dt|]; try reflexivity;
    destruct (utc_localize dt); try reflexivity;
    destruct (package_slug g) as [slug|]; try reflexivity;
    destruct (get_purl slug) as [[purl|]|]; try reflexivity;
    destruct (RANGE_CLASS_BY_SCHEMES (purl_type purl)); try reflexivity;
    destruct (Py.dict_get String.eqb GITLAB_SCHEME_BY_PURL_TYPE (purl_type purl));
    reflexivity.
Qed.

Lemma get_purl_no_version (package_slug : string) (purl : PackageURL) :
  get_purl package_slug = Return (Some purl) -> strip_version purl = purl.
Proof.
  intros Hpurl.
  destruct (get_purl_arguments _ Hpurl)
    as (scheme & rest & t & ns & name & _ & _ & -> & _).
  assert (H := normalize_no_version t ns name [] None).
  destruct (normalize t ns name None [] None). simpl in H. subst.
  reflexivity.
Qed.

(** X7. The affected packages of an advisory that [parse_yaml_file]
    returns for a file never raise [UnMergeablePackageError]: when there
    are any, they merge, and the package they merge into is the package
    URL that [get_purl] gives for the slug of the file. *)
Theorem parse_yaml_file_merges g adv :
  parse_yaml_file (Some g) = Return (Some adv) ->
  affected_packages adv = [] \/
  exists slug purl ranges fixed,
    package_slug g = Some slug /\
    get_purl slug = Return (Some purl) /\
    merge (affected_packages adv) = Return (Some (purl, ranges, fixed)).
Proof.
  intros Hparse.
  destruct (parse_yaml_file_inv _ Hparse)
    as (t & d & us & dt & dt' & slug & _ & _ & _ & _ & _ & Hslug & _ & Hpkgs).
  destruct Hpkgs as [[_ ->]|(purl & vrc & scheme & Hpurl & _ & _ & ->)];
    [now left|].
  destruct (affected_packages_of _ _ purl) as [|first others] eqn:Hpkgs;
    [now left|].
  right. exists slug, purl.
  assert (Hall : forall pkg, In pkg (first :: others) -> package pkg = purl).
  { intros pkg Hin. rewrite <- Hpkgs in Hin.
    now destruct (affected_packages_of_uniform _ _ _ _ Hin). }
  unfold merge.
  replace (forallb _ others) with true.
  - rewrite (Hall first) by now left.
    rewrite (get_purl_no_version _ Hpurl). eauto.
  - symmetry. apply forallb_forall. intros pkg Hin.
    rewrite (Hall first) by now left.
    rewrite (Hall pkg) by now right.
    unfold same_identity.
    destruct (identity_eq_dec (identity purl) (identity purl)); congruence.
Qed.

End ImporterExtras.

(** ** The walk through the advisory repository *)

Section RepositoryExtras.
Context `{PL : PackageURLs} `{U : Univers} `{D : Dates} `{R : importer.ReferenceAPI}
        `{C : gitlab.Checkout}.

Import importer gitlab.

(** The loop over the files yields the outcomes of the files before the
    first one that raises, and is ended by the exception of that file. *)
Lemma yield_files_prefix (files : list string) :
  map Return (fst (yield_files files)) =
  map parse_yaml_file_at (firstn (List.length (fst (yield_files files))) files) /\
  match snd (yield_files files) with
  | None => List.length (fst (yield_files files)) = List.length files
  | Some e =>
      nth_error (map parse_yaml_file_at files)
                (List.length (fst (yield_files files))) = Some (Raise e)
  end.
Proof.
  induction files as [|file files IH]; [now split|].
  cbn [yield_files].
  destruct (parse_yaml_file_at file) as [item|e] eqn:Hfile.
  - destruct (yield_files files) as [items raised].
    cbn [fst snd List.length firstn map nth_error] in *.
    destruct IH as [IH1 IH2]. split.
    + rewrite Hfile. f_equal. exact IH1.
    + destruct raised; [exact IH2|now f_equal].
  - cbn [fst snd List.length firstn map nth_error]. rewrite Hfile. now split.
Qed.

(** X8. [advisory_data] raises [ForkError] without a yield when the clone
    fails. Otherwise it goes through the files of the seven ecosystem
    directories in order and yields what [parse_yaml_file] returns for
    each, until a file raises: the exception of that file ends the
    generator, the outcomes of the files before it have been yielded and
    no later file is read. Without such a file every file is yielded. *)
Theorem advisory_data_stops_at_first_error :
  match fork_and_get_dir gitlab_url with
  | Raise _ => advisory_data = ([], Some (ForkError gitlab_url))
  | Return fork_directory =>
      let files := advisory_files fork_directory in
      let yielded := fst advisory_data in
      map Return yielded =
      map parse_yaml_file_at (firstn (List.length yielded) files) /\
      match snd advisory_data with
      | None => List.length yielded = List.length files
      | Some (FileError e) =>
          nth_error (map parse_yaml_file_at files) (List.length yielded)
          = Some (Raise e)
      | Some (ForkError _) => False
      end
  end.
Proof.
  unfold advisory_data.
  destruct (fork_and_get_dir gitlab_url) as [dir|e]; [|reflexivity].
  destruct (yield_files_prefix (advisory_files dir)) as [H1 H2].
  destruct (yield_files (advisory_files dir)) as [items raised]. simpl in *.
  split; [exact H1|]. destruct raised; exact H2.
Qed.

End RepositoryExtras.

(** ** The cache of fetchers *)

Section DictFacts.
Variables (K V : Type) (eqb : K -> K -> bool).
Hypothesis eqb_eq : forall a b, eqb a b = true <-> a = b.

Lemma eqb_refl_true (k : K) : eqb k k = true.
Proof. now apply eqb_eq. Qed.

Lemma eqb_neq_false (a b : K) : a <> b -> eqb a b = false.
Proof.
  intros Hne. destruct (eqb a b) eqn:H; [|reflexivity].
  apply eqb_eq in H. contradiction.
Qed.

Lemma dict_get_set_same (d : list (K * V)) (k : K) (v : V) :
  Py.dict_get eqb (Py.dict_set eqb d k v) k = Some v.
Proof.
  induction d as [|[k' v'] d IH]; simpl.
  - now rewrite eqb_refl_true.
  - destruct (eqb k k') eqn:Hk; simpl; rewrite Hk; [reflexivity|exact IH].
Qed.

Lemma dict_get_set_other (d : list (K * V)) (k k' : K) (v : V) :
  k' <> k ->
  Py.dict_get eqb (Py.dict_set eqb d k v) k' = Py.dict_get eqb d k'.
Proof.
  intros Hne. induction d as [|[k0 v0] d IH]; simpl.
  - now rewrite eqb_neq_false.
  - destruct (eqb k k0) eqn:Hk; simpl.
    + apply eqb_eq in Hk. subst k0. now rewrite eqb_neq_false.
    + destruct (eqb k' k0); [reflexivity|exact IH].
Qed.

End DictFacts.

Lemma purl_eqb_eq (a b : PackageURL) : purl_eqb a b = true <-> a = b.
Proof.
  unfold purl_eqb. destruct (PackageURL_eq_dec a b); split; congruence.
Qed.

Section CacheExtras.
Context `{U : Univers} `{D : Dates} `{PM : @PackageManagers D} `{VO : VersionOrder}.

Import importer improver gitlab.

(** The fetcher that is cached for a package. *)
Definition cached_fetcher (self : GitLabBasicImprover VersionAPI)
           (purl : PackageURL) : option VersionAPI :=
  Py.dict_get purl_eqb (versions_fetcher_by_purl self) purl.

(** The fetcher that serves a lookup: the cached one, or a new one of the
    class of the package type when none is cached. *)
Definition serving_fetcher (self : GitLabBasicImprover VersionAPI)
           (purl : PackageURL) : option VersionAPI :=
  match cached_fetcher self purl with
  | Some fetcher => Some fetcher
  | None => VERSION_API_CLASSES_BY_PACKAGE_TYPE (purl_type purl)
  end.

Lemma cached_fetcher_set_same self purl fetcher :
  cached_fetcher (set_fetcher self purl fetcher) purl = Some fetcher.
Proof. apply dict_get_set_same. exact purl_eqb_eq. Qed.

Lemma cached_fetcher_set_other self purl fetcher other :
  other <> purl ->
  cached_fetcher (set_fetcher self purl fetcher) other = cached_fetcher self other.
Proof. apply dict_get_set_other. exact purl_eqb_eq. Qed.

(** A lookup that is served by a fetcher: its answer and the improver it
    leaves. *)
Lemma get_package_versions_served self purl until api_name fetcher :
  get_api_package_name purl = Some api_name -> Py.truthy api_name = true ->
  serving_fetcher self purl = Some fetcher ->
  exists self1,
    get_package_versions self purl until =
    (fst (get_until fetcher api_name until),
     set_fetcher self1 purl (snd (get_until fetcher api_name until))) /\
    (self1 = self \/ self1 = set_fetcher self purl fetcher).
Proof.
  intros Hname Htruthy Hserve.
  unfold get_package_versions, serving_fetcher, cached_fetcher in *.
  rewrite Hname, Htruthy. simpl.
  destruct (Py.dict_get purl_eqb (versions_fetcher_by_purl self) purl)
    as [cached|].
  - injection Hserve as ->. exists self.
    destruct (get_until fetcher api_name until). split; [reflexivity|now left].
  - rewrite Hserve. exists (set_fetcher self purl fetcher).
    destruct (get_until fetcher api_name until). split; [reflexivity|now right].
Qed.

Lemma get_package_versions_answer self purl until api_name fetcher :
  get_api_package_name purl = Some api_name -> Py.truthy api_name = true ->
  serving_fetcher self purl = Some fetcher ->
  fst (get_package_versions self purl until) =
  fst (get_until fetcher api_name until) /\
  cached_fetcher (snd (get_package_versions self purl until)) purl =
  Some (snd (get_until fetcher api_name until)).
Proof.
  intros Hname Htruthy Hserve.
  destruct (get_package_versions_served self purl until Hname Htruthy Hserve)
    as (self1 & -> & _).
  split; [reflexivity|]. apply cached_fetcher_set_same.
Qed.

(** X9. A lookup of the versions of a package with an API name is
    answered by the fetcher cached for the package, or by a new fetcher of
    the class of its type when none is cached. Afterwards that fetcher, as
    the lookup leaves it, is the one cached for the package. *)
Theorem get_package_versions_caches_fetcher self purl until api_name fetcher :
  get_api_package_name purl = Some api_name -> Py.truthy api_name = true ->
  serving_fetcher self purl = Some fetcher ->
  fst (get_package_versions self purl until) =
  fst (get_until fetcher api_name until) /\
  cached_fetcher (snd (get_package_versions self purl until)) purl =
  Some (snd (get_until fetcher api_name until)).
Proof. apply get_package_versions_answer. Qed.

(** X10. A second lookup for the same package is answered by the fetcher
    that the first lookup left in the cache: no other fetcher is made,
    and what the fetcher kept from the first lookup is there for the
    second. *)
Theorem get_package_versions_reuses_fetcher self purl until until' api_name
        fetcher :
  get_api_package_name purl = Some api_name -> Py.truthy api_name = true ->
  serving_fetcher self purl = Some fetcher ->
  fst (get_package_versions (snd (get_package_versions self purl until))
                            purl until') =
  fst (get_until (snd (get_until fetcher api_name until)) api_name until').
Proof.
  intros Hname Htruthy Hserve.
  destruct (get_package_versions_answer self purl until
              Hname Htruthy Hserve) as [_ Hcached].
  apply get_package_versions_answer; try assumption.
  unfold serving_fetcher. rewrite Hcached. reflexivity.
Qed.

Lemma get_package_versions_other self purl until other :
  other <> purl ->
  cached_fetcher (snd (get_package_versions self purl until)) other =
  cached_fetcher self other.
Proof.
  intros Hother. unfold get_package_versions.
  destruct (get_api_package_name purl) as [api_name|]; [|reflexivity].
  destruct (Py.truthy api_name); [|reflexivity]. simpl.
  destruct (Py.dict_get purl_eqb (versions_fetcher_by_purl self) purl)
    as [cached|].
  - destruct (get_until cached api_name until). simpl.
    now apply cached_fetcher_set_other.
  - destruct (VERSION_API_CLASSES_BY_PACKAGE_TYPE (purl_type purl)) as [fresh|];
      [|reflexivity].
    destruct (get_until fresh api_name until). simpl.
    rewrite cached_fetcher_set_other by exact Hother.
    now apply cached_fetcher_set_other.
Qed.

(** X11. A lookup for a package leaves the fetchers cached for the other
    packages as they are, whatever its outcome. *)
Theorem get_package_versions_frame self purl until other :
  other <> purl ->
  cached_fetcher (snd (get_package_versions self purl until)) other =
  cached_fetcher self other.
Proof. apply get_package_versions_other. Qed.

(** The name lookup of [get_inferences] leaves the other packages alone
    too. *)
Lemma resolve_pkg_name_frame self purl other :
  other <> purl ->
  cached_fetcher (snd (resolve_pkg_name self purl)) other =
  cached_fetcher self other.
Proof.
  intros Hother. unfold resolve_pkg_name.
  destruct (String.eqb (purl_type purl) "golang"); [|reflexivity].
  destruct (Py.dict_get purl_eqb (versions_fetcher_by_purl self) purl);
    [reflexivity|].
  simpl. now apply cached_fetcher_set_other.
Qed.

(** X12. For a Go package, [get_inferences] looks the versions up with the
    fetcher that was cached for the package or, when none was, with the
    [GoproxyVersionAPI] it has made and cached for the name lookup: the
    table of the fetcher classes is not consulted, so its [KeyError]
    cannot occur. *)
Theorem get_inferences_go_fetcher self purl until api_name :
  purl_type purl = "golang" ->
  get_api_package_name purl = Some api_name -> Py.truthy api_name = true ->
  let fetcher := match cached_fetcher self purl with
                 | Some cached => cached
                 | None => GoproxyVersionAPI
                 end in
  cached_fetcher (snd (resolve_pkg_name self purl)) purl = Some fetcher /\
  fst (get_package_versions (snd (resolve_pkg_name self purl)) purl until) =
  fst (get_until fetcher api_name until).
Proof.
  intros Hgo Hname Htruthy fetcher.
  assert (Hcached : cached_fetcher (snd (resolve_pkg_name self purl)) purl
                    = Some fetcher).
  { unfold resolve_pkg_name, fetcher, cached_fetcher. rewrite Hgo. simpl.
    destruct (Py.dict_get purl_eqb (versions_fetcher_by_purl self) purl)
      as [cached|] eqn:Hget; simpl.
    - exact Hget.
    - apply cached_fetcher_set_same. }
  split; [exact Hcached|].
  apply get_package_versions_answer; try assumption.
  unfold serving_fetcher. rewrite Hcached. reflexivity.
Qed.

(** X14. [get_inferences] leaves the fetchers cached for packages other
    than the one of the advisory as they are, whatever its outcome. *)
Theorem get_inferences_frame self advisory_data other :
  (forall purl ranges fixed,
      merge (affected_packages advisory_data) = Return (Some (purl, ranges, fixed)) ->
      other <> purl) ->
  cached_fetcher (snd (get_inferences self advisory_data)) other =
  cached_fetcher self other.
Proof.
  intros Hother. unfold get_inferences.
  destruct (affected_packages advisory_data) as [|first others]; [reflexivity|].
  destruct (merge (first :: others)) as [[[[purl ranges] fixed]|]|e'];
    [|reflexivity|destruct e'; reflexivity].
  specialize (Hother _ _ _ eq_refl).
  assert (H1 := resolve_pkg_name_frame self Hother).
  assert (H2 := get_package_versions_other (snd (resolve_pkg_name self purl))
                  (date_published advisory_data) Hother).
  destruct (resolve_pkg_name self purl) as [pkg_name self1]. simpl in *.
  destruct (get_package_versions self1 purl (date_published advisory_data))
    as [[versions|e'] self2]; simpl in *; congruence.
Qed.

End CacheExtras.

(** ** What an inference holds *)

(** The keys of a dictionary filled by the keys [l], in the order of
    their insertion: each key at its first occurrence, when it is not
    among the keys [seen] that are there already. *)
Fixpoint first_occurrences (seen l : list (option PackageURL))
  : list (option PackageURL) :=
  match l with
  | [] => []
  | k :: l' =>
      if in_dec opt_purl_eq_dec k seen then first_occurrences seen l'
      else k :: first_occurrences (seen ++ [k]) l'
  end.

Section InferenceExtras.
Context `{U : Univers} `{D : Dates} `{VO : VersionOrder}.

Import importer improver gitlab.

Lemma unique_patched_packages_keys pkgs : forall d,
  map fst (fold_left (fun d package =>
                        dict_append d (helpers.patched_package package)
                                    (helpers.vulnerable_package package))
                     pkgs d) =
  map fst d ++ first_occurrences (map fst d) (map helpers.patched_package pkgs).
Proof.
  induction pkgs as [|p pkgs IH]; intros d; simpl.
  - now rewrite app_nil_r.
  - rewrite IH, dict_append_keys.
    destruct (in_dec opt_purl_eq_dec (helpers.patched_package p) (map fst d));
      [reflexivity|].
    rewrite <- app_assoc. reflexivity.
Qed.

(** The pairs of a round: the vulnerable package of each is an affected
    version of the universe, and its patched package is the nearest fix
    among the unaffected versions. *)
Lemma matcher_pairs_spec pkg_type pkg_namespace pkg_name valid_versions range pair :
  In pair (matcher_pairs pkg_type pkg_namespace pkg_name valid_versions range) ->
  (exists v, In v valid_versions /\ range_contains range v = true /\
             helpers.vulnerable_package pair =
             PackageURL_of pkg_type pkg_namespace pkg_name (Some v)) /\
  nearest_fix
    (map (fun version => PackageURL_of pkg_type pkg_namespace pkg_name (Some version))
         (filter (fun v => negb (range_contains range v)) valid_versions))
    (helpers.vulnerable_package pair) (helpers.patched_package pair).
Proof.
  unfold matcher_pairs, helpers.resolve_version_range,
    helpers.nearest_patched_package. cbn [fst snd].
  intros Hin. apply in_map_iff in Hin as (p & <- & Hp). cbn [helpers.vulnerable_package helpers.patched_package].
  split.
  - apply in_map_iff in Hp as (v & <- & Hv).
    apply filter_In in Hv as [Hv Hc]. eauto.
  - apply nearest_fix_found.
Qed.

(** X15. Every inference of the round of a range lists at least one
    affected package. Each package it lists is the package of the advisory
    at a version of the universe that the range contains. Its fixed
    package, when it has one, is the package at a version of the universe
    that the range does not contain and that is strictly greater than the
    version of every package it lists; when it has none, no version of the
    universe outside the range is greater than a version it lists. *)
Theorem inferences_of_range_contents advisory_data pkg_type pkg_namespace
        pkg_name valid_versions range inf :
  In inf (inferences_of_range advisory_data pkg_type pkg_namespace pkg_name
                              valid_versions range) ->
  affected_purls inf <> [] /\
  (forall p, In p (affected_purls inf) ->
     exists v, In v valid_versions /\ range_contains range v = true /\
               p = PackageURL_of pkg_type pkg_namespace pkg_name (Some v)) /\
  match fixed_purl inf with
  | Some fixed =>
      exists v, In v valid_versions /\ range_contains range v = false /\
                fixed = PackageURL_of pkg_type pkg_namespace pkg_name (Some v) /\
                forall p, In p (affected_purls inf) ->
                          vltb (version_of p) v = true
  | None =>
      forall p v, In p (affected_purls inf) -> In v valid_versions ->
                  range_contains range v = false ->
                  vltb (version_of p) v = false
  end.
Proof.
  intros Hin.
  destruct (inferences_of_range_grouped advisory_data pkg_type pkg_namespace
              pkg_name valid_versions range) as (_ & Hkeys & Haff & _).
  set (pairs := matcher_pairs pkg_type pkg_namespace pkg_name valid_versions
                              range) in *.
  assert (Hlisted : forall p, In p (affected_purls inf) ->
            exists pair, In pair pairs /\
                         helpers.patched_package pair = fixed_purl inf /\
                         helpers.vulnerable_package pair = p).
  { intros p Hp. rewrite (Haff _ Hin) in Hp. now apply in_vulnerable_of_fix. }
  split; [|split].
  - assert (Hk : In (fixed_purl inf) (map helpers.patched_package pairs)).
    { apply Hkeys. now apply in_map. }
    apply in_map_iff in Hk as (pair & Hk & Hpair).
    rewrite (Haff _ Hin). intros Hnil.
    assert (Hv : In (helpers.vulnerable_package pair)
                    (vulnerable_of_fix pairs (fixed_purl inf))).
    { apply in_vulnerable_of_fix. exists pair. now repeat split. }
    rewrite Hnil in Hv. exact Hv.
  - intros p Hp. destruct (Hlisted p Hp) as (pair & Hpair & _ & <-).
    now destruct (matcher_pairs_spec _ _ _ _ _ _ Hpair).
  - destruct (fixed_purl inf) as [fixed|] eqn:Hfixed.
    + assert (Hk : In (Some fixed) (map helpers.patched_package pairs)).
      { apply Hkeys. rewrite <- Hfixed. now apply in_map. }
      apply in_map_iff in Hk as (pair & Hk & Hpair).
      destruct (matcher_pairs_spec _ _ _ _ _ _ Hpair) as [_ Hfix].
      rewrite Hk in Hfix. destruct Hfix as (HinR & _ & _).
      apply in_map_iff in HinR as (v & <- & Hv).
      apply filter_In in Hv as [Hv Hc]. apply negb_true_iff in Hc.
      exists v. repeat split; try assumption.
      intros p Hp. destruct (Hlisted p Hp) as (pair' & Hpair' & Hk' & <-).
      destruct (matcher_pairs_spec _ _ _ _ _ _ Hpair') as [_ Hfix'].
      rewrite Hk' in Hfix'. destruct Hfix' as (_ & Hlt & _). exact Hlt.
    + intros p v Hp Hv Hc. destruct (Hlisted p Hp) as (pair & Hpair & Hk & <-).
      destruct (matcher_pairs_spec _ _ _ _ _ _ Hpair) as [_ Hfix].
      rewrite Hk in Hfix. simpl in Hfix.
      change v with (version_of (PackageURL_of pkg_type pkg_namespace pkg_name
                                               (Some v))).
      apply Hfix. apply in_map_iff. exists v. split; [reflexivity|].
      apply filter_In. split; [exact Hv|]. now rewrite Hc.
Qed.

(** X16. The inferences of the round of a range are yielded in the order
    in which their fixed packages first occur among the pairs of the
    matcher. *)
Theorem inferences_of_range_order advisory_data pkg_type pkg_namespace pkg_name
        valid_versions range :
  map fixed_purl
      (inferences_of_range advisory_data pkg_type pkg_namespace pkg_name
                           valid_versions range) =
  first_occurrences []
    (map helpers.patched_package
         (matcher_pairs pkg_type pkg_namespace pkg_name valid_versions range)).
Proof.
  rewrite inferences_of_range_unfold, map_map. cbn [fixed_purl from_advisory_data].
  unfold unique_patched_packages_with_affected_packages.
  change (map (fun item : option PackageURL * list PackageURL => fst item))
    with (@map (option PackageURL * list PackageURL) _ fst).
  now rewrite unique_patched_packages_keys.
Qed.

End InferenceExtras.

(** ** The rows of a PostgreSQL page *)

(** The qualifiers of the packages of a row: those of Windows when the
    summary of the row mentions it, in whatever case. *)
Definition qualifiers_of (summary : string) : list (string * string) :=
  if Py.contains "windows" (Py.lower summary) then [("os", "windows")] else [].

(** The URL of the reference of a link: a link that starts with a slash
    is joined to the base URL, another link is taken as it is. *)
Definition reference_url `{postgresql.UrlLib} (link : string) : string :=
  if Py.startswith "/" link then postgresql.urljoin postgresql.BASE_URL link
  else link.

Section PostgresqlExtras.
Context `{PL : PackageURLs} `{VO : VersionOrder} `{UL : postgresql.UrlLib}.

Import importer postgresql.

Lemma split_not_nil (sep : ascii) (s : string) : Py.split sep s <> [].
Proof.
  induction s as [|c s IH]; simpl; [discriminate|].
  destruct (Ascii.eqb c sep); [discriminate|].
  destruct (Py.split sep s); [congruence|discriminate].
Qed.

(** The advisory of a row, when the round of the row gives one. *)
Lemma advisory_of_row_inv locals row adv locals' :
  advisory_of_row locals row = Return (adv, locals') ->
  exists c1 c2 c3 c4 c5 refs id,
    row = [c1; c2; c3; c4; c5] /\
    references_of (anchors c1) (hd_error (anchors c4)) (severities locals)
    = Return refs /\
    adv = mkAdvisory id (cell_text c5) (fst refs)
            (helpers.nearest_patched_package
               (map (postgresql_purl (qualifiers_of (cell_text c5)))
                    (Py.split "," (cell_text c2)))
               (map (postgresql_purl (qualifiers_of (cell_text c5)))
                    (filter Py.truthy (Py.split "," (cell_text c3))))) /\
    locals' = mkLocals (Some id) (snd refs).
Proof.
  unfold advisory_of_row.
  destruct row as [|c1 [|c2 [|c3 [|c4 [|c5 [|c6 row]]]]]]; try discriminate.
  unfold bind.
  destruct (references_of (anchors c1) (hd_error (anchors c4)) (severities locals))
    as [refs|] eqn:Hrefs; [|discriminate].
  fold (qualifiers_of (cell_text c5)).
  destruct (match nobr c1 with first :: _ => Some first | [] => cve_id locals end)
    as [id|] eqn:Hid; [|discriminate].
  intros H. injection H as <- <-.
  exists c1, c2, c3, c4, c5, refs, id. repeat split. exact Hrefs.
Qed.

(** Every advisory of the loop over the rows is the advisory of its row
    in some round. *)
Lemma advisories_of_rows_each rows : forall locals advs,
  advisories_of_rows locals rows = Return advs ->
  Forall2 (fun row adv => exists before after,
                            advisory_of_row before row = Return (adv, after))
          rows advs.
Proof.
  induction rows as [|row rows IH]; intros locals advs; simpl.
  - intros H. injection H as <-. constructor.
  - unfold bind.
    destruct (advisory_of_row locals row) as [[adv locals']|] eqn:Hrow;
      [|discriminate].
    simpl. destruct (advisories_of_rows locals' rows) as [rest|] eqn:Hrest;
      [|discriminate].
    intros H. injection H as <-. constructor; [eauto|].
    eapply IH. exact Hrest.
Qed.

(** The references of the links: one for each link, with the URL of the
    link. *)
Lemma references_of_urls a_tags vector_link_tag :
  forall severities refs,
    references_of a_tags vector_link_tag severities = Return refs ->
    map (fun r => Some (url r, reference_id r)) (fst refs) =
    map (fun a_tag => option_map (fun link => (reference_url link, ""))
                                 (href a_tag)) a_tags.
Proof.
  induction a_tags as [|a_tag a_tags IH]; intros sevs refs;
    cbn [references_of map].
  - intros H. injection H as <-. reflexivity.
  - destruct (href a_tag) as [link|]; [|discriminate].
    unfold bind.
    destruct (Py.startswith "/" link) eqn:Hslash.
    + destruct (link_severities (urljoin BASE_URL link) vector_link_tag)
        as [found|]; [|discriminate].
      cbn [fst snd].
      destruct (references_of a_tags vector_link_tag (Some found))
        as [rest|] eqn:Hrest; [|discriminate].
      intros H. injection H as <-.
      cbn [fst map url reference_id option_map]. rewrite (IH _ _ Hrest).
      unfold reference_url. rewrite Hslash. reflexivity.
    + cbn [fst snd]. destruct sevs as [carried|]; [|discriminate].
      destruct (references_of a_tags vector_link_tag (Some carried))
        as [rest|] eqn:Hrest; [|discriminate].
      intros H. injection H as <-.
      cbn [fst map url reference_id option_map]. rewrite (IH _ _ Hrest).
      unfold reference_url. rewrite Hslash. reflexivity.
Qed.

(** X17. When [to_advisories] returns, it returns one advisory for each
    row of the first table, in the order of the rows. Every row has
    exactly five cells, the summary of its advisory is the text of the
    fifth, and the advisory has one reference for each link of the first
    cell, in order, with the URL of the link, made absolute when the link
    starts with a slash, and without a reference id. *)
Theorem to_advisories_one_per_row table tables advs :
  to_advisories (table :: tables) = Return advs ->
  Forall2 (fun row adv =>
             exists c1 c2 c3 c4 c5,
               row = [c1; c2; c3; c4; c5] /\
               adv_summary adv = cell_text c5 /\
               map (fun r => Some (url r, reference_id r)) (adv_references adv) =
               map (fun a_tag => option_map (fun link => (reference_url link, ""))
                                            (href a_tag))
                   (anchors c1))
          table advs.
Proof.
  unfold to_advisories. intros Hrun.
  eapply Forall2_impl; [|eapply advisories_of_rows_each; exact Hrun].
  intros row adv (before & after & Hrow).
  destruct (advisory_of_row_inv _ _ Hrow)
    as (c1 & c2 & c3 & c4 & c5 & refs & id & -> & Hrefs & -> & _).
  exists c1, c2, c3, c4, c5. repeat split.
  simpl. eapply references_of_urls. exact Hrefs.
Qed.

(** X18. The affected packages of every advisory that [to_advisories]
    returns: there is one for each entry of the second cell of the row
    between commas, an empty entry included, so there is at least one; the
    vulnerable package of each is the package URL that the constructor
    builds for the entry, stripped, as a version of PostgreSQL; its
    patched package, if it has one, is the package URL built in the same
    way for a non-empty entry of the third cell, and is of a strictly
    greater version. All of them are built with the Windows qualifier
    when the summary of the row mentions Windows, and with no qualifier
    otherwise. *)
Theorem to_advisories_packages table tables advs :
  to_advisories (table :: tables) = Return advs ->
  Forall2 (fun row adv =>
             exists c1 c2 c3 c4 c5,
               row = [c1; c2; c3; c4; c5] /\
               let purl := postgresql_purl (qualifiers_of (cell_text c5)) in
               adv_affected_packages adv <> [] /\
               map helpers.vulnerable_package (adv_affected_packages adv) =
               map purl (Py.split "," (cell_text c2)) /\
               forall pair patched,
                 In pair (adv_affected_packages adv) ->
                 helpers.patched_package pair = Some patched ->
                 (exists entry, In entry (Py.split "," (cell_text c3)) /\
                                entry <> "" /\ patched = purl entry) /\
                 vltb (version_of (helpers.vulnerable_package pair))
                      (version_of patched) = true)
          table advs.
Proof.
  unfold to_advisories. intros Hrun.
  eapply Forall2_impl; [|eapply advisories_of_rows_each; exact Hrun].
  intros row adv (before & after & Hrow).
  destruct (advisory_of_row_inv _ _ Hrow)
    as (c1 & c2 & c3 & c4 & c5 & refs & id & -> & _ & -> & _).
  exists c1, c2, c3, c4, c5. split; [reflexivity|]. cbn zeta.
  cbn [adv_affected_packages].
  set (purl := postgresql_purl (qualifiers_of (cell_text c5))).
  assert (Hvuln : map helpers.vulnerable_package
                      (helpers.nearest_patched_package
                         (map purl (Py.split "," (cell_text c2)))
                         (map purl (filter Py.truthy (Py.split "," (cell_text c3)))))
                  = map purl (Py.split "," (cell_text c2))).
  { unfold helpers.nearest_patched_package. rewrite map_map. apply map_id. }
  split; [|split; [exact Hvuln|]].
  - intros Hnil. rewrite Hnil in Hvuln. simpl in Hvuln.
    symmetry in Hvuln. apply map_eq_nil in Hvuln.
    exact (split_not_nil _ _ Hvuln).
  - intros pair patched Hpair Hpatched.
    unfold helpers.nearest_patched_package in Hpair.
    apply in_map_iff in Hpair as (v & <- & _).
    cbn [helpers.vulnerable_package helpers.patched_package] in *.
    assert (Hfix := nearest_fix_found
                      (map purl (filter Py.truthy (Py.split "," (cell_text c3)))) v).
    cbv zeta in Hfix. rewrite Hpatched in Hfix.
    destruct Hfix as (Hin & Hlt & _). split; [|exact Hlt].
    apply in_map_iff in Hin as (entry & <- & Hentry).
    apply filter_In in Hentry as [Hentry Htruthy].
    exists entry. repeat split; [exact Hentry|].
    intros ->. discriminate Htruthy.
Qed.

Lemma last_cons_default (A : Type) (l : list A) : forall (x d : A),
  last (x :: l) d = last l x.
Proof.
  induction l as [|y l IH]; intros x d; [reflexivity|].
  change (last (x :: y :: l) d) with (last (y :: l) d).
  rewrite (IH y d), (IH y x). reflexivity.
Qed.

(** One round of the loop over the links. *)
Lemma references_of_step a_tag a_tags vector_link_tag sevs refs :
  references_of (a_tag :: a_tags) vector_link_tag sevs = Return refs ->
  exists link found tail,
    href a_tag = Some link /\
    references_of a_tags vector_link_tag (Some found) = Return tail /\
    refs = (mkReference "" (reference_url link) found :: fst tail, snd tail) /\
    (Py.startswith "/" link = false -> sevs = Some found).
Proof.
  cbn [references_of].
  destruct (href a_tag) as [link|]; [|discriminate].
  unfold bind, reference_url.
  destruct (Py.startswith "/" link) eqn:Hslash.
  - destruct (link_severities (urljoin BASE_URL link) vector_link_tag)
      as [found|]; [|discriminate].
    cbn [fst snd].
    destruct (references_of a_tags vector_link_tag (Some found))
      as [tail|] eqn:Htail; [|discriminate].
    intros H. injection H as <-.
    exists link, found, tail. rewrite Hslash.
    split; [reflexivity|]. split; [exact Htail|]. split; [reflexivity|].
    intros Hfalse. discriminate Hfalse.
  - cbn [fst snd]. destruct sevs as [carried|]; [|discriminate].
    destruct (references_of a_tags vector_link_tag (Some carried))
      as [tail|] eqn:Htail; [|discriminate].
    intros H. injection H as <-.
    exists link, carried, tail. rewrite Hslash.
    split; [reflexivity|]. split; [exact Htail|]. split; reflexivity.
Qed.

(** X19. In the loop over the links of a row, the reference of a link that
    does not start with a slash takes the severities of the reference
    before it, and at the head of the row the severities left by the rows
    before: the loop leaves the severities of its last reference to the
    next row. When no link has set them yet, the loop raises for the
    unbound local variable. *)
Theorem references_of_carries_severities :
  (forall a_tags vector_link_tag sevs refs,
      references_of a_tags vector_link_tag sevs = Return refs ->
      (forall i a_tag link r,
          nth_error a_tags i = Some a_tag -> href a_tag = Some link ->
          Py.startswith "/" link = false ->
          nth_error (fst refs) i = Some r ->
          Some (importer.severities r) =
          match i with
          | O => sevs
          | S j => option_map importer.severities (nth_error (fst refs) j)
          end) /\
      snd refs = match fst refs with
                 | [] => sevs
                 | first :: others => Some (importer.severities (last others first))
                 end) /\
  (forall a_tag a_tags vector_link_tag link,
      href a_tag = Some link -> Py.startswith "/" link = false ->
      references_of (a_tag :: a_tags) vector_link_tag None
      = Raise UnboundLocalError).
Proof.
  split.
  - induction a_tags as [|a_tag a_tags IH]; intros vector_link_tag sevs refs Hrun.
    + simpl in Hrun. injection Hrun as <-. split; [|reflexivity].
      intros [|i] a_tag link r H; discriminate H.
    + destruct (references_of_step _ _ _ _ Hrun)
        as (link & found & tail & Hlink & Htail & -> & Hcarried).
      destruct (IH _ _ _ Htail) as [IH1 IH2]. cbn [fst snd]. split.
      * intros [|i] a_tag' link' r Ha Hl Hs Hr; cbn [nth_error] in *.
        -- injection Ha as <-. injection Hr as <-.
           rewrite Hlink in Hl. injection Hl as <-.
           rewrite (Hcarried Hs). reflexivity.
        -- rewrite (IH1 i a_tag' link' r Ha Hl Hs Hr).
           destruct i; reflexivity.
      * rewrite IH2. destruct (fst tail) as [|first others]; [reflexivity|].
        now rewrite last_cons_default.
  - intros a_tag a_tags vector_link_tag link Hlink Hslash.
    cbn [references_of]. rewrite Hlink. unfold bind. rewrite Hslash.
    reflexivity.
Qed.

End PostgresqlExtras.

(** ** The crawl of the PostgreSQL pages *)

Section SetFacts.

Import postgresql.

Lemma set_mem_In (x : string) (s : list string) :
  set_mem x s = true <-> In x s.
Proof.
  unfold set_mem. rewrite existsb_exists. split.
  - intros (y & Hy & Heq). apply String.eqb_eq in Heq. now subst.
  - intros Hin. exists x. split; [exact Hin|apply String.eqb_refl].
Qed.

Lemma set_mem_not_In (x : string) (s : list string) :
  set_mem x s = false <-> ~ In x s.
Proof.
  rewrite <- set_mem_In. destruct (set_mem x s); split; congruence.
Qed.

Lemma set_add_In (s : list string) (x y : string) :
  In y (set_add s x) <-> In y s \/ y = x.
Proof.
  unfold set_add. destruct (set_mem x s) eqn:Hx.
  - apply set_mem_In in Hx. split; [tauto|]. intros [H| ->]; assumption.
  - rewrite in_app_iff. simpl. split.
    + intros [H|[<-|[]]]; auto.
    + intros [H| ->]; auto.
Qed.

Lemma set_add_NoDup (s : list string) (x : string) :
  NoDup s -> NoDup (set_add s x).
Proof.
  intros Hs. unfold set_add. destruct (set_mem x s) eqn:Hx; [exact Hs|].
  apply set_mem_not_In in Hx.
  eapply Permutation_NoDup; [apply Permutation_cons_append|].
  now constructor.
Qed.

Lemma set_update_In (xs : list string) : forall (s : list string) (y : string),
  In y (set_update s xs) <-> In y s \/ In y xs.
Proof.
  unfold set_update.
  induction xs as [|x xs IH]; intros s y; simpl; [tauto|].
  rewrite IH, set_add_In. intuition.
Qed.

Lemma set_update_NoDup (xs : list string) : forall s : list string,
  NoDup s -> NoDup (set_update s xs).
Proof.
  unfold set_update.
  induction xs as [|x xs IH]; intros s Hs; simpl; [exact Hs|].
  apply IH. now apply set_add_NoDup.
Qed.

Lemma set_diff_In (a b : list string) (x : string) :
  In x (set_diff a b) <-> In x a /\ ~ In x b.
Proof.
  unfold set_diff. rewrite filter_In, negb_true_iff, set_mem_not_In. tauto.
Qed.

Lemma set_eqb_true (a b : list string) :
  set_eqb a b = true <-> forall x, In x a <-> In x b.
Proof.
  unfold set_eqb. rewrite andb_true_iff, !forallb_forall. split.
  - intros [Hab Hba] x. split; intros Hx.
    + apply set_mem_In. now apply Hab.
    + apply set_mem_In. now apply Hba.
  - intros H. split; intros x Hx; apply set_mem_In; now apply H.
Qed.

End SetFacts.

Section CrawlExtras.
Context `{PL : PackageURLs} `{VO : VersionOrder} `{UL : postgresql.UrlLib}
        `{W : postgresql.Web}.

Import importer postgresql.

(** The advisories of the page at a URL. *)
Definition advisories_at (url : string) : list Advisory :=
  match requests_get url with
  | Return data =>
      match to_advisories (page_tables data) with
      | Return found => found
      | Raise _ => []
      end
  | Raise _ => []
  end.

(** The page at [url] links to [target]. *)
Definition links_to (url target : string) : Prop :=
  exists data links,
    requests_get url = Return data /\
    find_advisory_urls data = Return links /\ In target links.

(** What holds of the variables of the crawl between two requests. *)
Record crawl_invariant (state : Crawl) : Prop := {
  requested_once : NoDup (requested state);
  requested_visited : forall url, In url (requested state) <->
                                  In url (visited_urls state);
  visited_known : forall url, In url (visited_urls state) ->
                              In url (known_urls state);
  known_once : NoDup (known_urls state);
  root_known : In root_url (known_urls state);
  links_known : forall url target, In url (requested state) ->
                                   links_to url target ->
                                   In target (known_urls state);
  known_linked : forall target, In target (known_urls state) ->
                                target = root_url \/
                                exists url, In url (requested state) /\
                                            links_to url target;
  advisories_requested : advisories state =
                         flat_map advisories_at (requested state);
  requested_read : forall url, In url (requested state) ->
                     exists data,
                       requests_get url = Return data /\
                       to_advisories (page_tables data)
                       = Return (advisories_at url)
}.

Lemma crawl_invariant_start : crawl_invariant (mkCrawl [] [root_url] [] []).
Proof.
  constructor; simpl; try tauto.
  - constructor.
  - repeat constructor. intros [].
  - intros target [<-|[]]. now left.
Qed.

(** A visit of a known URL that has not been visited keeps the invariant;
    it requests the URL and forgets no known URL. *)
Lemma visit_invariant state url state' :
  crawl_invariant state ->
  In url (known_urls state) -> ~ In url (visited_urls state) ->
  visit state url = Return state' ->
  crawl_invariant state' /\
  requested state' = requested state ++ [url] /\
  (forall u, In u (known_urls state) -> In u (known_urls state')) /\
  (forall u, In u (visited_urls state') <-> In u (visited_urls state) \/ u = url).
Proof.
  intros Hinv Hknown Hnew. unfold visit, bind.
  destruct (requests_get url) as [data|] eqn:Hget; [|discriminate].
  destruct (to_advisories (page_tables data)) as [found|] eqn:Hfound;
    [|discriminate].
  destruct (find_advisory_urls data) as [links|] eqn:Hlinks; [|discriminate].
  intros H. injection H as <-. destruct Hinv.
  assert (Hat : advisories_at url = found).
  { unfold advisories_at. now rewrite Hget, Hfound. }
  split; [|split; [reflexivity|split]].
  - constructor; simpl.
    + eapply Permutation_NoDup; [apply Permutation_cons_append|].
      constructor; [|assumption]. now rewrite requested_visited0.
    + intros u. rewrite in_app_iff, set_add_In, requested_visited0. simpl.
      intuition.
    + intros u. rewrite set_add_In, set_update_In.
      intros [Hu| ->]; left; auto.
    + now apply set_update_NoDup.
    + apply set_update_In. now left.
    + intros u target Hu Hlink. apply set_update_In.
      apply in_app_iff in Hu as [Hu|[<-|[]]].
      * left. eapply links_known0; eassumption.
      * right. destruct Hlink as (data' & links' & Hget' & Hlinks' & Hin).
        rewrite Hget in Hget'. injection Hget' as <-.
        rewrite Hlinks in Hlinks'. injection Hlinks' as <-. exact Hin.
    + intros target Ht. apply set_update_In in Ht as [Ht|Ht].
      * destruct (known_linked0 _ Ht) as [->|(u & Hu & Hlink)]; [now left|].
        right. exists u. split; [|exact Hlink]. apply in_app_iff. now left.
      * right. exists url. split; [apply in_app_iff; right; now left|].
        exists data, links. now repeat split.
    + rewrite flat_map_app. simpl. rewrite app_nil_r, Hat.
      now rewrite advisories_requested0.
    + intros u Hu. apply in_app_iff in Hu as [Hu|[<-|[]]].
      * now apply requested_read0.
      * exists data. rewrite Hat. now split.
  - simpl. intros u Hu. apply set_update_In. now left.
  - simpl. intros u. apply set_add_In.
Qed.

Lemma visit_all_invariant urls : forall state state',
  crawl_invariant state -> NoDup urls ->
  (forall u, In u urls -> In u (known_urls state) /\ ~ In u (visited_urls state)) ->
  visit_all state urls = Return state' ->
  crawl_invariant state' /\
  requested state' = requested state ++ urls /\
  (forall u, In u (known_urls state) -> In u (known_urls state')) /\
  (forall u, In u (visited_urls state') <-> In u (visited_urls state) \/ In u urls).
Proof.
  induction urls as [|url urls IH]; intros state state' Hinv Hnd Hurls; simpl.
  - intros H. injection H as <-. rewrite app_nil_r.
    split; [exact Hinv|]. split; [reflexivity|]. split; [tauto|].
    intros u. tauto.
  - unfold bind. destruct (visit state url) as [state1|] eqn:Hvisit;
      [|discriminate].
    intros Hrest. inversion Hnd as [|? ? Hurl Hnd']; subst.
    destruct (Hurls url (or_introl eq_refl)) as [Hk Hv].
    destruct (@visit_invariant state url state1 Hinv Hk Hv Hvisit)
      as (Hinv1 & Hreq1 & Hkn1 & Hvis1).
    destruct (IH state1 state' Hinv1 Hnd') as (Hinv' & Hreq' & Hkn' & Hvis').
    + intros u Hu. destruct (Hurls u (or_intror Hu)) as [Hku Hvu].
      split; [now apply Hkn1|].
      rewrite Hvis1. intros [H| ->]; [contradiction|contradiction].
    + exact Hrest.
    + split; [exact Hinv'|]. split; [|split].
      * rewrite Hreq', Hreq1, <- app_assoc. reflexivity.
      * intros u Hu. apply Hkn'. now apply Hkn1.
      * intros u. rewrite Hvis', Hvis1. simpl. intuition.
Qed.

(** The URLs of a round: the known URLs that have not been visited, each
    once. *)
Lemma round_urls state :
  crawl_invariant state ->
  NoDup (set_order (set_diff (known_urls state) (visited_urls state))) /\
  forall u, In u (set_order (set_diff (known_urls state) (visited_urls state)))
            <-> In u (known_urls state) /\ ~ In u (visited_urls state).
Proof.
  intros Hinv. split.
  - eapply Permutation_NoDup; [symmetry; apply set_order_perm|].
    unfold set_diff. apply NoDup_filter. now destruct Hinv.
  - intros u. rewrite <- set_diff_In. split; apply Permutation_in;
      [apply set_order_perm|symmetry; apply set_order_perm].
Qed.

(** A crawl that breaks out of its loop leaves the invariant in place and
    has visited every known URL. *)
Lemma crawl_invariant_end fuel : forall state state',
  crawl_invariant state ->
  crawl fuel state = Some (Return state') ->
  crawl_invariant state' /\
  forall url, In url (known_urls state') <-> In url (visited_urls state').
Proof.
  induction fuel as [|fuel IH]; intros state state' Hinv; simpl; [discriminate|].
  destruct (round_urls Hinv) as [Hnd Hurls].
  destruct (visit_all state (set_order (set_diff (known_urls state)
                                                 (visited_urls state))))
    as [state1|] eqn:Hround; [|discriminate].
  destruct (@visit_all_invariant _ state state1 Hinv Hnd
              (fun u Hu => proj1 (Hurls u) Hu) Hround)
    as (Hinv1 & _).
  destruct (set_eqb (known_urls state1) (visited_urls state1)) eqn:Heq.
  - intros H. injection H as <-. split; [exact Hinv1|].
    now apply set_eqb_true.
  - now apply IH.
Qed.

(** X20. When the crawl of [updated_advisories] comes to its end, every
    URL has been requested at most once, the root page has been
    requested, every page that a requested page links to has been
    requested, and nothing else has: every requested URL is the root or
    the target of a link of a requested page. *)
Theorem updated_advisories_requests fuel state :
  updated_advisories fuel = Some (Return state) ->
  NoDup (requested state) /\
  In root_url (requested state) /\
  (forall url target, In url (requested state) -> links_to url target ->
                      In target (requested state)) /\
  (forall target, In target (requested state) ->
                  target = root_url \/
                  exists url, In url (requested state) /\ links_to url target).
Proof.
  unfold updated_advisories. intros Hrun.
  destruct (crawl_invariant_end _ crawl_invariant_start Hrun) as [Hinv Hall].
  destruct Hinv.
  assert (Hreq : forall u, In u (requested state) <-> In u (known_urls state)).
  { intros u. now rewrite requested_visited0, Hall. }
  repeat split.
  - assumption.
  - now apply Hreq.
  - intros url target Hurl Hlink. apply Hreq. eauto.
  - intros target Ht. apply known_linked0. now apply Hreq.
Qed.

(** X21. When the crawl comes to its end, the advisories it has collected
    are those of the requested pages, page after page in the order of the
    requests. *)
Theorem updated_advisories_collects fuel state :
  updated_advisories fuel = Some (Return state) ->
  advisories state = flat_map advisories_at (requested state) /\
  forall url, In url (requested state) ->
    exists data, requests_get url = Return data /\
                 to_advisories (page_tables data) = Return (advisories_at url).
Proof.
  unfold updated_advisories. intros Hrun.
  destruct (crawl_invariant_end _ crawl_invariant_start Hrun) as [Hinv _].
  destruct Hinv. now split.
Qed.

Lemma forallb_false_witness (A : Type) (f : A -> bool) (l : list A) :
  forallb f l = false -> exists x, In x l /\ f x = false.
Proof.
  induction l as [|a l IH]; simpl; [discriminate|].
  destruct (f a) eqn:Hfa; simpl.
  - intros H. destruct (IH H) as (x & Hx & Hfx). eauto.
  - intros _. eauto.
Qed.

(** A site: URLs that contain the root and every target of their links,
    and whose pages can all be read. *)
Definition closed_site (site : list string) : Prop :=
  In root_url site /\
  (forall url target, In url site -> links_to url target -> In target site) /\
  (forall url, In url site ->
     exists data found links,
       requests_get url = Return data /\
       to_advisories (page_tables data) = Return found /\
       find_advisory_urls data = Return links).

Lemma visit_all_returns site : closed_site site ->
  forall urls state,
    (forall u, In u urls -> In u site) ->
    (forall u, In u (known_urls state) -> In u site) ->
    exists state',
      visit_all state urls = Return state' /\
      (forall u, In u (known_urls state') -> In u site).
Proof.
  intros (_ & Hclosed & Hread).
  induction urls as [|url urls IH]; intros state Hurls Hknown; simpl.
  - eauto.
  - destruct (Hread url (Hurls url (or_introl eq_refl)))
      as (data & found & links & Hget & Hfound & Hlinks).
    unfold bind, visit, bind. rewrite Hget, Hfound, Hlinks.
    apply IH.
    + intros u Hu. apply Hurls. now right.
    + simpl. intros u Hu. apply set_update_In in Hu as [Hu|Hu]; [auto|].
      apply (Hclosed url u); [apply Hurls; now left|].
      exists data, links. now repeat split.
Qed.

Lemma crawl_returns site : closed_site site ->
  forall fuel state,
    crawl_invariant state ->
    (forall u, In u (known_urls state) -> In u site) ->
    List.length site < fuel + List.length (known_urls state) ->
    exists state', crawl fuel state = Some (Return state').
Proof.
  intros Hsite.
  induction fuel as [|fuel IH]; intros state Hinv Hknown Hfuel.
  - exfalso.
    assert (List.length (known_urls state) <= List.length site).
    { apply NoDup_incl_length; [now destruct Hinv|exact Hknown]. }
    simpl in Hfuel. lia.
  - simpl.
    destruct (round_urls Hinv) as [Hnd Hurls].
    destruct (@visit_all_returns site Hsite
                (set_order (set_diff (known_urls state) (visited_urls state)))
                state) as (state1 & Hround & Hknown1).
    { intros u Hu. apply Hknown. now apply Hurls. }
    { exact Hknown. }
    rewrite Hround.
    destruct (@visit_all_invariant _ state state1 Hinv Hnd
                (fun u Hu => proj1 (Hurls u) Hu) Hround)
      as (Hinv1 & _ & Hgrow & Hvisited).
    destruct (set_eqb (known_urls state1) (visited_urls state1)) eqn:Heq;
      [eauto|].
    apply IH; [exact Hinv1|exact Hknown1|].
    assert (Hnew : exists x, In x (known_urls state1) /\
                             ~ In x (known_urls state)).
    { unfold set_eqb in Heq. apply andb_false_iff in Heq as [Heq|Heq];
        apply forallb_false_witness in Heq as (x & Hx & Hmem);
        apply set_mem_not_In in Hmem.
      - exists x. split; [exact Hx|]. intros Hold. apply Hmem.
        apply Hvisited. destruct (in_dec string_dec x (visited_urls state)).
        + now left.
        + right. apply Hurls. now split.
      - exfalso. apply Hmem. now apply (visited_known Hinv1). }
    destruct Hnew as (x & Hx & Hfresh).
    assert (S (List.length (known_urls state)) <= List.length (known_urls state1)).
    { change (S (List.length (known_urls state)))
        with (List.length (x :: known_urls state)).
      apply NoDup_incl_length.
      - constructor; [exact Hfresh|now destruct Hinv].
      - intros u [<-|Hu]; [exact Hx|now apply Hgrow]. }
    lia.
Qed.

(** X22. On a site whose pages can all be read, the crawl comes to its end:
    the loop breaks within as many rounds as the site has URLs, however
    the pages link to one another. *)
Theorem updated_advisories_terminates (site : list string) :
  closed_site site ->
  exists state, updated_advisories (List.length site) = Some (Return state).
Proof.
  intros Hsite. unfold updated_advisories.
  apply (crawl_returns Hsite); [apply crawl_invariant_start| |simpl; lia].
  simpl. intros u [<-|[]]. now destruct Hsite.
Qed.

End CrawlExtras.

(** ** The further properties on the scenarios *)

Section ExtraScenarios.
Existing Instance scenario.purls.
Existing Instance scenario.dotted_order.
Existing Instance scenario.univers.
Existing Instance scenario.dates.
Existing Instance scenario.reference_api.
Existing Instance scenario.package_managers.
Existing Instance scenario.url_lib.
Existing Instance scenario.checkout.
Existing Instance scenario.web.

Import importer improver gitlab postgresql scenario.

(** The advisory of the sample file. *)
Definition sample_file_advisory : AdvisoryData VersionRange Version datetime :=
  sample_advisory
    [mkAffectedPackage amphp_http (Some [(LT, "1.0.1")]) (Some "v1.0.1")].

Lemma parse_yaml_file_uniform_records_witness :
  exists slug,
    package_slug sample_file = Some slug /\
    (forall pkg, In pkg (affected_packages sample_file_advisory) ->
                 get_purl slug = Return (Some (package pkg))) /\
    (forall pkg pkg', In pkg (affected_packages sample_file_advisory) ->
                      In pkg' (affected_packages sample_file_advisory) ->
                      affected_version_range pkg = affected_version_range pkg').
Proof.
  apply (@parse_yaml_file_uniform_records purls univers dates reference_api
           sample_file sample_file_advisory).
  reflexivity.
Defined.

Lemma parse_yaml_file_fixed_versions_witness :
  exists slug,
    package_slug sample_file = Some slug /\
    match get_purl slug with
    | Return (Some purl) =>
        exists vrc : RangeClass VersionRange Version,
          RANGE_CLASS_BY_SCHEMES (purl_type purl) = Some vrc /\
          map Return (fixed_versions_of_records
                        (affected_packages sample_file_advisory)) =
          filter (fun r => match r with Return _ => true | Raise _ => false end)
                 (map (version_class vrc)
                      (match fixed_versions sample_file with
                       | Some l => l
                       | None => []
                       end))
    | Return None => affected_packages sample_file_advisory = []
    | Raise _ => False
    end.
Proof.
  apply (@parse_yaml_file_fixed_versions purls univers dates reference_api
           sample_file sample_file_advisory).
  reflexivity.
Defined.

Lemma parse_yaml_file_merges_witness :
  affected_packages sample_file_advisory = [] \/
  exists slug purl ranges fixed,
    package_slug sample_file = Some slug /\
    get_purl slug = Return (Some purl) /\
    merge (affected_packages sample_file_advisory)
    = Return (Some (purl, ranges, fixed)).
Proof.
  apply (@parse_yaml_file_merges purls univers dates reference_api
           sample_file sample_file_advisory).
  reflexivity.
Defined.

(** The checkout: the file of NuGet is yielded, the first file of npm
    raises for its slug, and the second file of npm is never read. *)
Example advisory_data_aborted :
  advisory_files "/checkout" =
  ["/checkout/nuget/a.yml"; "/checkout/npm/b.yml"; "/checkout/npm/c.yml"] /\
  List.length (fst advisory_data) = 1 /\
  snd advisory_data = Some (FileError KeyError).
Proof. repeat split; reflexivity. Qed.

Lemma get_package_versions_caches_fetcher_witness :
  fst (get_package_versions new_improver amphp_http None) =
  fst (get_until [] "amphp/http" None) /\
  cached_fetcher (snd (get_package_versions new_improver amphp_http None))
                 amphp_http =
  Some (snd (get_until [] "amphp/http" None)).
Proof.
  apply (@get_package_versions_caches_fetcher dates package_managers
           new_improver amphp_http None "amphp/http" []);
    reflexivity.
Defined.

Lemma get_package_versions_reuses_fetcher_witness :
  fst (get_package_versions
         (snd (get_package_versions new_improver amphp_http None))
         amphp_http (Some "2018-03-15")) =
  fst (get_until (snd (get_until [] "amphp/http" None)) "amphp/http"
                 (Some "2018-03-15")).
Proof.
  apply (@get_package_versions_reuses_fetcher dates package_managers
           new_improver amphp_http None (Some "2018-03-15") "amphp/http" []);
    reflexivity.
Defined.

Lemma get_package_versions_frame_witness :
  cached_fetcher
    (snd (get_package_versions
            (snd (get_inferences new_improver go_advisory)) amphp_http None))
    (PackageURL_of "golang" None "github.com/foo/bar/sub" None) =
  cached_fetcher (snd (get_inferences new_improver go_advisory))
                 (PackageURL_of "golang" None "github.com/foo/bar/sub" None).
Proof.
  apply (@get_package_versions_frame dates package_managers
           (snd (get_inferences new_improver go_advisory)) amphp_http None
           (PackageURL_of "golang" None "github.com/foo/bar/sub" None)).
  discriminate.
Defined.

Lemma get_inferences_go_fetcher_witness :
  let purl := PackageURL_of "golang" None "github.com/foo/bar/sub" None in
  let fetcher := match cached_fetcher new_improver purl with
                 | Some cached => cached
                 | None => GoproxyVersionAPI
                 end in
  cached_fetcher (snd (resolve_pkg_name new_improver purl)) purl = Some fetcher /\
  fst (get_package_versions (snd (resolve_pkg_name new_improver purl)) purl None) =
  fst (get_until fetcher "github.com/foo/bar/sub" None).
Proof.
  apply (@get_inferences_go_fetcher dates package_managers new_improver
           (PackageURL_of "golang" None "github.com/foo/bar/sub" None)
           None "github.com/foo/bar/sub");
    reflexivity.
Defined.

Lemma get_inferences_frame_witness :
  cached_fetcher
    (snd (get_inferences (snd (get_inferences new_improver go_advisory))
                         one_range_advisory))
    (PackageURL_of "golang" None "github.com/foo/bar/sub" None) =
  cached_fetcher (snd (get_inferences new_improver go_advisory))
                 (PackageURL_of "golang" None "github.com/foo/bar/sub" None).
Proof.
  apply (@get_inferences_frame univers dates package_managers dotted_order
           (snd (get_inferences new_improver go_advisory)) one_range_advisory
           (PackageURL_of "golang" None "github.com/foo/bar/sub" None)).
  intros purl ranges fixed Hmerge. injection Hmerge as <- _ _. discriminate.
Defined.

(** The inference of the range [<1.0.2] over the released versions. *)
Definition one_range_inference : Inference :=
  from_advisory_data one_range_advisory 100
                     [amphp_version "1.0.0"; amphp_version "1.0.1"]
                     (Some (amphp_version "1.0.2")).

Lemma inferences_of_range_contents_witness :
  affected_purls one_range_inference <> [] /\
  (forall p, In p (affected_purls one_range_inference) ->
     exists v, In v released_versions /\
               range_contains [(LT, "1.0.2")] v = true /\
               p = PackageURL_of "composer" (Some "amphp") "http" (Some v)) /\
  match fixed_purl one_range_inference with
  | Some fixed =>
      exists v, In v released_versions /\
                range_contains [(LT, "1.0.2")] v = false /\
                fixed = PackageURL_of "composer" (Some "amphp") "http" (Some v) /\
                forall p, In p (affected_purls one_range_inference) ->
                          vltb (version_of p) v = true
  | None =>
      forall p v, In p (affected_purls one_range_inference) ->
                  In v released_versions ->
                  range_contains [(LT, "1.0.2")] v = false ->
                  vltb (version_of p) v = false
  end.
Proof.
  apply (@inferences_of_range_contents univers dates dotted_order
           one_range_advisory "composer" (Some "amphp") "http"
           released_versions [(LT, "1.0.2")] one_range_inference).
  vm_compute. left. reflexivity.
Defined.

(** The two versions below 1.0.2 and the version 1.0.2 itself, released
    out of order: the matcher pairs 1.0.1 and 1.0.0 with the fix 1.0.2. *)
Example inferences_of_range_order_one_fix :
  map fixed_purl
      (inferences_of_range one_range_advisory "composer" (Some "amphp") "http"
                           ["1.0.1"; "1.0.2"; "1.0.0"] [(LT, "1.0.2")]) =
  [Some (amphp_version "1.0.2")].
Proof. vm_compute. reflexivity. Qed.

(** The advisories of the page of release 11. *)
Definition release_page_advisories : list Advisory :=
  match to_advisories [[row_with_id; row_without_id]] with
  | Return advs => advs
  | Raise _ => []
  end.

Lemma to_advisories_one_per_row_witness :
  Forall2 (fun row adv =>
             exists c1 c2 c3 c4 c5,
               row = [c1; c2; c3; c4; c5] /\
               adv_summary adv = cell_text c5 /\
               map (fun r => Some (url r, reference_id r)) (adv_references adv) =
               map (fun a_tag => option_map (fun link => (reference_url link, ""))
                                            (href a_tag))
                   (anchors c1))
          [row_with_id; row_without_id] release_page_advisories.
Proof.
  apply (@to_advisories_one_per_row purls dotted_order url_lib
           [row_with_id; row_without_id] [] release_page_advisories).
  vm_compute. reflexivity.
Defined.

Lemma to_advisories_packages_witness :
  Forall2 (fun row adv =>
             exists c1 c2 c3 c4 c5,
               row = [c1; c2; c3; c4; c5] /\
               let purl := postgresql_purl (qualifiers_of (cell_text c5)) in
               adv_affected_packages adv <> [] /\
               map helpers.vulnerable_package (adv_affected_packages adv) =
               map purl (Py.split "," (cell_text c2)) /\
               forall pair patched,
                 In pair (adv_affected_packages adv) ->
                 helpers.patched_package pair = Some patched ->
                 (exists entry, In entry (Py.split "," (cell_text c3)) /\
                                entry <> "" /\ patched = purl entry) /\
                 vltb (version_of (helpers.vulnerable_package pair))
                      (version_of patched) = true)
          [row_with_id; row_without_id] release_page_advisories.
Proof.
  apply (@to_advisories_packages purls dotted_order url_lib
           [row_with_id; row_without_id] [] release_page_advisories).
  vm_compute. reflexivity.
Defined.

(** The packages of the two rows: the versions 11 and 10 with their fixes
    11.4 and 10.9, and the version 8.1 on Windows with its fix 8.1.22. *)
Example to_advisories_packages_of_rows :
  map (fun adv => map (fun pair => (helpers.vulnerable_package pair,
                                    helpers.patched_package pair))
                      (adv_affected_packages adv))
      release_page_advisories =
  [ [ (postgresql_purl [] "11", Some (postgresql_purl [] "11.4"));
      (postgresql_purl [] "10", Some (postgresql_purl [] "10.9")) ];
    [ (postgresql_purl [("os", "windows")] "8.1",
       Some (postgresql_purl [("os", "windows")] "8.1.22")) ] ].
Proof. vm_compute. reflexivity. Qed.

(** The state at the end of the crawl of the site of two pages. *)
Definition site_crawl : Crawl :=
  match updated_advisories 2 with
  | Some (Return state) => state
  | _ => mkCrawl [] [] [] []
  end.

(** The crawl of the site: the root page, then the page of release 11;
    one round is not enough to see that nothing is left to visit. *)
Example updated_advisories_site :
  updated_advisories 2 = Some (Return site_crawl) /\
  requested site_crawl = [root_url; release_url] /\
  List.length (advisories site_crawl) = 3 /\
  updated_advisories 1 = None.
Proof. repeat split; vm_compute; reflexivity. Qed.

Lemma updated_advisories_requests_witness :
  NoDup (requested site_crawl) /\
  In root_url (requested site_crawl) /\
  (forall url target, In url (requested site_crawl) -> links_to url target ->
                      In target (requested site_crawl)) /\
  (forall target, In target (requested site_crawl) ->
                  target = root_url \/
                  exists url, In url (requested site_crawl) /\
                              links_to url target).
Proof.
  apply (@updated_advisories_requests purls dotted_order url_lib web 2 site_crawl).
  vm_compute. reflexivity.
Defined.

Lemma updated_advisories_collects_witness :
  advisories site_crawl = flat_map advisories_at (requested site_crawl) /\
  forall url, In url (requested site_crawl) ->
    exists data, requests_get url = Return data /\
                 to_advisories (page_tables data) = Return (advisories_at url).
Proof.
  apply (@updated_advisories_collects purls dotted_order url_lib web 2 site_crawl).
  vm_compute. reflexivity.
Defined.

(** The two pages of the site link to nothing but each other, and both
    can be read. *)
Lemma site_closed : closed_site [root_url; release_url].
Proof.
  split; [now left|split].
  - intros url target [<-|[<-|[]]] (data & links & Hget & Hfind & Hin).
    + injection Hget as <-. vm_compute in Hfind. injection Hfind as <-.
      destruct Hin as [<-|[<-|[]]]; [right; left|left]; reflexivity.
    + injection Hget as <-. vm_compute in Hfind. injection Hfind as <-.
      destruct Hin as [<-|[]]. left. reflexivity.
  - intros url [<-|[<-|[]]]; do 3 eexists; repeat split; vm_compute; reflexivity.
Qed.

Lemma updated_advisories_terminates_witness :
  exists state,
    updated_advisories (List.length [root_url; release_url]) = Some (Return state).
Proof.
  apply (@updated_advisories_terminates purls dotted_order url_lib web
           [root_url; release_url]).
  exact site_closed.
Defined.

(** The links of a first cell: the page of the CVE, then an announcement
    on another path of the same host, given in full. *)
Definition announcement : Anchor :=
  mkAnchor (Some "https://www.postgresql.org/about/news/1949/") "Announcement".

Definition two_links : list Anchor :=
  [ mkAnchor (Some "/support/security/CVE-2019-10164/") "CVE-2019-10164";
    announcement ].

Definition score_link : Anchor :=
  mkAnchor
    (Some "https://nvd.nist.gov/vuln-metrics/cvss/v3-calculator?vector=AV:N/AC:L")
    "7.5".

Definition two_links_references
  : list Reference * option (list VulnerabilitySeverity) :=
  match references_of two_links (Some score_link) None with
  | Return refs => refs
  | Raise _ => ([], None)
  end.

(** The reference of the announcement carries the score and the vector of
    the page of the CVE. *)
Example references_of_two_links :
  map (fun r => (url r, List.length (importer.severities r)))
      (fst two_links_references) =
  [ ("https://www.postgresql.org/support/security/CVE-2019-10164/", 2);
    ("https://www.postgresql.org/about/news/1949/", 2) ].
Proof. vm_compute. reflexivity. Qed.

Lemma references_of_carries_severities_witness :
  Some (importer.severities
          (nth 1 (fst two_links_references) (mkReference "" "" []))) =
  option_map importer.severities (nth_error (fst two_links_references) 0) /\
  references_of [announcement] (Some score_link) None = Raise UnboundLocalError.
Proof.
  destruct (@references_of_carries_severities url_lib) as [Hcarry Hraise].
  split.
  - destruct (Hcarry two_links (Some score_link) None two_links_references)
      as [Hlinks _]; [vm_compute; reflexivity|].
    apply (Hlinks 1 announcement "https://www.postgresql.org/about/news/1949/"
                  (nth 1 (fst two_links_references) (mkReference "" "" [])));
      vm_compute; reflexivity.
  - apply (Hraise announcement [] (Some score_link)
                  "https://www.postgresql.org/about/news/1949/");
      reflexivity.
Defined.

End ExtraScenarios.
